(** * gitlab-fork-cli: promotion of one Git reference between two repositories

    A shallow embedding of [pkg/gitops.go] ([PerformGitOperation] and its
    helper [checkRemoteRefExistence]) and of the shell pipeline that does
    the same job with the [git] command line.

    Go strings are byte strings, so they are [string]s here.  Everything
    the program asks of the outside (go-git calls, [git] commands) is
    answered by a [World]: a record of oracles that see the history of the
    run so far.  The program itself is written in a small monad that
    threads the history and stops at a [return]. *)

From Stdlib Require Import String Ascii List Bool Arith ZArith Lia DecimalString.
Import ListNotations.
Local Open Scope list_scope.
Local Open Scope string_scope.

Set Implicit Arguments.

(** ** Go's [strings] and [slices] packages, as far as they are used *)

Module strings.

Definition HasPrefix (s p : string) : bool := String.prefix p s.

Fixpoint Contains (s substr : string) : bool :=
  String.prefix substr s
  || match s with
     | EmptyString => false
     | String _ s' => Contains s' substr
     end.

Fixpoint drop (n : nat) (s : string) : string :=
  match n, s with
  | O, _ => s
  | S n', String _ s' => drop n' s'
  | S _, EmptyString => EmptyString
  end.

Definition TrimPrefix (s p : string) : string :=
  if HasPrefix s p then drop (String.length p) s else s.

End strings.

Module slices.

Definition Contains (l : list string) (x : string) : bool :=
  existsb (String.eqb x) l.

End slices.

(** ** [plumbing.ReferenceName] *)

Module plumbing.

Definition ReferenceName := string.
Bind Scope string_scope with ReferenceName.

Definition refTagPrefix := "refs/tags/".
Definition refHeadPrefix := "refs/heads/".
Definition refRemotePrefix := "refs/remotes/".
Definition refPrefix := "refs/".

Definition NewTagReferenceName (n : string) : ReferenceName :=
  refTagPrefix ++ n.
Definition NewBranchReferenceName (n : string) : ReferenceName :=
  refHeadPrefix ++ n.

Definition IsTag (r : ReferenceName) : bool := strings.HasPrefix r refTagPrefix.
Definition IsBranch (r : ReferenceName) : bool := strings.HasPrefix r refHeadPrefix.

(** The short name of a reference: the name without its namespace.  For a
    tag it is what follows [refs/tags/], for a branch what follows
    [refs/heads/]. *)
Definition Short (r : ReferenceName) : string :=
  if IsTag r then strings.TrimPrefix r refTagPrefix
  else if IsBranch r then strings.TrimPrefix r refHeadPrefix
  else if strings.HasPrefix r refRemotePrefix then strings.TrimPrefix r refRemotePrefix
  else strings.TrimPrefix r refPrefix.

End plumbing.

(** ** Go errors

    An error is its message together with the sentinel values that
    [errors.Is] finds in its chain. *)

Inductive Sentinel : Type :=
| ErrRepositoryAlreadyExists
| ErrRemoteExists
| NoErrAlreadyUpToDate.

Definition Sentinel_eqb (a b : Sentinel) : bool :=
  match a, b with
  | ErrRepositoryAlreadyExists, ErrRepositoryAlreadyExists => true
  | ErrRemoteExists, ErrRemoteExists => true
  | NoErrAlreadyUpToDate, NoErrAlreadyUpToDate => true
  | _, _ => false
  end.

Record error : Type := mkError { Error : string; chain : list Sentinel }.

Module errors.

Definition Is (err : option error) (target : Sentinel) : bool :=
  match err with
  | None => false
  | Some e => existsb (Sentinel_eqb target) (chain e)
  end.

End errors.

Module fmt.

(** [fmt.Errorf(prefix + "%w", err)]: the message of [err] after the
    prefix, the chain of [err] kept.  A nil operand prints as
    [%!w(<nil>)] and wraps nothing. *)
Definition Errorf_w (prefix : string) (err : option error) : error :=
  match err with
  | Some e => mkError (prefix ++ Error e) (chain e)
  | None => mkError (prefix ++ "%!w(<nil>)") []
  end.

(** [fmt.Errorf] without [%w]: a fresh error that wraps nothing. *)
Definition Errorf (msg : string) : error := mkError msg [].

End fmt.

(** The sentinel errors of go-git, with their messages. *)
Definition sentinel (s : Sentinel) : error :=
  match s with
  | ErrRepositoryAlreadyExists => mkError "repository already exists" [s]
  | ErrRemoteExists => mkError "remote already exists" [s]
  | NoErrAlreadyUpToDate => mkError "already up-to-date" [s]
  end.

(** ** Authentication *)

Record BasicAuth : Type := { Username : string; Password : string }.

(** [GitAuthMethod] has one implementation, [BasicAuthMethod]; a nil
    interface value is [None]. *)
Record BasicAuthMethod : Type :=
  { bam_Username : string; bam_Password : string }.

Definition GetAuthMethod (b : BasicAuthMethod) : BasicAuth :=
  {| Username := bam_Username b; Password := bam_Password b |}.

Definition GitAuthMethod := option BasicAuthMethod.

Definition authOf (a : GitAuthMethod) : option BasicAuth :=
  match a with
  | Some b => Some (GetAuthMethod b)
  | None => None
  end.

(** ** Reference kinds *)

Inductive RefType : Type :=
| RefTypeUnknown
| RefTypeTag
| RefTypeBranch.

Definition RefType_String (rt : RefType) : string :=
  match rt with
  | RefTypeTag => "tag"
  | RefTypeBranch => "branch"
  | RefTypeUnknown => "unknown"
  end.

Definition RefType_eqb (a b : RefType) : bool :=
  match a, b with
  | RefTypeUnknown, RefTypeUnknown => true
  | RefTypeTag, RefTypeTag => true
  | RefTypeBranch, RefTypeBranch => true
  | _, _ => false
  end.

(** ** The options of the operation and of the go-git calls *)

Inductive Writer : Type := Stdout | NoWriter.

Record GitOperationOptions : Type := {
  FromRepoURL : string;
  FromRef : string;
  FromAuth : GitAuthMethod;
  ToRepoURL : string;
  ToTag : string;
  ToAuth : GitAuthMethod;
  OutputDir : string;
  ProgressWriter : Writer;
  OnTagExistsBehavior : string
}.

Record CloneOptions : Type := {
  co_URL : string;
  co_Auth : option BasicAuth;
  co_Progress : Writer;
  co_InsecureSkipTLS : bool;
  co_Depth : nat;
  co_SingleBranch : bool;
  co_ReferenceName : plumbing.ReferenceName
}.

Record PushOptions : Type := {
  po_RemoteName : string;
  po_Progress : Writer;
  po_InsecureSkipTLS : bool;
  po_Auth : option BasicAuth;
  po_RefSpecs : list string
}.

Inductive PeelingOption : Type := IgnorePeeled | OnlyPeeled | AppendPeeled.

Record ListOptions : Type := {
  lo_PeelingOption : PeelingOption;
  lo_InsecureSkipTLS : bool;
  lo_Auth : option BasicAuth
}.

Record RemoteConfig : Type := {
  rc_Name : string;
  rc_URLs : list string
}.

(** ** Programs with effects

    A program reads and extends the history of events of its run, and
    either goes on with a value or stops with the result of the whole run
    (Go's [return], the shell's [exit]). *)

Inductive Step (R A : Type) : Type :=
| Next (a : A)
| Return (r : R).

Arguments Next {R A} a.
Arguments Return {R A} r.

Definition Prog (E R A : Type) : Type := list E -> list E * Step R A.

Section Prog.
Context {E R : Type}.

Definition ret {A} (a : A) : Prog E R A := fun h => (h, Next a).

Definition bind {A B} (m : Prog E R A) (k : A -> Prog E R B) : Prog E R B :=
  fun h =>
    match m h with
    | (h', Next a) => k a h'
    | (h', Return r) => (h', Return r)
    end.

Definition return_ {A} (r : R) : Prog E R A := fun h => (h, Return r).

Definition emit (e : E) : Prog E R unit := fun h => ((h ++ [e])%list, Next tt).

(** Ask the outside a question: the answer depends on the history, and
    the question with its answer becomes an event. *)
Definition ask {A} (q : list E -> A) (ev : A -> E) : Prog E R A :=
  fun h => let a := q h in ((h ++ [ev a])%list, Next a).

Definition when (b : bool) (m : Prog E R unit) : Prog E R unit :=
  if b then m else ret tt.

End Prog.

Declare Scope prog_scope.
Delimit Scope prog_scope with prog.

Notation "x <- c ;; k" := (bind c (fun x => k))
  (at level 100, c at next level, right associativity) : prog_scope.
Notation "c ;; k" := (bind c (fun _ => k))
  (at level 100, right associativity) : prog_scope.
Notation "' pat <- c ;; k" := (bind c (fun x => let 'pat := x in k))
  (at level 100, pat pattern, c at next level, right associativity) : prog_scope.

Local Open Scope prog_scope.

(** ** The outside world

    Every go-git call the operation makes is an [Event]: the call with its
    arguments and the answer it got.  Log lines are events too.  A [World]
    answers each call from the history of the run so far, so the same URL
    may be listed twice with different answers. *)

Inductive result (A : Type) : Type :=
| Ok (a : A)
| Err (e : error).

Arguments Ok {A} a.
Arguments Err {A} e.

Definition Hash := string.
Bind Scope string_scope with Hash.

Inductive Event : Type :=
| EvLog (msg : string)
| EvList (url : string) (o : ListOptions) (res : result (list plumbing.ReferenceName))
| EvPlainClone (dir : string) (o : CloneOptions) (res : option error)
| EvPlainOpen (dir : string) (res : option error)
| EvCreateRemote (c : RemoteConfig) (res : option error)
| EvRemote (name : string) (res : option error)
| EvReference (name : plumbing.ReferenceName) (res : result Hash)
| EvPush (o : PushOptions) (res : option error).

Definition History := list Event.
Bind Scope list_scope with History.

Record World : Type := {
  w_List : History -> string -> ListOptions -> result (list plumbing.ReferenceName);
  w_PlainClone : History -> string -> CloneOptions -> option error;
  w_PlainOpen : History -> string -> option error;
  w_CreateRemote : History -> RemoteConfig -> option error;
  w_Remote : History -> string -> option error;
  w_Reference : History -> plumbing.ReferenceName -> result Hash;
  w_Push : History -> PushOptions -> option error
}.

(** The operation is a program over [Event]s that returns Go's [error]. *)
Definition M (A : Type) : Type := Prog Event (option error) A.

Definition log_Printf (msg : string) : M unit := emit (EvLog msg).

(** [err != nil] *)
Definition notNil (err : option error) : bool :=
  match err with
  | Some _ => true
  | None => false
  end.

Definition rem_List (w : World) (url : string) (o : ListOptions)
  : M (result (list plumbing.ReferenceName)) :=
  ask (fun h => w_List w h url o) (EvList url o).
Definition git_PlainClone (w : World) (dir : string) (o : CloneOptions)
  : M (option error) :=
  ask (fun h => w_PlainClone w h dir o) (EvPlainClone dir o).
Definition git_PlainOpen (w : World) (dir : string) : M (option error) :=
  ask (fun h => w_PlainOpen w h dir) (EvPlainOpen dir).
Definition r_CreateRemote (w : World) (c : RemoteConfig) : M (option error) :=
  ask (fun h => w_CreateRemote w h c) (EvCreateRemote c).
Definition r_Remote (w : World) (name : string) : M (option error) :=
  ask (fun h => w_Remote w h name) (EvRemote name).
Definition r_Reference (w : World) (name : plumbing.ReferenceName)
  : M (result Hash) :=
  ask (fun h => w_Reference w h name) (EvReference name).
Definition gitTarget_Push (w : World) (o : PushOptions) : M (option error) :=
  ask (fun h => w_Push w h o) (EvPush o).

(** The whole run, from an empty history: the history and the returned
    error ([None] is Go's [nil]). *)
Definition run (m : M unit) : History * option error :=
  match m [] with
  | (h, Next _) => (h, None)
  | (h, Return e) => (h, e)
  end.

(** ** [checkRemoteRefExistence] *)

(** The loop over the listed references: tags and branches by short name,
    in the order of the listing. *)
Fixpoint collect (refs : list plumbing.ReferenceName) (tags branches : list string)
  : list string * list string :=
  match refs with
  | [] => (tags, branches)
  | ref :: rest =>
      if plumbing.IsTag ref then
        collect rest (tags ++ [plumbing.Short ref])%list branches
      else if plumbing.IsBranch ref then
        collect rest tags (branches ++ [plumbing.Short ref])%list
      else collect rest tags branches
  end.

(** What the function answers once the listing is there. *)
Definition classify (refs : list plumbing.ReferenceName) (refName : string) : RefType :=
  let '(tags, branches) := collect refs [] [] in
  if slices.Contains tags refName then RefTypeTag
  else if slices.Contains branches refName then RefTypeBranch
  else RefTypeUnknown.

(** The [git.ListOptions] of the listing. *)
Definition listOptions (auth : GitAuthMethod) : ListOptions :=
  {| lo_PeelingOption := AppendPeeled;
     lo_InsecureSkipTLS := true;
     lo_Auth := authOf auth |}.

Definition checkRemoteRefExistence (w : World) (repoURL refName : string)
    (auth : GitAuthMethod) : M (RefType * option error) :=
  log_Printf ("正在从 " ++ repoURL ++ " 获取引用列表...") ;;
  r <- rem_List w repoURL (listOptions auth) ;;
  match r with
  | Err err => ret (RefTypeUnknown, Some (fmt.Errorf_w "列出远程引用失败: " (Some err)))
  | Ok refs =>
      let '(tags, branches) := collect refs [] [] in
      if slices.Contains tags refName then
        log_Printf ("引用 '" ++ refName ++ "' 存在于远程仓库并被识别为标签。") ;;
        ret (RefTypeTag, None)
      else if slices.Contains branches refName then
        log_Printf ("引用 '" ++ refName ++ "' 存在于远程仓库并被识别为分支。") ;;
        ret (RefTypeBranch, None)
      else
        log_Printf ("引用 '" ++ refName ++ "' 在远程仓库中未被识别为标签或分支。") ;;
        ret (RefTypeUnknown, None)
  end.

(** ** [PerformGitOperation] *)

(** The function is one sequence of six numbered steps; each step is a
    definition here and [PerformGitOperation] runs them in order.  A
    [return] inside a step ends the whole function. *)

(** 1. the kind of the source reference *)
Definition checkSourceRef (w : World) (opts : GitOperationOptions) : M RefType :=
  '(refType, err) <- checkRemoteRefExistence w (FromRepoURL opts) (FromRef opts) (FromAuth opts) ;;
  when (notNil err)
    (return_ (Some (fmt.Errorf_w ("检查源仓库引用 (" ++ FromRef opts ++ ") 失败: ") err))) ;;
  when (RefType_eqb refType RefTypeUnknown)
    (return_ (Some (fmt.Errorf ("源仓库中未找到分支或标签: " ++ FromRef opts)))) ;;
  ret refType.

(** 2. the clone options, with the reference to clone set afterwards *)
Definition cloneOptions (opts : GitOperationOptions) (referenceName : plumbing.ReferenceName)
  : CloneOptions :=
  {| co_URL := FromRepoURL opts;
     co_Auth := authOf (FromAuth opts);
     co_Progress := ProgressWriter opts;
     co_InsecureSkipTLS := true;
     co_Depth := 1;
     co_SingleBranch := true;
     co_ReferenceName := referenceName |}.

(** 2. the reference to clone, 3. the clone *)
Definition cloneSource (w : World) (opts : GitOperationOptions) (refType : RefType) : M unit :=
  referenceName <-
    match refType with
    | RefTypeTag =>
        log_Printf ("检测到源引用 '" ++ FromRef opts ++ "' 为标签，将克隆该标签。") ;;
        ret (plumbing.NewTagReferenceName (FromRef opts))
    | RefTypeBranch =>
        log_Printf ("检测到源引用 '" ++ FromRef opts ++ "' 为分支，将克隆该分支。") ;;
        ret (plumbing.NewBranchReferenceName (FromRef opts))
    | RefTypeUnknown => ret ""
    end ;;
  log_Printf ("正在克隆仓库 " ++ FromRepoURL opts ++ " 到 " ++ OutputDir opts ++ "...") ;;
  err <- git_PlainClone w (OutputDir opts) (cloneOptions opts referenceName) ;;
  when (notNil err)
    (if errors.Is err ErrRepositoryAlreadyExists then
       log_Printf ("目标目录 '" ++ OutputDir opts ++ "' 已存在且是一个 Git 仓库，尝试打开而不是克隆。") ;;
       err <- git_PlainOpen w (OutputDir opts) ;;
       when (notNil err)
         (return_ (Some (fmt.Errorf_w ("无法打开现有仓库 " ++ OutputDir opts ++ ": ") err))) ;;
       log_Printf ("警告: 目录 '" ++ OutputDir opts ++ "' 已存在，克隆操作跳过。请确保它是所需状态。")
     else
       return_ (Some (fmt.Errorf_w "克隆失败: " err))) ;;
  log_Printf ("仓库已成功克隆到 " ++ OutputDir opts).

(** 4. the target remote *)
Definition targetRemoteConfig (opts : GitOperationOptions) : RemoteConfig :=
  {| rc_Name := "target"; rc_URLs := [ToRepoURL opts] |}.

Definition configureTargetRemote (w : World) (opts : GitOperationOptions) : M unit :=
  log_Printf ("正在配置目标远程仓库 " ++ ToRepoURL opts ++ "...") ;;
  err <- r_CreateRemote w (targetRemoteConfig opts) ;;
  if notNil err && negb (errors.Is err ErrRemoteExists) then
    return_ (Some (fmt.Errorf_w "创建远程仓库配置失败: " err))
  else if errors.Is err ErrRemoteExists then
    log_Printf ("远程 '" ++ rc_Name (targetRemoteConfig opts) ++ "' 已存在，跳过创建。") ;;
    err <- r_Remote w (rc_Name (targetRemoteConfig opts)) ;;
    when (notNil err)
      (return_ (Some (fmt.Errorf_w
         ("无法获取已存在的远程 '" ++ rc_Name (targetRemoteConfig opts) ++ "': ") err)))
  else ret tt.

(** 5. the push options, with the ref-specs set afterwards *)
Definition pushOptions (opts : GitOperationOptions) (refSpecs : list string) : PushOptions :=
  {| po_RemoteName := "target";
     po_Progress := ProgressWriter opts;
     po_InsecureSkipTLS := true;
     po_Auth := authOf (ToAuth opts);
     po_RefSpecs := refSpecs |}.

(** 5. the ref-specs of the push *)
Definition configurePush (w : World) (opts : GitOperationOptions) (refType : RefType)
  : M PushOptions :=
  if negb (ToTag opts =? "") then
    localRef <- r_Reference w ("refs/remotes/origin/" ++ FromRef opts) ;;
    localRef <-
      (if RefType_eqb refType RefTypeTag then
         r_Reference w (plumbing.NewTagReferenceName (FromRef opts))
       else ret localRef) ;;
    match localRef with
    | Err err =>
        return_ (Some (fmt.Errorf_w ("无法获取本地引用 " ++ FromRef opts ++ ": ") (Some err)))
    | Ok hash =>
        log_Printf ("将本地提交 " ++ hash ++ " 推送到目标仓库标签 " ++ ToTag opts ++ "。") ;;
        ret (pushOptions opts [hash ++ ":refs/tags/" ++ ToTag opts])
    end
  else
    log_Printf "未指定目标标签，将推送所有本地标签到目标仓库。" ;;
    ret (pushOptions opts ["refs/tags/*:refs/tags/*"]).

(** The error string of go-git issue 1600: the push went through, its
    report could not be decoded. *)
Definition unpackOkQuirk : string := "decode report-status: unknown channel unpack ok".

(** 6. the push *)
Definition executePush (w : World) (opts : GitOperationOptions) (po : PushOptions)
  : M unit :=
  log_Printf ("正在推送内容到目标仓库 " ++ ToRepoURL opts ++ "...") ;;
  err <- gitTarget_Push w po ;;
  match err with
  | Some e =>
      when (strings.Contains (Error e) unpackOkQuirk)
        (log_Printf "内容已成功推送到目标仓库。" ;;
         return_ None) ;;
      err <-
        (if errors.Is err NoErrAlreadyUpToDate then
           let tag := if ToTag opts =? "" then FromRef opts else ToTag opts in
           '(refType, err) <- checkRemoteRefExistence w (ToRepoURL opts) tag (ToAuth opts) ;;
           match err with
           | Some e' =>
               return_ (Some (fmt.Errorf
                 ("检查标签 '" ++ tag ++ "' 已存在于目标仓库 发生错误 " ++ Error e' ++ "。")))
           | None =>
               if RefType_eqb refType RefTypeTag then
                 if OnTagExistsBehavior opts =? "error" then
                   return_ (Some (fmt.Errorf
                     ("标签 '" ++ tag ++ "' 已存在于目标仓库，且配置为报错模式。")))
                 else if OnTagExistsBehavior opts =? "skip" then
                   log_Printf ("标签 '" ++ tag ++ "' 已存在于目标仓库，已跳过推送。") ;;
                   return_ None
                 else
                   return_ (Some (fmt.Errorf
                     ("未知的 --on-tag-exists 行为: " ++ OnTagExistsBehavior opts)))
               else ret err
           end
         else ret err) ;;
      return_ (Some (fmt.Errorf_w "推送失败: " err))
  | None =>
      log_Printf "内容已成功推送到目标仓库。" ;;
      return_ None
  end.

Definition PerformGitOperation (w : World) (opts : GitOperationOptions) : M unit :=
  refType <- checkSourceRef w opts ;;
  cloneSource w opts refType ;;
  configureTargetRemote w opts ;;
  po <- configurePush w opts refType ;;
  executePush w opts po.

(** ** The shell pipeline

    The script that does the same promotion with the [git] command line,
    from its parameter validation (section 2) to its end.  The variables
    are those the argument loop has set.  A command is answered by the
    world with its exit status and its standard output. *)

Module Script.

Inductive Cmd : Type :=
| date (format : string)
| test_d (dir : string)
| rm_rf (dir : string)
| git_clone (url dir : string)
| cd (dir : string)
| git_show_ref_verify (ref : string)
| git_rev_parse (ref : string)
| git_branch (name commit : string)
| git_remote_add (name url : string)
| git_remote_set_url (name url : string)
| git_ls_remote (url pattern : string)
| git_push (remote refspec : string)
| git_branch_d (name : string)
| git_push_delete (remote ref : string).

Inductive ShEvent : Type :=
| Run (c : Cmd) (status : nat) (stdout : string)
| Echo (msg : string)
| ShowHelp.

Definition ShWorld : Type := list ShEvent -> Cmd -> nat * string.

(** A script is a program over [ShEvent]s that ends with an exit code. *)
Definition Sh (A : Type) : Type := Prog ShEvent nat A.

Definition sh (w : ShWorld) (c : Cmd) : Sh (nat * string) :=
  ask (fun h => w h c) (fun a => Run c (fst a) (snd a)).

Definition echo (msg : string) : Sh unit := emit (Echo msg).

Definition exit {A} (code : nat) : Sh A := return_ code.

Definition LF : string := String (ascii_of_nat 10) "".
Definition TAB : string := String (ascii_of_nat 9) "".

(** Command substitution drops the trailing newlines of the output. *)
Fixpoint chomp (s : string) : string :=
  match s with
  | EmptyString => EmptyString
  | String c s' =>
      let r := chomp s' in
      if Ascii.eqb c (ascii_of_nat 10) && (r =? "") then "" else String c r
  end.

(** [sed -e 's|pat||']: the first occurrence of [pat] is deleted. *)
Fixpoint sed_delete_first (pat s : string) : string :=
  if String.prefix pat s then strings.drop (String.length pat) s
  else match s with
       | EmptyString => EmptyString
       | String c s' => String c (sed_delete_first pat s')
       end.

(** [grep -q pat]: some line of the input contains [pat] (a pattern
    without a newline, so the lines need not be split). *)
Definition grep_q (pat input : string) : bool := strings.Contains input pat.

Definition isEmpty (s : string) : bool := s =? "".

Definition ne0 (status : nat) : bool := negb (status =? 0)%nat.

Definition decimal (n : nat) : string :=
  DecimalString.NilZero.string_of_uint (Nat.to_uint n).

Record Vars : Type := {
  SOURCE_REPO_URL : string;
  DEST_REPO_URL : string;
  SOURCE_REF : string;
  LOCAL_CLONE_DIR : string;
  SOURCE_GIT_USERNAME : string;
  SOURCE_GIT_TOKEN : string;
  DEST_GIT_USERNAME : string;
  DEST_GIT_TOKEN : string
}.

Definition knownHost (url : string) : bool :=
  strings.Contains url "github.com"
  || strings.Contains url "gitlab.com"
  || strings.Contains url "gitlab.alaudatech.net".

(** The URL with the credentials: [sed] deletes the first [https://] of
    what [echo] prints.  The URL is taken to be one word that [echo]
    prints as it is: the splitting of the unquoted expansion into words,
    its patterns and the options of [echo] are not modelled. *)
Definition authURL (user token url : string) : string :=
  if negb (isEmpty token) then
    "https://" ++ user ++ ":" ++ token ++ "@" ++ sed_delete_first "https://" url
  else url.

Definition TARGET_MAIN_BRANCH : string := "main".

Definition TEMP_LOCAL_BRANCH_NAME (seconds : string) : string :=
  "temp-mirror-local-" ++ seconds.

Definition REMOTE_TEMP_BRANCH_FOR_OBJECTS (seconds : string) : string :=
  "refs/heads/mirror-objects-" ++ TEMP_LOCAL_BRANCH_NAME seconds.

Definition SOURCE_REPO_URL_AUTH (v : Vars) : string :=
  authURL (SOURCE_GIT_USERNAME v) (SOURCE_GIT_TOKEN v) (SOURCE_REPO_URL v).

Definition DEST_REPO_URL_AUTH (v : Vars) : string :=
  authURL (DEST_GIT_USERNAME v) (DEST_GIT_TOKEN v) (DEST_REPO_URL v).

(** The script is a sequence of numbered sections; each is a definition
    here and [script] runs them in order.  An [exit] inside a section
    ends the script. *)

(** 2. parameter validation *)
Definition validate (v : Vars) : Sh unit :=
  when (isEmpty (SOURCE_REPO_URL v) || isEmpty (DEST_REPO_URL v) || isEmpty (SOURCE_REF v))
    (echo "Error: Missing required parameters (--from-repo-url, --to-repo-url, --from-ref)." ;;
     emit ShowHelp ;;
     exit 1) ;;
  when (isEmpty (SOURCE_GIT_TOKEN v) && knownHost (SOURCE_REPO_URL v))
    (echo "Error: Source repository requires authentication, but SOURCE_GIT_TOKEN is not set. Please provide it via --source-token or environment variable SOURCE_GIT_TOKEN." ;;
     exit 1) ;;
  when (isEmpty (DEST_GIT_TOKEN v) && knownHost (DEST_REPO_URL v))
    (echo "Error: Destination repository requires authentication, but DEST_GIT_TOKEN is not set. Please provide it via --dest-token or environment variable DEST_GIT_TOKEN." ;;
     exit 1).

(** 3. pre-checks: an existing clone directory is removed *)
Definition precheck (w : ShWorld) (v : Vars) : Sh unit :=
  '(st, _) <- sh w (test_d (LOCAL_CLONE_DIR v)) ;;
  when (st =? 0)%nat
    (echo ("Warning: Local clone directory '" ++ LOCAL_CLONE_DIR v ++ "' already exists. Attempting to remove and recreate to avoid conflicts.") ;;
     '(st, _) <- sh w (rm_rf (LOCAL_CLONE_DIR v)) ;;
     when (ne0 st)
       (echo ("Error: Could not remove existing directory '" ++ LOCAL_CLONE_DIR v ++ "'. Please remove it manually or specify a different directory name.") ;;
        exit 1)).

(** 4. the clone of the source repository *)
Definition cloneSource (w : ShWorld) (v : Vars) : Sh unit :=
  echo ("--- Cloning source repository: " ++ SOURCE_REPO_URL v ++ " to " ++ LOCAL_CLONE_DIR v ++ " ---") ;;
  '(st, _) <- sh w (git_clone (SOURCE_REPO_URL_AUTH v) (LOCAL_CLONE_DIR v)) ;;
  when (ne0 st)
    (echo "Error: Cloning source repository failed! Please check source URL, authentication details, or network connection." ;;
     exit 1) ;;
  '(st, _) <- sh w (cd (LOCAL_CLONE_DIR v)) ;;
  when (ne0 st)
    (echo ("Error: Could not enter directory '" ++ LOCAL_CLONE_DIR v ++ "'.") ;;
     exit 1).

(** 5. the kind and the commit of the source reference *)
Definition resolveCommit (w : ShWorld) (v : Vars) : Sh (string * string) :=
  echo ("--- Resolving Commit ID for reference '" ++ SOURCE_REF v ++ "' ---") ;;
  '(st, _) <- sh w (git_show_ref_verify ("refs/tags/" ++ SOURCE_REF v)) ;;
  '(REF_TYPE, st, COMMIT_ID_TO_PUSH) <-
    (if (st =? 0)%nat then
       '(st, out) <- sh w (git_rev_parse ("refs/tags/" ++ SOURCE_REF v)) ;;
       ret ("tag", st, chomp out)
     else
       '(st, _) <- sh w (git_show_ref_verify ("refs/heads/" ++ SOURCE_REF v)) ;;
       if (st =? 0)%nat then
         '(st, out) <- sh w (git_rev_parse ("refs/heads/" ++ SOURCE_REF v)) ;;
         ret ("branch", st, chomp out)
       else
         echo ("Error: Reference '" ++ SOURCE_REF v ++ "' not found as a tag or branch in the local repository.") ;;
         exit 1) ;;
  when (ne0 st)
    (echo ("Error: Could not resolve reference '" ++ SOURCE_REF v ++ "'! Please check if the reference exists in the source repository.") ;;
     exit 1) ;;
  echo ("Reference '" ++ SOURCE_REF v ++ "' is a " ++ REF_TYPE ++ ", and its corresponding Commit ID is: " ++ COMMIT_ID_TO_PUSH) ;;
  ret (REF_TYPE, COMMIT_ID_TO_PUSH).

(** 6. the local temporary branch, named after the seconds of the clock *)
Definition createTempBranch (w : ShWorld) (COMMIT_ID_TO_PUSH : string) : Sh string :=
  '(_, out) <- sh w (date "+%s") ;;
  let seconds := chomp out in
  echo ("--- Creating local temporary branch: '" ++ TEMP_LOCAL_BRANCH_NAME seconds ++ "' pointing to " ++ COMMIT_ID_TO_PUSH ++ " ---") ;;
  '(st, _) <- sh w (git_branch (TEMP_LOCAL_BRANCH_NAME seconds) COMMIT_ID_TO_PUSH) ;;
  when (ne0 st)
    (echo "Error: Failed to create local temporary branch!" ;;
     exit 1) ;;
  ret seconds.

(** 7. the destination remote *)
Definition addRemote (w : ShWorld) (v : Vars) : Sh unit :=
  echo ("--- Adding target remote repository: " ++ DEST_REPO_URL v ++ " as 'destination' ---") ;;
  '(st, _) <- sh w (git_remote_add "destination" (DEST_REPO_URL_AUTH v)) ;;
  st <- (if (st =? 0)%nat then ret st
         else '(st, _) <- sh w (git_remote_set_url "destination" (DEST_REPO_URL_AUTH v)) ;;
              ret st) ;;
  when (ne0 st)
    (echo "Error: Failed to add/set remote repository! Please check URL and authentication details." ;;
     exit 1).

(** 8. the commit objects; the result is the remote temporary branch,
    empty when the main branch was initialised instead *)
Definition pushObjects (w : ShWorld) (v : Vars) (seconds : string) : Sh string :=
  echo ("--- Checking if remote '" ++ TARGET_MAIN_BRANCH ++ "' branch exists in '" ++ DEST_REPO_URL v ++ "' ---") ;;
  '(_, listing) <- sh w (git_ls_remote (DEST_REPO_URL_AUTH v) ("refs/heads/" ++ TARGET_MAIN_BRANCH)) ;;
  if grep_q TARGET_MAIN_BRANCH listing then
    echo ("Remote '" ++ TARGET_MAIN_BRANCH ++ "' branch exists. Pushing commit objects to a temporary remote branch.") ;;
    '(PUSH_OBJECT_STATUS, _) <-
      sh w (git_push "destination"
              (TEMP_LOCAL_BRANCH_NAME seconds ++ ":" ++ REMOTE_TEMP_BRANCH_FOR_OBJECTS seconds)) ;;
    (if ne0 PUSH_OBJECT_STATUS then
       echo ("Error: Failed to push commit objects to remote temporary branch! Exit code: " ++ decimal PUSH_OBJECT_STATUS ++ ".") ;;
       echo "This could be a permission issue, or the target repository rejected the commit. Please check Git error messages." ;;
       exit 1
     else
       echo ("Commit objects for '" ++ SOURCE_REF v ++ "' successfully pushed to remote temporary branch '" ++ REMOTE_TEMP_BRANCH_FOR_OBJECTS seconds ++ "'.")) ;;
    ret (REMOTE_TEMP_BRANCH_FOR_OBJECTS seconds)
  else
    echo ("Remote '" ++ TARGET_MAIN_BRANCH ++ "' branch does not exist (or is empty). Attempting to initialize it with commit objects.") ;;
    '(PUSH_MAIN_INIT_STATUS, _) <-
      sh w (git_push "destination"
              (TEMP_LOCAL_BRANCH_NAME seconds ++ ":" ++ "refs/heads/" ++ TARGET_MAIN_BRANCH)) ;;
    (if ne0 PUSH_MAIN_INIT_STATUS then
       echo ("Error: Failed to initialize remote '" ++ TARGET_MAIN_BRANCH ++ "' branch! Exit code: " ++ decimal PUSH_MAIN_INIT_STATUS ++ ".") ;;
       echo "This might be due to permissions or repository rules. Please check Git error messages." ;;
       exit 1
     else
       echo ("Remote '" ++ TARGET_MAIN_BRANCH ++ "' branch successfully initialized with commit objects for '" ++ SOURCE_REF v ++ "'.")) ;;
    ret "".

(** 9. the original tag or branch *)
Definition pushReference (w : ShWorld) (v : Vars) (REF_TYPE : string) : Sh unit :=
  '(st, _) <-
    (if REF_TYPE =? "tag" then
       echo ("--- Second push: Pushing Tag '" ++ SOURCE_REF v ++ "' to the target repository ---") ;;
       sh w (git_push "destination" ("refs/tags/" ++ SOURCE_REF v))
     else if REF_TYPE =? "branch" then
       echo ("--- Second push: Pushing branch '" ++ SOURCE_REF v ++ "' to the target repository ---") ;;
       sh w (git_push "destination" ("refs/heads/" ++ SOURCE_REF v))
     else ret (0, "")) ;;
  when (ne0 st)
    (echo ("Error: Failed to push reference '" ++ SOURCE_REF v ++ "' to the target repository!") ;;
     exit 1) ;;
  echo ("Reference '" ++ SOURCE_REF v ++ "' pushed successfully to the target repository.").

(** 10. cleanup of the temporary branches and of the clone directory *)
Definition cleanup (w : ShWorld) (v : Vars) (seconds REMOTE_TEMP : string) : Sh unit :=
  echo ("--- Cleaning up local temporary branch '" ++ TEMP_LOCAL_BRANCH_NAME seconds ++ "' ---") ;;
  '(st, _) <- sh w (git_branch_d (TEMP_LOCAL_BRANCH_NAME seconds)) ;;
  when (ne0 st)
    (echo ("Warning: Failed to delete local temporary branch. Please clean it up manually: 'cd " ++ LOCAL_CLONE_DIR v ++ " && git branch -d " ++ TEMP_LOCAL_BRANCH_NAME seconds ++ "'")) ;;
  (if negb (isEmpty REMOTE_TEMP) then
     echo ("--- Cleaning up remote temporary branch '" ++ REMOTE_TEMP ++ "' ---") ;;
     _ <- sh w (git_push_delete "destination" REMOTE_TEMP) ;;
     (* [|| true]: the status tested next is 0 whatever the push did *)
     when (ne0 0)
       (echo ("Warning: Failed to delete remote temporary branch. Please clean it up manually: 'git push " ++ DEST_REPO_URL v ++ " --delete " ++ REMOTE_TEMP ++ "'"))
   else
     echo "No remote temporary branch was created for object upload (main branch was initialized instead).") ;;
  _ <- sh w (cd "..") ;;
  echo ("--- Cleaning up temporary clone directory '" ++ LOCAL_CLONE_DIR v ++ "' ---") ;;
  '(st, _) <- sh w (rm_rf (LOCAL_CLONE_DIR v)) ;;
  when (ne0 st)
    (echo ("Warning: Failed to delete temporary clone directory. Please clean it up manually: 'rm -rf " ++ LOCAL_CLONE_DIR v ++ "'")) ;;
  echo "--- Operation Completed ---" ;;
  echo ("Please check your target repository: " ++ DEST_REPO_URL v ++ ", to confirm that '" ++ TARGET_MAIN_BRANCH ++ "' branch (if initialized) and '" ++ SOURCE_REF v ++ "' (tag/branch) have been created.") ;;
  echo "You may need to change the default branch in your GitLab/GitHub repository settings.".

Definition script (w : ShWorld) (v : Vars) : Sh unit :=
  validate v ;;
  precheck w v ;;
  cloneSource w v ;;
  '(REF_TYPE, COMMIT_ID_TO_PUSH) <- resolveCommit w v ;;
  seconds <- createTempBranch w COMMIT_ID_TO_PUSH ;;
  addRemote w v ;;
  REMOTE_TEMP <- pushObjects w v seconds ;;
  pushReference w v REF_TYPE ;;
  cleanup w v seconds REMOTE_TEMP ;;
  exit 0.

(** The whole run: the events and the exit code. *)
Definition run (m : Sh unit) : list ShEvent * nat :=
  match m [] with
  | (h, Next _) => (h, 0)
  | (h, Return code) => (h, code)
  end.

(** What [git ls-remote <url> <pattern>] prints for a remote holding
    [refs]: one line, hash TAB name, for each reference whose name is the
    pattern or ends with a slash and the pattern. *)
Fixpoint HasSuffix (s suffix : string) : bool :=
  (s =? suffix)
  || match s with
     | EmptyString => false
     | String _ s' => HasSuffix s' suffix
     end.

Definition tail_match (pattern name : string) : bool :=
  (name =? pattern) || HasSuffix name ("/" ++ pattern).

Fixpoint ls_remote_output (refs : list (Hash * string)) (pattern : string) : string :=
  match refs with
  | [] => ""
  | (hash, name) :: rest =>
      if tail_match pattern name then
        hash ++ TAB ++ name ++ LF ++ ls_remote_output rest pattern
      else ls_remote_output rest pattern
  end.

End Script.

(** ** Reading a history

    The claims speak of what a run did; these functions read it off the
    history. *)

(** The answer to the first reference listing of a history. *)
Fixpoint listingIn (h : History) : option (result (list plumbing.ReferenceName)) :=
  match h with
  | [] => None
  | EvList _ _ res :: _ => Some res
  | _ :: rest => listingIn rest
  end.

(** What followed the first push. *)
Fixpoint afterPush (h : History) : History :=
  match h with
  | [] => []
  | EvPush _ _ :: rest => rest
  | _ :: rest => afterPush rest
  end.

Definition isLog (ev : Event) : bool :=
  match ev with
  | EvLog _ => true
  | _ => false
  end.

(** The calls of a history, the log lines left out. *)
Definition calls (h : History) : History := filter (fun ev => negb (isLog ev)) h.

Definition isPlainClone (ev : Event) : bool :=
  match ev with
  | EvPlainClone _ _ _ => true
  | _ => false
  end.


Definition isPush (ev : Event) : bool :=
  match ev with
  | EvPush _ _ => true
  | _ => false
  end.

(** For a call that goes over the network, whether it was told to skip the
    verification of the TLS certificate. *)
Definition tlsSkipped (ev : Event) : option bool :=
  match ev with
  | EvList _ o _ => Some (lo_InsecureSkipTLS o)
  | EvPlainClone _ o _ => Some (co_InsecureSkipTLS o)
  | EvPush o _ => Some (po_InsecureSkipTLS o)
  | _ => None
  end.

(** Whether directory [dir] exists after the calls of [h], given whether it
    existed before: a clone that succeeds creates it, and no other call
    of the operation creates or removes a directory. *)
Definition dirExistsAfter (dir : string) (h : History) (before : bool) : bool :=
  fold_left
    (fun present ev =>
       match ev with
       | EvPlainClone d _ None => if d =? dir then true else present
       | _ => present
       end)
    h before.

(** The log line [checkRemoteRefExistence] ends with. *)
Definition classifyLog (rt : RefType) (refName : string) : string :=
  match rt with
  | RefTypeTag => "引用 '" ++ refName ++ "' 存在于远程仓库并被识别为标签。"
  | RefTypeBranch => "引用 '" ++ refName ++ "' 存在于远程仓库并被识别为分支。"
  | RefTypeUnknown => "引用 '" ++ refName ++ "' 在远程仓库中未被识别为标签或分支。"
  end.

(** The options with another tag-conflict policy. *)
Definition withPolicy (policy : string) (opts : GitOperationOptions) : GitOperationOptions :=
  {| FromRepoURL := FromRepoURL opts;
     FromRef := FromRef opts;
     FromAuth := FromAuth opts;
     ToRepoURL := ToRepoURL opts;
     ToTag := ToTag opts;
     ToAuth := ToAuth opts;
     OutputDir := OutputDir opts;
     ProgressWriter := ProgressWriter opts;
     OnTagExistsBehavior := policy |}.

(** The name re-classified on the destination after an up-to-date push. *)
Definition destTag (opts : GitOperationOptions) : string :=
  if ToTag opts =? "" then FromRef opts else ToTag opts.

Module ScriptTrace.
Import Script.

(** The ref-specs pushed, in order. *)
Fixpoint pushSpecs (h : list ShEvent) : list string :=
  match h with
  | [] => []
  | Run (git_push _ spec) _ _ :: rest => spec :: pushSpecs rest
  | _ :: rest => pushSpecs rest
  end.

(** The remote references deleted, in order. *)
Fixpoint deletes (h : list ShEvent) : list string :=
  match h with
  | [] => []
  | Run (git_push_delete _ ref) _ _ :: rest => ref :: deletes rest
  | _ :: rest => deletes rest
  end.

(** What followed the first [git clone]. *)
Fixpoint afterClone (h : list ShEvent) : list ShEvent :=
  match h with
  | [] => []
  | Run (git_clone _ _) _ _ :: rest => rest
  | _ :: rest => afterClone rest
  end.

Definition isRmRf (ev : ShEvent) : bool :=
  match ev with
  | Run (rm_rf _) _ _ => true
  | _ => false
  end.

Definition isEcho (ev : ShEvent) : bool :=
  match ev with
  | Echo _ => true
  | _ => false
  end.

End ScriptTrace.

(** ** What programs append, and how they stop *)

(** [emits P m]: whatever the history, [m] only appends events to it, and
    each of them satisfies [P]. *)
Definition emits {E R A : Type} (P : E -> Prop) (m : Prog E R A) : Prop :=
  forall h, exists evs, fst (m h) = (h ++ evs)%list /\ Forall P evs.

(** [exits Q m]: when [m] stops the run, the result satisfies [Q]. *)
Definition exits {E R A : Type} (Q : R -> Prop) (m : Prog E R A) : Prop :=
  forall h h' r, m h = (h', Return r) -> Q r.

(** The error a stopped or finished operation returns. *)
Definition result_of {A : Type} (s : Step (option error) A) : option error :=
  match s with
  | Next _ => None
  | Return e => e
  end.

(** Steps 1 to 5 together: all that comes before the push. *)
Definition prepare (w : World) (opts : GitOperationOptions) : M PushOptions :=
  refType <- checkSourceRef w opts ;;
  cloneSource w opts refType ;;
  configureTargetRemote w opts ;;
  configurePush w opts refType.

Definition notPush (ev : Event) : Prop := isPush ev = false.
Definition notClone (ev : Event) : Prop := isPlainClone ev = false.

(** A call that does not go over the network, or one that skips the
    verification of the certificate. *)
Definition tlsOff (ev : Event) : Prop := forall b, tlsSkipped ev = Some b -> b = true.


Module ScriptParts.
Import Script ScriptTrace.

(** Sections 2 and 3: all that comes before the clone. *)
Definition beforeClone (w : ShWorld) (v : Vars) : Sh unit :=
  validate v ;; precheck w v.

(** Sections 4 to 7: from the clone to the destination remote; the kind
    of the reference and the seconds naming the temporary branch. *)
Definition cloneToRemote (w : ShWorld) (v : Vars) : Sh (string * string) :=
  cloneSource w v ;;
  '(REF_TYPE, COMMIT_ID_TO_PUSH) <- resolveCommit w v ;;
  seconds <- createTempBranch w COMMIT_ID_TO_PUSH ;;
  addRemote w v ;;
  ret (REF_TYPE, seconds).

(** Sections 8 and 9: the objects, then the reference. *)
Definition publish (w : ShWorld) (v : Vars) (REF_TYPE seconds : string) : Sh string :=
  REMOTE_TEMP <- pushObjects w v seconds ;;
  pushReference w v REF_TYPE ;;
  ret REMOTE_TEMP.

Definition isLsRemote (ev : ShEvent) : bool :=
  match ev with
  | Run (git_ls_remote _ _) _ _ => true
  | _ => false
  end.

Definition isGitClone (ev : ShEvent) : bool :=
  match ev with
  | Run (git_clone _ _) _ _ => true
  | _ => false
  end.

(** An event that transfers nothing to the destination and asks it
    nothing. *)
Definition local (ev : ShEvent) : Prop :=
  pushSpecs [ev] = [] /\ deletes [ev] = [] /\ isLsRemote ev = false.

(** An event that removes no directory. *)
Definition keeps (ev : ShEvent) : Prop := isRmRf ev = false.

End ScriptParts.

(** ** Concrete runs

    A destination and a source as in the scenarios of the design: the
    source holds tag [v0.0.1] and branch [dev], and the world answers from
    what the run has done so far: a listing asked after the push is the
    destination's. *)

Module Example.

Definition sourceRefs : list plumbing.ReferenceName :=
  ["refs/heads/dev"; "refs/heads/main"; "refs/tags/v0.0.1"; "refs/tags/v0.0.1^{}"].

Definition destRefs : list plumbing.ReferenceName :=
  ["refs/heads/main"; "refs/tags/v0.0.1"].

Definition world (clone push : option error) : World :=
  {| w_List := fun h _ _ => if existsb isPush h then Ok destRefs else Ok sourceRefs;
     w_PlainClone := fun _ _ _ => clone;
     w_PlainOpen := fun _ _ => None;
     w_CreateRemote := fun _ _ => None;
     w_Remote := fun _ _ => None;
     w_Reference := fun _ _ => Ok "5f2b1c0e9d8a7b6c5d4e3f2a1b0c9d8e7f6a5b4c";
     w_Push := fun _ _ => push |}.

Definition options (fromRef toTag policy : string) : GitOperationOptions :=
  {| FromRepoURL := "https://git.example/fy-dev/iris";
     FromRef := fromRef;
     FromAuth := Some {| bam_Username := "oauth2"; bam_Password := "dev-token" |};
     ToRepoURL := "https://git.example/fy-prod/iris";
     ToTag := toTag;
     ToAuth := Some {| bam_Username := "oauth2"; bam_Password := "prod-token" |};
     OutputDir := "/tmp/go-git-clone-push-temp-4711";
     ProgressWriter := Stdout;
     OnTagExistsBehavior := policy |}.

(** A remote on which [release] is both a tag and a branch. *)
Definition ambiguous : list plumbing.ReferenceName :=
  ["refs/heads/main"; "refs/heads/release"; "refs/tags/release"].

Definition ambiguousWorld : World :=
  {| w_List := fun _ _ _ => Ok ambiguous;
     w_PlainClone := fun _ _ _ => None;
     w_PlainOpen := fun _ _ => None;
     w_CreateRemote := fun _ _ => None;
     w_Remote := fun _ _ => None;
     w_Reference := fun _ _ => Ok "5f2b1c0e9d8a7b6c5d4e3f2a1b0c9d8e7f6a5b4c";
     w_Push := fun _ _ => None |}.

(** The error of go-git issue 1600. *)
Definition unpackOk : error :=
  mkError "decode report-status: unknown channel unpack ok" [].

Definition vars : Script.Vars :=
  {| Script.SOURCE_REPO_URL := "https://git.example/fy-dev/iris";
     Script.DEST_REPO_URL := "https://git.example/fy-prod/iris";
     Script.SOURCE_REF := "v0.0.1";
     Script.LOCAL_CLONE_DIR := "temp_clone_dir_20250101120000";
     Script.SOURCE_GIT_USERNAME := "oauth2";
     Script.SOURCE_GIT_TOKEN := "dev-token";
     Script.DEST_GIT_USERNAME := "oauth2";
     Script.DEST_GIT_TOKEN := "prod-token" |}.

(** A shell world: the clone directory does not exist yet, the
    reference is a tag, the clock reads 1735732800, the destination
    holds [refs], and the final push ends with status [lastPush]. *)
Definition shell (refs : list (Hash * string)) (lastPush : nat) : Script.ShWorld :=
  fun _ c =>
    match c with
    | Script.test_d _ => (1, "")
    | Script.date _ => (0, "1735732800" ++ Script.LF)
    | Script.git_show_ref_verify ref =>
        if strings.HasPrefix ref "refs/tags/" then (0, "") else (1, "")
    | Script.git_rev_parse _ => (0, "5f2b1c0e9d8a7b6c5d4e3f2a1b0c9d8e7f6a5b4c" ++ Script.LF)
    | Script.git_ls_remote _ pattern => (0, Script.ls_remote_output refs pattern)
    | Script.git_push _ spec =>
        if strings.HasPrefix spec "refs/" then (lastPush, "") else (0, "")
    | _ => (0, "")
    end.

Definition withMain : list (Hash * string) :=
  [("0a1b2c3d4e5f60718293a4b5c6d7e8f901234567", "refs/heads/main")].

Definition empty : list (Hash * string) := [].

End Example.

(** * The commands around the operation

    More of the repository: what else can be observed of a run of
    [PerformGitOperation], the first sections of the script, the [clone]
    command that calls the operation, and the [fork] command with the
    functions of [k8sutil] and of the GitLab client it calls. *)

(** ** More to observe of a run *)

Definition isList (ev : Event) : bool :=
  match ev with
  | EvList _ _ _ => true
  | _ => false
  end.

(** The local reference whose commit is pushed under another tag name. *)
Definition localReferenceName (opts : GitOperationOptions) (rt : RefType)
  : plumbing.ReferenceName :=
  match rt with
  | RefTypeTag => plumbing.NewTagReferenceName (FromRef opts)
  | _ => "refs/remotes/origin/" ++ FromRef opts
  end.

(** The credentials and the address of a call: a listing is made of the
    source with the source's credentials or of the destination with the
    destination's, the clone is made of the source with the source's
    credentials, the remote is created for the destination and the push is
    made to that remote with the destination's credentials. *)
Definition sided (opts : GitOperationOptions) (ev : Event) : Prop :=
  match ev with
  | EvList url o _ =>
      (url = FromRepoURL opts /\ lo_Auth o = authOf (FromAuth opts)) \/
      (url = ToRepoURL opts /\ lo_Auth o = authOf (ToAuth opts))
  | EvPlainClone _ o _ => co_URL o = FromRepoURL opts /\ co_Auth o = authOf (FromAuth opts)
  | EvCreateRemote c _ => rc_Name c = "target" /\ rc_URLs c = [ToRepoURL opts]
  | EvRemote name _ => name = "target"
  | EvPush o _ => po_RemoteName o = "target" /\ po_Auth o = authOf (ToAuth opts)
  | _ => True
  end.

(** ** More concrete runs

    A world given by its answer to each kind of call.  The listing is the
    source's until a push has been made and the destination's after it. *)

Module Scenario.

Definition refused : error := mkError "dial tcp 10.0.0.7:443: connect: connection refused" [].

Definition commit : Hash := "5f2b1c0e9d8a7b6c5d4e3f2a1b0c9d8e7f6a5b4c".

Definition world
    (source dest : result (list plumbing.ReferenceName))
    (clone open create remote : option error)
    (reference : plumbing.ReferenceName -> result Hash)
    (push : option error) : World :=
  {| w_List := fun h _ _ => if existsb isPush h then dest else source;
     w_PlainClone := fun _ _ _ => clone;
     w_PlainOpen := fun _ _ => open;
     w_CreateRemote := fun _ _ => create;
     w_Remote := fun _ _ => remote;
     w_Reference := fun _ name => reference name;
     w_Push := fun _ _ => push |}.

(** A local repository that holds the tags of the clone and no
    remote-tracking branch. *)
Definition tagsOnly (name : plumbing.ReferenceName) : result Hash :=
  if plumbing.IsTag name then Ok commit
  else Err (mkError "reference not found" []).

Definition found (_ : plumbing.ReferenceName) : result Hash := Ok commit.

Definition notFound (_ : plumbing.ReferenceName) : result Hash :=
  Err (mkError "reference not found" []).

(** The source cannot be reached. *)
Definition sourceDown : World :=
  world (Err refused) (Ok Example.destRefs) None None None None found None.

(** The clone is refused. *)
Definition cloneRefused : World :=
  world (Ok Example.sourceRefs) (Ok Example.destRefs) (Some refused) None None None found None.

(** The working directory holds a repository that cannot be opened. *)
Definition brokenRepository : World :=
  world (Ok Example.sourceRefs) (Ok Example.destRefs)
    (Some (sentinel ErrRepositoryAlreadyExists)) (Some (mkError "repository does not exist" []))
    None None found None.

(** The repository already has a remote named [target]. *)
Definition remoteExists : World :=
  world (Ok Example.sourceRefs) (Ok Example.destRefs) None None
    (Some (sentinel ErrRemoteExists)) None found None.

(** The clone of a tag: no remote-tracking branch. *)
Definition tagClone : World :=
  world (Ok Example.sourceRefs) (Ok Example.destRefs) None None None None tagsOnly None.

(** A repository in which no reference resolves. *)
Definition noReference : World :=
  world (Ok Example.sourceRefs) (Ok Example.destRefs) None None None None notFound None.

(** The push is refused. *)
Definition pushRefused : World :=
  world (Ok Example.sourceRefs) (Ok Example.destRefs) None None None None found (Some refused).

(** Nothing to push, and the destination cannot be listed. *)
Definition destinationDown : World :=
  world (Ok Example.sourceRefs) (Err refused) None None None None found
    (Some (sentinel NoErrAlreadyUpToDate)).

End Scenario.

(** Steps 4 to 6 clone nothing and open nothing. *)
Definition afterStep3 (ev : Event) : Prop :=
  match ev with
  | EvPlainClone _ _ _ | EvPlainOpen _ _ => False
  | _ => True
  end.

(** Steps 1 to 4 look up no local reference and push nothing. *)
Definition beforeStep5 (ev : Event) : Prop :=
  match ev with
  | EvReference _ _ | EvPush _ _ => False
  | _ => True
  end.

Definition isReference (ev : Event) : bool :=
  match ev with
  | EvReference _ _ => true
  | _ => false
  end.

(** ** The shell pipeline: its variables and its command line

    The first section of the script: the defaults of the variables, from
    the environment and the clock, and the loop over the arguments. *)

Module ScriptMain.
Import Script.

(** The environment variables the script reads; [None] is an unset
    variable. *)
Record Environment : Type := {
  env_SOURCE_GIT_USERNAME : option string;
  env_SOURCE_GIT_TOKEN : option string;
  env_DEST_GIT_USERNAME : option string;
  env_DEST_GIT_TOKEN : option string
}.

(** [${X:-default}]: the default when [X] is unset or empty. *)
Definition orDefault (x : option string) (default : string) : string :=
  match x with
  | Some s => if isEmpty s then default else s
  | None => default
  end.

Definition initialise (w : ShWorld) (env : Environment) : Sh Vars :=
  '(_, out) <- sh w (date "+%Y%m%d%H%M%S") ;;
  ret {| SOURCE_REPO_URL := "";
         DEST_REPO_URL := "";
         SOURCE_REF := "";
         LOCAL_CLONE_DIR := "temp_clone_dir_" ++ chomp out;
         SOURCE_GIT_USERNAME := orDefault (env_SOURCE_GIT_USERNAME env) "oauth2";
         SOURCE_GIT_TOKEN :=
           orDefault (env_SOURCE_GIT_TOKEN env) "YOUR_SOURCE_REPO_DEFAULT_TOKEN_HERE";
         DEST_GIT_USERNAME := orDefault (env_DEST_GIT_USERNAME env) "oauth2";
         DEST_GIT_TOKEN :=
           orDefault (env_DEST_GIT_TOKEN env) "YOUR_DEST_REPO_DEFAULT_TOKEN_HERE" |}.

(** The assignment an option of the command line stands for; [None] for
    a word that is no option with a value. *)
Definition assignment (name : string) : option (string -> Vars -> Vars) :=
  if name =? "--from-repo-url" then
    Some (fun value v =>
      {| SOURCE_REPO_URL := value; DEST_REPO_URL := DEST_REPO_URL v;
         SOURCE_REF := SOURCE_REF v; LOCAL_CLONE_DIR := LOCAL_CLONE_DIR v;
         SOURCE_GIT_USERNAME := SOURCE_GIT_USERNAME v; SOURCE_GIT_TOKEN := SOURCE_GIT_TOKEN v;
         DEST_GIT_USERNAME := DEST_GIT_USERNAME v; DEST_GIT_TOKEN := DEST_GIT_TOKEN v |})
  else if name =? "--to-repo-url" then
    Some (fun value v =>
      {| SOURCE_REPO_URL := SOURCE_REPO_URL v; DEST_REPO_URL := value;
         SOURCE_REF := SOURCE_REF v; LOCAL_CLONE_DIR := LOCAL_CLONE_DIR v;
         SOURCE_GIT_USERNAME := SOURCE_GIT_USERNAME v; SOURCE_GIT_TOKEN := SOURCE_GIT_TOKEN v;
         DEST_GIT_USERNAME := DEST_GIT_USERNAME v; DEST_GIT_TOKEN := DEST_GIT_TOKEN v |})
  else if name =? "--from-ref" then
    Some (fun value v =>
      {| SOURCE_REPO_URL := SOURCE_REPO_URL v; DEST_REPO_URL := DEST_REPO_URL v;
         SOURCE_REF := value; LOCAL_CLONE_DIR := LOCAL_CLONE_DIR v;
         SOURCE_GIT_USERNAME := SOURCE_GIT_USERNAME v; SOURCE_GIT_TOKEN := SOURCE_GIT_TOKEN v;
         DEST_GIT_USERNAME := DEST_GIT_USERNAME v; DEST_GIT_TOKEN := DEST_GIT_TOKEN v |})
  else if name =? "--clone-dir" then
    Some (fun value v =>
      {| SOURCE_REPO_URL := SOURCE_REPO_URL v; DEST_REPO_URL := DEST_REPO_URL v;
         SOURCE_REF := SOURCE_REF v; LOCAL_CLONE_DIR := value;
         SOURCE_GIT_USERNAME := SOURCE_GIT_USERNAME v; SOURCE_GIT_TOKEN := SOURCE_GIT_TOKEN v;
         DEST_GIT_USERNAME := DEST_GIT_USERNAME v; DEST_GIT_TOKEN := DEST_GIT_TOKEN v |})
  else if name =? "--source-username" then
    Some (fun value v =>
      {| SOURCE_REPO_URL := SOURCE_REPO_URL v; DEST_REPO_URL := DEST_REPO_URL v;
         SOURCE_REF := SOURCE_REF v; LOCAL_CLONE_DIR := LOCAL_CLONE_DIR v;
         SOURCE_GIT_USERNAME := value; SOURCE_GIT_TOKEN := SOURCE_GIT_TOKEN v;
         DEST_GIT_USERNAME := DEST_GIT_USERNAME v; DEST_GIT_TOKEN := DEST_GIT_TOKEN v |})
  else if name =? "--source-token" then
    Some (fun value v =>
      {| SOURCE_REPO_URL := SOURCE_REPO_URL v; DEST_REPO_URL := DEST_REPO_URL v;
         SOURCE_REF := SOURCE_REF v; LOCAL_CLONE_DIR := LOCAL_CLONE_DIR v;
         SOURCE_GIT_USERNAME := SOURCE_GIT_USERNAME v; SOURCE_GIT_TOKEN := value;
         DEST_GIT_USERNAME := DEST_GIT_USERNAME v; DEST_GIT_TOKEN := DEST_GIT_TOKEN v |})
  else if name =? "--dest-username" then
    Some (fun value v =>
      {| SOURCE_REPO_URL := SOURCE_REPO_URL v; DEST_REPO_URL := DEST_REPO_URL v;
         SOURCE_REF := SOURCE_REF v; LOCAL_CLONE_DIR := LOCAL_CLONE_DIR v;
         SOURCE_GIT_USERNAME := SOURCE_GIT_USERNAME v; SOURCE_GIT_TOKEN := SOURCE_GIT_TOKEN v;
         DEST_GIT_USERNAME := value; DEST_GIT_TOKEN := DEST_GIT_TOKEN v |})
  else if name =? "--dest-token" then
    Some (fun value v =>
      {| SOURCE_REPO_URL := SOURCE_REPO_URL v; DEST_REPO_URL := DEST_REPO_URL v;
         SOURCE_REF := SOURCE_REF v; LOCAL_CLONE_DIR := LOCAL_CLONE_DIR v;
         SOURCE_GIT_USERNAME := SOURCE_GIT_USERNAME v; SOURCE_GIT_TOKEN := SOURCE_GIT_TOKEN v;
         DEST_GIT_USERNAME := DEST_GIT_USERNAME v; DEST_GIT_TOKEN := value |})
  else None.

(** The loop over the arguments.  An option takes the next word as its
    value and both are shifted away; when it is the last word its value is
    the empty expansion of the unset [$2], and the second [shift] fails
    without effect. *)
Fixpoint parseArguments (args : list string) (v : Vars) : Sh Vars :=
  match args with
  | [] => ret v
  | arg :: rest =>
      match assignment arg with
      | Some assign =>
          match rest with
          | [] => ret (assign "" v)
          | value :: rest' => parseArguments rest' (assign value v)
          end
      | None =>
          if (arg =? "-h") || (arg =? "--help") then
            emit ShowHelp ;;
            exit 0
          else
            echo ("Error: Unknown parameter '" ++ arg ++ "'") ;;
            emit ShowHelp ;;
            exit 1
      end
  end.

(** The script from its first line. *)
Definition main (w : ShWorld) (env : Environment) (args : list string) : Sh unit :=
  v <- initialise w env ;;
  v <- parseArguments args v ;;
  script w v.

(** The words of a command line made of options with their values. *)
Fixpoint words (settings : list (string * string)) : list string :=
  match settings with
  | [] => []
  | (name, value) :: rest => name :: value :: words rest
  end.

(** The assignments of such a command line, from left to right. *)
Definition assignAll (settings : list (string * string)) (v : Vars) : Vars :=
  fold_left
    (fun v setting =>
       match assignment (fst setting) with
       | Some assign => assign (snd setting) v
       | None => v
       end)
    settings v.

Definition isOption (word : string) : bool :=
  match assignment word with
  | Some _ => true
  | None => false
  end.

Definition isRun (ev : ShEvent) : bool :=
  match ev with
  | Run _ _ _ => true
  | _ => false
  end.

(** Sections 4 to 10: all that follows the pre-checks. *)
Definition afterPrecheck (w : ShWorld) (v : Vars) : Sh unit :=
  '(REF_TYPE, seconds) <- ScriptParts.cloneToRemote w v ;;
  REMOTE_TEMP <- ScriptParts.publish w v REF_TYPE seconds ;;
  cleanup w v seconds REMOTE_TEMP ;;
  exit 0.

End ScriptMain.

Module ScriptKinds.
Import Script.

Definition isShowRef (ev : ShEvent) : bool :=
  match ev with
  | Run (git_show_ref_verify _) _ _ => true
  | _ => false
  end.

(** An event that asks nothing about a local reference and pushes
    nothing. *)
Definition quiet (ev : ShEvent) : Prop :=
  isShowRef ev = false /\ ScriptTrace.pushSpecs [ev] = [] /\ ScriptTrace.deletes [ev] = [].

(** The namespace of the reference pushed in section 9. *)
Definition namespaceOf (REF_TYPE : string) : string :=
  if REF_TYPE =? "tag" then "refs/tags/" else "refs/heads/".

End ScriptKinds.

(** Runs of the script to look at. *)
Module ScriptScenario.
Import Script ScriptMain.

(** No variable of the script is set in the environment. *)
Definition environment : Environment :=
  {| env_SOURCE_GIT_USERNAME := None;
     env_SOURCE_GIT_TOKEN := None;
     env_DEST_GIT_USERNAME := None;
     env_DEST_GIT_TOKEN := None |}.

(** The variables after section 1, in that environment. *)
Definition defaults : Vars :=
  {| SOURCE_REPO_URL := "";
     DEST_REPO_URL := "";
     SOURCE_REF := "";
     LOCAL_CLONE_DIR := "temp_clone_dir_1735732800";
     SOURCE_GIT_USERNAME := "oauth2";
     SOURCE_GIT_TOKEN := "YOUR_SOURCE_REPO_DEFAULT_TOKEN_HERE";
     DEST_GIT_USERNAME := "oauth2";
     DEST_GIT_TOKEN := "YOUR_DEST_REPO_DEFAULT_TOKEN_HERE" |}.

(** The reference to clone is not given. *)
Definition withoutReference : Vars :=
  {| SOURCE_REPO_URL := "https://git.example/fy-dev/iris";
     DEST_REPO_URL := "https://git.example/fy-prod/iris";
     SOURCE_REF := "";
     LOCAL_CLONE_DIR := "temp_clone_dir_20250101120000";
     SOURCE_GIT_USERNAME := "oauth2";
     SOURCE_GIT_TOKEN := "dev-token";
     DEST_GIT_USERNAME := "oauth2";
     DEST_GIT_TOKEN := "prod-token" |}.

(** The clone directory exists already. *)
Definition existingDirectory : ShWorld :=
  fun h c =>
    match c with
    | test_d _ => (0, "")
    | _ => Example.shell [] 0 h c
    end.

End ScriptScenario.

(** ** Go's [strconv] and the [%d] verb *)

Module strconv.

(** [strconv.Itoa], and [%d] of [fmt]: an [int] in decimal. *)
Definition Itoa (i : Z) : string := DecimalString.NilZero.string_of_int (Z.to_int i).

End strconv.

Definition newline : string := String (ascii_of_nat 10) "".

(** ** Calling a function

    The body of a Go function is a program whose result is the function's
    own: a [return] in the middle ends the body, not the caller. *)

Definition call {E R R' : Type} (body : Prog E R' R') : Prog E R R' :=
  fun h =>
    match body h with
    | (h', Next r) => (h', Next r)
    | (h', Return r) => (h', Next r)
    end.

(** ** The [clone] command *)

Module clone.

(** The flags of the command, as cobra has set them. *)
Record Flags : Type := {
  fromRepoURL : string;
  fromRef : string;
  fromToken : string;
  toRepoURL : string;
  toTag : string;
  toToken : string;
  outputDir : string;
  onTagExistsBehavior : string
}.

(** What the command asks of the machine it runs on: the directory of
    temporary files, the number its fresh random source draws below a
    bound, and how the operating system joins two path elements. *)
Record Machine : Type := {
  os_TempDir : string;
  rand_Intn : Z -> Z;
  filepath_Join : string -> string -> string
}.

(** What the command does: its own log lines, the run of the Git
    operation, and what it prints on standard output. *)
Inductive CmdEvent : Type :=
| Log (msg : string)
| Git (ev : Event)
| Println (msg : string).

(** The command is a program that ends with the exit status of the
    process. *)
Definition Cmd (A : Type) : Type := Prog CmdEvent nat A.

(** [log.Fatal]: the line is logged and the process exits with status 1. *)
Definition log_Fatal {A} (msg : string) : Cmd A :=
  emit (Log msg) ;; return_ 1.

(** [pkg.PerformGitOperation(opts)], run to its end. *)
Definition pkg_PerformGitOperation (w : World) (opts : GitOperationOptions)
  : Cmd (option error) :=
  fun h =>
    let '(g, err) := run (PerformGitOperation w opts) in
    ((h ++ map Git g)%list, Next err).

(** A token makes a basic authentication of user [oauth2]; without a
    token the interface value stays nil. *)
Definition authOfToken (token : string) : GitAuthMethod :=
  if negb (token =? "") then Some {| bam_Username := "oauth2"; bam_Password := token |}
  else None.

Definition options (f : Flags) (outputDir : string) : GitOperationOptions :=
  {| FromRepoURL := fromRepoURL f;
     FromRef := fromRef f;
     FromAuth := authOfToken (fromToken f);
     ToRepoURL := toRepoURL f;
     ToTag := toTag f;
     ToAuth := authOfToken (toToken f);
     OutputDir := outputDir;
     ProgressWriter := Stdout;
     OnTagExistsBehavior := onTagExistsBehavior f |}.

Definition Run (m : Machine) (w : World) (f : Flags) : Cmd unit :=
  when (fromRepoURL f =? "") (log_Fatal "必须提供 --from-repo-url 参数。") ;;
  when (toRepoURL f =? "") (log_Fatal "必须提供 --to-repo-url 参数。") ;;
  when (fromRef f =? "") (log_Fatal "必须提供 --from-ref 参数（源分支或标签名）。") ;;
  outputDir <-
    (if outputDir f =? "" then
       let randSuffix := strconv.Itoa (rand_Intn m 100000) in
       let outputDir :=
         filepath_Join m (os_TempDir m) ("go-git-clone-push-temp-" ++ randSuffix) in
       emit (Log ("未指定 --output-dir，将使用随机临时目录: " ++ outputDir)) ;;
       ret outputDir
     else ret (outputDir f)) ;;
  err <- pkg_PerformGitOperation w (options f outputDir) ;;
  match err with
  | Some e => log_Fatal ("Git 操作失败: " ++ Error e)
  | None => emit (Println "Git 仓库克隆和推送操作成功完成！")
  end.

(** The whole run of the process: its events and its exit status. *)
Definition main (c : Cmd unit) : list CmdEvent * nat :=
  match c [] with
  | (h, Next _) => (h, 0)
  | (h, Return code) => (h, code)
  end.

(** The events of the Git operation within those of the command. *)
Fixpoint gitEvents (h : list CmdEvent) : History :=
  match h with
  | [] => []
  | Git ev :: rest => ev :: gitEvents rest
  | _ :: rest => gitEvents rest
  end.

(** The credentials a token stands for on the wire. *)
Definition credentials (token : string) : option BasicAuth :=
  if token =? "" then None else Some {| Username := "oauth2"; Password := token |}.

(** A call of the Git operation that carries the credentials of the
    side it speaks to. *)
Definition authenticated (f : Flags) (ev : Event) : Prop :=
  match ev with
  | EvList url o _ =>
      (url = fromRepoURL f /\ lo_Auth o = credentials (fromToken f)) \/
      (url = toRepoURL f /\ lo_Auth o = credentials (toToken f))
  | EvPlainClone _ o _ => co_URL o = fromRepoURL f /\ co_Auth o = credentials (fromToken f)
  | EvPush o _ => po_Auth o = credentials (toToken f)
  | _ => True
  end.

End clone.

(** A machine and flags to run the command with. *)
Module CloneExample.
Import clone.

Definition machine : Machine :=
  {| os_TempDir := "/tmp";
     rand_Intn := fun _ => 4711%Z;
     filepath_Join := fun dir name => dir ++ "/" ++ name |}.

Definition flags (fromRef outputDir : string) : Flags :=
  {| fromRepoURL := "https://git.example/fy-dev/iris";
     fromRef := fromRef;
     fromToken := "dev-token";
     toRepoURL := "https://git.example/fy-prod/iris";
     toTag := "";
     toToken := "prod-token";
     outputDir := outputDir;
     onTagExistsBehavior := "error" |}.

End CloneExample.

(** ** The [fork] command: GitLab and Kubernetes

    The GitLab client, the Kubernetes client and the functions of
    [k8sutil] and of the [fork] command that use them.  Log lines are
    recorded without the newline that ends them. *)

Module gitlab.

Record ForkParent : Type := {
  fp_ID : Z;
  fp_NameWithNamespace : string
}.

Record Project : Type := {
  ID : Z;
  Name : string;
  NameWithNamespace : string;
  PathWithNamespace : string;
  WebURL : string;
  ForkedFromProject : option ForkParent
}.

Record Response : Type := {
  StatusCode : Z;
  NextPage : Z
}.

Record ListGroupProjectsOptions : Type := {
  Page : Z;
  PerPage : Z;
  IncludeSubGroups : option bool
}.

(** A client is what it was made of. *)
Record Client : Type := {
  token : string;
  baseURL : string;
  insecureSkipVerify : bool
}.

(** [Projects.ForkProject] answers a project and a response, or an
    error with or without a response. *)
Inductive ForkResult : Type :=
| Forked (newProject : Project) (resp : Response)
| ForkFailed (resp : option Response) (err : error).

End gitlab.

Module http.

Definition StatusOK : Z := 200.
Definition StatusCreated : Z := 201.
Definition StatusForbidden : Z := 403.
Definition StatusNotFound : Z := 404.
Definition StatusConflict : Z := 409.

End http.

Module k8s.

(** A REST configuration, named by where it was loaded from. *)
Definition Config := string.
Bind Scope string_scope with Config.

(** The error of a [Get]: a [*errors.StatusError] with its code, or any
    other error. *)
Inductive GetError : Type :=
| StatusError (code : Z) (message : string)
| OtherError (e : error).

Definition asError (e : GetError) : error :=
  match e with
  | StatusError _ message => mkError message []
  | OtherError e => e
  end.

(** The type assertion to a status error and the test of its code: a
    status error whose code is 404. *)
Definition IsNotFound (e : GetError) : bool :=
  match e with
  | StatusError code _ => (code =? http.StatusNotFound)%Z
  | OtherError _ => false
  end.

(** A secret: its [Data], from keys to bytes. *)
Record Secret : Type := { Data : string -> option string }.

End k8s.

Module fork.

Inductive ForkEvent : Type :=
| Log (msg : string)
| Printf (msg : string)
| InClusterConfig (res : result k8s.Config)
| ClientConfig (res : result k8s.Config)
| NewForConfig (config : k8s.Config) (res : option error)
| NamespacesGet (config : k8s.Config) (namespace : string) (res : option k8s.GetError)
| SecretsGet (config : k8s.Config) (namespace name : string) (res : result k8s.Secret)
| NewClient (client : gitlab.Client) (res : option error)
| ListGroupProjects (client : gitlab.Client) (gid : string)
    (o : gitlab.ListGroupProjectsOptions)
    (res : result (list gitlab.Project * gitlab.Response))
| ForkProject (client : gitlab.Client) (pid : Z) (namespace : string)
    (res : gitlab.ForkResult).

Definition Trace := list ForkEvent.
Bind Scope list_scope with Trace.

(** The cluster and the GitLab server answer each call from the trace
    of the run so far. *)
Record Outside : Type := {
  o_InClusterConfig : Trace -> result k8s.Config;
  o_ClientConfig : Trace -> result k8s.Config;
  o_NewForConfig : Trace -> k8s.Config -> option error;
  o_NamespacesGet : Trace -> k8s.Config -> string -> option k8s.GetError;
  o_SecretsGet : Trace -> k8s.Config -> string -> string -> result k8s.Secret;
  o_NewClient : Trace -> gitlab.Client -> option error;
  o_ListGroupProjects :
    Trace -> gitlab.Client -> string -> gitlab.ListGroupProjectsOptions ->
    result (list gitlab.Project * gitlab.Response);
  o_ForkProject : Trace -> gitlab.Client -> Z -> string -> gitlab.ForkResult
}.

(** A function that returns [R]. *)
Definition Fn (R : Type) : Type := Prog ForkEvent R R.

Definition log_Printf {R} (msg : string) : Prog ForkEvent R unit := emit (Log msg).

Section Functions.
Variable o : Outside.

(** *** [k8sutil.GetKubeConfig] *)

(** The configuration or the error: one of the two values the function
    returns is nil. *)
Definition GetKubeConfig : Fn (result k8s.Config) :=
  log_Printf "ℹ️ 尝试获取 Kubernetes 配置..." ;;
  r <- ask (o_InClusterConfig o) InClusterConfig ;;
  match r with
  | Ok config =>
      log_Printf "✅ 成功加载集群内部配置。" ;;
      ret (Ok config)
  | Err err =>
      log_Printf ("ℹ️ 无法加载集群内部配置 (" ++ Error err
                  ++ ")，尝试从默认 kubeconfig 路径加载...") ;;
      r <- ask (o_ClientConfig o) ClientConfig ;;
      match r with
      | Err err =>
          ret (Err (fmt.Errorf_w
                 "❌ 无法加载 Kubernetes 配置 (既不在集群内，也未从默认 ~/.kube/config 路径加载): "
                 (Some err)))
      | Ok config =>
          log_Printf "✅ 成功从默认 kubeconfig 或默认路径加载配置。" ;;
          ret (Ok config)
      end
  end.

(** *** [k8sutil.CheckK8sNamespaceExists] *)

Definition CheckK8sNamespaceExists (config : k8s.Config) (namespace : string)
  : Fn (bool * option error) :=
  err <- ask (fun h => o_NewForConfig o h config) (NewForConfig config) ;;
  when (notNil err)
    (return_ (false, Some (fmt.Errorf_w "创建 Kubernetes 客户端失败: " err))) ;;
  log_Printf ("ℹ️ 正在检查 Kubernetes 命名空间 '" ++ namespace ++ "' 是否存在...") ;;
  err <- ask (fun h => o_NamespacesGet o h config namespace) (NamespacesGet config namespace) ;;
  match err with
  | Some e =>
      when (k8s.IsNotFound e)
        (log_Printf ("ℹ️ Kubernetes 命名空间 '" ++ namespace ++ "' 不存在。") ;;
         return_ (false, None)) ;;
      ret (false,
           Some (fmt.Errorf_w ("检查 Kubernetes 命名空间 '" ++ namespace ++ "' 失败: ")
                   (Some (k8s.asError e))))
  | None =>
      log_Printf ("✅ Kubernetes 命名空间 '" ++ namespace ++ "' 已存在。") ;;
      ret (true, None)
  end.

(** *** [k8sutil.GetSecretValue] *)

Definition GetSecretValue (kubeConfig : k8s.Config) (namespace secretName key : string)
  : Fn (string * option error) :=
  err <- ask (fun h => o_NewForConfig o h kubeConfig) (NewForConfig kubeConfig) ;;
  when (notNil err)
    (return_ ("", Some (fmt.Errorf_w "创建 Kubernetes 客户端失败: " err))) ;;
  log_Printf ("ℹ️ 正在从 Kubernetes Secret 中获取令牌。命名空间: " ++ namespace
              ++ ", Secret名称: " ++ secretName ++ ", Key: " ++ key) ;;
  r <- ask (fun h => o_SecretsGet o h kubeConfig namespace secretName)
         (SecretsGet kubeConfig namespace secretName) ;;
  match r with
  | Err err =>
      ret ("", Some (fmt.Errorf_w
             ("无法在命名空间 '" ++ namespace ++ "' 中获取 Secret '" ++ secretName ++ "': ")
             (Some err)))
  | Ok secret =>
      match k8s.Data secret key with
      | None =>
          ret ("", Some (fmt.Errorf
                 ("Secret '" ++ secretName ++ "' 中不存在 key '" ++ key ++ "'")))
      | Some tokenBytes =>
          log_Printf ("✅ 成功从 Kubernetes Secret 获取令牌。命名空间: " ++ namespace
                      ++ ", Secret名称: " ++ secretName) ;;
          ret (tokenBytes, None)
      end
  end.

(** *** [newGitLabClient] *)

(** The client or the error: one of the two values the function returns
    is nil. *)
Definition newGitLabClient (token baseURL : string) (insecureSkipVerify : bool)
  : Fn (result gitlab.Client) :=
  let client :=
    {| gitlab.token := token;
       gitlab.baseURL := baseURL;
       gitlab.insecureSkipVerify := insecureSkipVerify |} in
  err <- ask (fun h => o_NewClient o h client) (NewClient client) ;;
  match err with
  | Some _ => ret (Err (fmt.Errorf_w "创建 GitLab 客户端失败: " err))
  | None => ret (Ok client)
  end.

(** *** [findProjectInGroup]

    The function loops over the pages without a bound; here it loops
    over at most [fuel] pages, and its result is [None] when that was
    not enough. *)

Definition Found : Type := option (Z * option error).

(** The loop over the projects of a page: the first project of that
    name ends the function. *)
Fixpoint scan (groupID projectName : string) (projects : list gitlab.Project)
  : Prog ForkEvent Found unit :=
  match projects with
  | [] => ret tt
  | p :: rest =>
      if gitlab.Name p =? projectName then
        emit (Printf ("✅ 找到源项目: " ++ gitlab.NameWithNamespace p ++ " (ID: "
                      ++ strconv.Itoa (gitlab.ID p) ++ ") 在组 '" ++ groupID ++ "'"
                      ++ newline)) ;;
        return_ (Some (gitlab.ID p, None))
      else scan groupID projectName rest
  end.

(** The loop over the pages; it ends by a [return], by its [break], or
    for lack of fuel. *)
Fixpoint pages (fuel : nat) (client : gitlab.Client) (groupID projectName : string)
    (listOptions : gitlab.ListGroupProjectsOptions) : Prog ForkEvent Found unit :=
  match fuel with
  | O => return_ None
  | S fuel' =>
      r <- ask (fun h => o_ListGroupProjects o h client groupID listOptions)
             (ListGroupProjects client groupID listOptions) ;;
      match r with
      | Err err =>
          return_ (Some (-1, Some (fmt.Errorf_w ("列出组 '" ++ groupID ++ "' 的项目失败: ")
                                     (Some err))))%Z
      | Ok (projects, resp) =>
          when (negb (gitlab.StatusCode resp =? http.StatusOK)%Z)
            (return_ (Some (-1, Some (fmt.Errorf
               ("列出组 '" ++ groupID ++ "' 的项目失败，HTTP 状态码: "
                ++ strconv.Itoa (gitlab.StatusCode resp)))))%Z) ;;
          scan groupID projectName projects ;;
          if (gitlab.Page listOptions =? 0)%Z || (gitlab.NextPage resp =? 0)%Z then
            ret tt
          else
            pages fuel' client groupID projectName
              {| gitlab.Page := gitlab.NextPage resp;
                 gitlab.PerPage := gitlab.PerPage listOptions;
                 gitlab.IncludeSubGroups := gitlab.IncludeSubGroups listOptions |}
      end
  end.

Definition findProjectInGroup (fuel : nat) (client : gitlab.Client)
    (groupID projectName : string) : Fn Found :=
  pages fuel client groupID projectName
    {| gitlab.Page := 0;
       gitlab.PerPage := 100;
       gitlab.IncludeSubGroups := Some true |} ;;
  ret (Some (-1, Some (fmt.Errorf
         ("在组 '" ++ groupID ++ "' 中未找到项目 '" ++ projectName ++ "'")))%Z).

(** *** The command *)

Definition GitlabSecretName : string := "aml-image-builder-secret".
Definition GitlabTokenKey : string := "MODEL_REPO_GIT_TOKEN".
Definition amlModelsGroup : string := "amlmodels".

Definition getModelGroupByNs (ns : string) : string := ns ++ "/" ++ amlModelsGroup.

(** The flags of the command and of the root command. *)
Record Flags : Type := {
  sourceGroup : string;
  sourceProject : string;
  targetGroup : string;
  baseURL : string;
  insecureSkip : bool
}.

(** How the process ends: with an exit status, or not within the fuel
    given to its loops. *)
Inductive Outcome : Type :=
| Exit (status : nat)
| OutOfFuel.

Definition Cmd (A : Type) : Type := Prog ForkEvent Outcome A.

(** [log.Fatal]: the line is logged and the process exits with status 1. *)
Definition log_Fatal {A} (msg : string) : Cmd A :=
  emit (Log msg) ;; return_ (Exit 1).

(** The command is one sequence of numbered steps; each step is a
    definition here and [Run] runs them in order.  A [log.Fatal] inside a
    step ends the process. *)

(** 1. the arguments, and the configuration of the cluster *)
Definition getConfiguration (f : Flags) : Cmd k8s.Config :=
  when ((sourceGroup f =? "") || (sourceProject f =? "") || (targetGroup f =? "")
        || (baseURL f =? ""))
    (log_Fatal "❌ 错误: 缺少必要的命令行参数。请使用 --help 查看用法。") ;;
  log_Printf "ℹ️ 正在获取 Kubernetes 配置..." ;;
  r <- call GetKubeConfig ;;
  match r with
  | Err e =>
      log_Fatal ("❌ 无法获取 Kubernetes 配置，无法检查命名空间或获取 Secret。错误: " ++ Error e)
  | Ok kubeRestConfig => ret kubeRestConfig
  end.

(** 2. the namespace of the source group *)
Definition checkSourceNamespace (kubeRestConfig : k8s.Config) (f : Flags) : Cmd unit :=
  log_Printf ("ℹ️ 正在检查源组 (Kubernetes 命名空间) '" ++ sourceGroup f ++ "' 是否存在...") ;;
  '(sourceNsExists, err) <- call (CheckK8sNamespaceExists kubeRestConfig (sourceGroup f)) ;;
  match err with
  | Some e =>
      log_Fatal ("❌ 检查源组命名空间失败。源组: " ++ sourceGroup f ++ ", 错误: " ++ Error e)
  | None => ret tt
  end ;;
  when (negb sourceNsExists)
    (log_Fatal ("❌ 源组对应的 Kubernetes 命名空间 '" ++ sourceGroup f
                ++ "' 不存在。请确认该命名空间已被纳管。")).

(** 3. the namespace of the target group *)
Definition checkTargetNamespace (kubeRestConfig : k8s.Config) (f : Flags) : Cmd unit :=
  log_Printf ("ℹ️ 正在检查目标组 (Kubernetes 命名空间) '" ++ targetGroup f ++ "' 是否存在...") ;;
  '(targetNsExists, err) <- call (CheckK8sNamespaceExists kubeRestConfig (targetGroup f)) ;;
  match err with
  | Some e =>
      log_Fatal ("❌ 检查目标组命名空间失败。目标组: " ++ targetGroup f ++ ", 错误: " ++ Error e)
  | None => ret tt
  end ;;
  when (negb targetNsExists)
    (log_Fatal ("❌ 目标组对应的 Kubernetes 命名空间 '" ++ targetGroup f
                ++ "' 不存在。请确认该命名空间已被纳管。")).

(** 4. the development token, from the secret of the source namespace *)
Definition getDevToken (kubeRestConfig : k8s.Config) (f : Flags) : Cmd string :=
  log_Printf ("ℹ️ 正在从 Kubernetes Secret 获取开发令牌...命名空间: " ++ sourceGroup f
              ++ ", Secret名称: " ++ GitlabSecretName) ;;
  '(devToken, err) <-
    call (GetSecretValue kubeRestConfig (sourceGroup f) GitlabSecretName GitlabTokenKey) ;;
  match err with
  | Some e =>
      log_Fatal ("❌ 无法获取开发令牌。请确认输入的 source-group (" ++ sourceGroup f
                 ++ ") 对应的 Secret 存在且可访问。错误: " ++ Error e)
  | None => ret tt
  end ;;
  log_Printf "✅ 成功获取开发令牌。" ;;
  ret devToken.

(** 5. the client that reads the source project *)
Definition newDevClient (f : Flags) (devToken : string) : Cmd gitlab.Client :=
  log_Printf ("ℹ️ 正在使用开发令牌创建 GitLab 客户端...Base URL: " ++ baseURL f) ;;
  r <- call (newGitLabClient devToken (baseURL f) (insecureSkip f)) ;;
  match r with
  | Err e => log_Fatal ("❌ 创建 GitLab 开发客户端失败: " ++ Error e)
  | Ok devGit => ret devGit
  end.

(** 6. the source project *)
Definition findSourceProject (fuel : nat) (f : Flags) (devGit : gitlab.Client) : Cmd Z :=
  log_Printf ("ℹ️ 正在查找源项目 '" ++ sourceProject f ++ "' 是否存在于 GitLab 组 '"
              ++ sourceGroup f ++ "'...") ;;
  found <- call (findProjectInGroup fuel devGit (sourceGroup f) (sourceProject f)) ;;
  '(sourceProjectID, err) <-
    match found with
    | Some r => ret r
    | None => return_ OutOfFuel
    end ;;
  match err with
  | Some e =>
      log_Fatal ("❌ 源项目在 GitLab 组 '" ++ sourceGroup f
                 ++ "' 中未找到或查询失败。请确认项目名称和权限。错误: " ++ Error e)
  | None => ret tt
  end ;;
  log_Printf ("✅ 源项目 '" ++ sourceProject f ++ "' 已在 GitLab 组 '" ++ sourceGroup f
              ++ "' 中找到。ID: " ++ strconv.Itoa sourceProjectID) ;;
  ret sourceProjectID.

(** 7. the production token, from the secret of the target namespace *)
Definition getProdToken (kubeRestConfig : k8s.Config) (f : Flags) : Cmd string :=
  log_Printf ("ℹ️ 正在从 Kubernetes Secret 获取生产令牌...命名空间: " ++ targetGroup f
              ++ ", Secret名称: " ++ GitlabSecretName) ;;
  '(prodToken, err) <-
    call (GetSecretValue kubeRestConfig (targetGroup f) GitlabSecretName GitlabTokenKey) ;;
  match err with
  | Some e =>
      log_Fatal ("❌ 无法获取生产令牌。请确认输入的 target-group (" ++ targetGroup f
                 ++ ") 对应的 Secret 存在且可访问。错误: " ++ Error e)
  | None => ret tt
  end ;;
  log_Printf "✅ 成功获取生产令牌。" ;;
  ret prodToken.

(** 8. the client that looks into the target group *)
Definition newProdClient (f : Flags) (prodToken : string) : Cmd gitlab.Client :=
  log_Printf ("ℹ️ 正在使用生产令牌创建 GitLab 客户端...Base URL: " ++ baseURL f) ;;
  r <- call (newGitLabClient prodToken (baseURL f) (insecureSkip f)) ;;
  match r with
  | Err e => log_Fatal ("❌ 创建 GitLab 生产客户端失败: " ++ Error e)
  | Ok prodGit => ret prodGit
  end.

(** 9. no project of that name in the target group *)
Definition checkTargetProject (fuel : nat) (f : Flags) (prodGit : gitlab.Client) : Cmd unit :=
  log_Printf ("ℹ️ 正在检查目标组 '" ++ targetGroup f ++ "' 中是否已存在同名项目 '"
              ++ sourceProject f ++ "'...") ;;
  found <- call (findProjectInGroup fuel prodGit (getModelGroupByNs (targetGroup f))
                   (sourceProject f)) ;;
  '(existingProjectID, err) <-
    match found with
    | Some r => ret r
    | None => return_ OutOfFuel
    end ;;
  match err with
  | None =>
      log_Fatal ("❌ 目标组 '" ++ targetGroup f ++ "' 中已存在同名项目 '" ++ sourceProject f
                 ++ "' (ID: " ++ strconv.Itoa existingProjectID
                 ++ ")。请手动处理或更改目标项目名称。")
  | Some e =>
      when (negb (strings.Contains (Error e) "未找到项目"))
        (log_Fatal ("❌ 检查目标组是否存在同名项目失败。目标组: " ++ targetGroup f
                    ++ ", 项目: " ++ sourceProject f ++ ", 错误: " ++ Error e))
  end ;;
  log_Printf ("✅ 目标组 '" ++ targetGroup f ++ "' 中未发现同名项目 '" ++ sourceProject f
              ++ "'，可以继续派生。").

(** 10. the fork *)
Definition forkProject (kubeRestConfig : k8s.Config) (f : Flags) (sourceProjectID : Z)
  : Cmd gitlab.Project :=
  '(adminToken, err) <-
    call (GetSecretValue kubeRestConfig "kubeflow" GitlabSecretName GitlabTokenKey) ;;
  match err with
  | Some e =>
      log_Fatal ("❌ 无法获取生产令牌。请确认输入的 target-group (" ++ "kubeflow"
                 ++ ") 对应的 Secret 存在且可访问。错误: " ++ Error e)
  | None => ret tt
  end ;;
  log_Printf "✅ 成功获取生产令牌。" ;;
  r <- call (newGitLabClient adminToken (baseURL f) (insecureSkip f)) ;;
  admindGit <-
    match r with
    | Err e => log_Fatal ("❌ 创建 GitLab 生产客户端失败: " ++ Error e)
    | Ok client => ret client
    end ;;
  log_Printf ("🚀 正在将项目 '" ++ sourceProject f ++ "' (ID: "
              ++ strconv.Itoa sourceProjectID ++ ") 派生到目标组 '" ++ targetGroup f
              ++ "'...") ;;
  r <- ask (fun h => o_ForkProject o h admindGit sourceProjectID
                       (getModelGroupByNs (targetGroup f)))
         (ForkProject admindGit sourceProjectID (getModelGroupByNs (targetGroup f))) ;;
  match r with
  | gitlab.ForkFailed resp err =>
      match resp with
      | Some resp =>
          log_Printf ("派生项目请求返回错误状态码。源项目: " ++ sourceProject f
                      ++ ", 目标组: " ++ targetGroup f ++ ", HTTP状态码: "
                      ++ strconv.Itoa (gitlab.StatusCode resp) ++ ", 原始错误: "
                      ++ Error err) ;;
          if (gitlab.StatusCode resp =? http.StatusNotFound)%Z then
            log_Fatal "❌ 派生项目失败: 可能原因 - 目标组不存在，或源项目不存在。"
          else if (gitlab.StatusCode resp =? http.StatusForbidden)%Z then
            log_Fatal "❌ 派生项目失败: 生产令牌在目标组没有足够的派生权限。"
          else if (gitlab.StatusCode resp =? http.StatusConflict)%Z then
            log_Fatal "❌ 派生项目失败: 目标组中已存在同名项目。"
          else
            log_Fatal ("❌ 派生项目失败: " ++ Error err)
      | None => log_Fatal ("❌ 派生项目请求失败: " ++ Error err)
      end
  | gitlab.Forked newProject resp =>
      when (negb (gitlab.StatusCode resp =? http.StatusCreated)%Z)
        (log_Fatal ("❌ 派生项目失败，HTTP 状态码不是 201 Created，实际状态码: "
                    ++ strconv.Itoa (gitlab.StatusCode resp))) ;;
      ret newProject
  end.

(** 11. the new project *)
Definition printProject (newProject : gitlab.Project) : Cmd unit :=
  log_Printf (newline ++ "🎉 项目派生成功！新项目信息:") ;;
  log_Printf ("  ID: " ++ strconv.Itoa (gitlab.ID newProject)) ;;
  log_Printf ("  名称: " ++ gitlab.Name newProject) ;;
  log_Printf ("  带命名空间的全名: " ++ gitlab.PathWithNamespace newProject) ;;
  log_Printf ("  Web URL: " ++ gitlab.WebURL newProject) ;;
  match gitlab.ForkedFromProject newProject with
  | Some parent =>
      log_Printf ("  派生自: " ++ gitlab.fp_NameWithNamespace parent ++ " (ID: "
                  ++ strconv.Itoa (gitlab.fp_ID parent) ++ ")")
  | None => log_Printf "  派生自: (信息不可用或非派生项目)"
  end ;;
  log_Printf (newline ++ "✅ 操作完成。").

Definition Run (fuel : nat) (f : Flags) : Cmd unit :=
  kubeRestConfig <- getConfiguration f ;;
  checkSourceNamespace kubeRestConfig f ;;
  checkTargetNamespace kubeRestConfig f ;;
  devToken <- getDevToken kubeRestConfig f ;;
  devGit <- newDevClient f devToken ;;
  sourceProjectID <- findSourceProject fuel f devGit ;;
  prodToken <- getProdToken kubeRestConfig f ;;
  prodGit <- newProdClient f prodToken ;;
  checkTargetProject fuel f prodGit ;;
  newProject <- forkProject kubeRestConfig f sourceProjectID ;;
  printProject newProject.

(** The whole run of the process. *)
Definition main (c : Cmd unit) : Trace * Outcome :=
  match c [] with
  | (h, Next _) => (h, Exit 0)
  | (h, Return r) => (h, r)
  end.

End Functions.

(** The options of the first listing of a group. *)
Definition firstPage : gitlab.ListGroupProjectsOptions :=
  {| gitlab.Page := 0; gitlab.PerPage := 100; gitlab.IncludeSubGroups := Some true |}.

(** The client the command makes of a token. *)
Definition clientWith (token : string) (f : Flags) : gitlab.Client :=
  {| gitlab.token := token;
     gitlab.baseURL := baseURL f;
     gitlab.insecureSkipVerify := insecureSkip f |}.

(** The kinds of events. *)
Definition isOutput (ev : ForkEvent) : bool :=
  match ev with
  | Log _ | Printf _ => true
  | _ => false
  end.

(** The answers to the listing of the target group after which the
    command goes on to fork: a first page that holds no project of that
    name, or a failure whose message holds the words the command looks
    for. *)
Definition passesPrecheck (f : Flags)
    (res : result (list gitlab.Project * gitlab.Response)) : Prop :=
  match res with
  | Ok (projects, resp) =>
      if (gitlab.StatusCode resp =? 200)%Z then
        find (fun p => gitlab.Name p =? sourceProject f) projects = None
      else
        strings.Contains
          ("列出组 '" ++ getModelGroupByNs (targetGroup f) ++ "' 的项目失败，HTTP 状态码: "
           ++ strconv.Itoa (gitlab.StatusCode resp)) "未找到项目" = true
  | Err e =>
      strings.Contains
        (Error (fmt.Errorf_w
           ("列出组 '" ++ getModelGroupByNs (targetGroup f) ++ "' 的项目失败: ") (Some e)))
        "未找到项目" = true
  end.

(** The calls: every event that is no output. *)
Definition isCall (ev : ForkEvent) : bool := negb (isOutput ev).

(** A [Get] of a namespace that failed. *)
Definition isFailedGet (ev : ForkEvent) : bool :=
  match ev with
  | NamespacesGet _ _ (Some _) => true
  | _ => false
  end.

Definition isNamespacesGet (ev : ForkEvent) : bool :=
  match ev with
  | NamespacesGet _ _ _ => true
  | _ => false
  end.

Definition isSecretsGet (ev : ForkEvent) : bool :=
  match ev with
  | SecretsGet _ _ _ _ => true
  | _ => false
  end.

Definition isGitLab (ev : ForkEvent) : bool :=
  match ev with
  | NewClient _ _ | ListGroupProjects _ _ _ _ | ForkProject _ _ _ _ => true
  | _ => false
  end.

Definition isListGroupProjects (ev : ForkEvent) : bool :=
  match ev with
  | ListGroupProjects _ _ _ _ => true
  | _ => false
  end.

Definition isForkProject (ev : ForkEvent) : bool :=
  match ev with
  | ForkProject _ _ _ _ => true
  | _ => false
  end.

End fork.

(** A cluster and a GitLab server to run the command against. *)
Module ForkExample.
Import fork.

Definition flags : Flags :=
  {| sourceGroup := "fy-dev";
     sourceProject := "iris";
     targetGroup := "fy-prod";
     baseURL := "https://gitlab.example";
     insecureSkip := false |}.

Definition iris : gitlab.Project :=
  {| gitlab.ID := 7;
     gitlab.Name := "iris";
     gitlab.NameWithNamespace := "fy-dev / iris";
     gitlab.PathWithNamespace := "fy-dev/iris";
     gitlab.WebURL := "https://gitlab.example/fy-dev/iris";
     gitlab.ForkedFromProject := None |}.

Definition forked : gitlab.Project :=
  {| gitlab.ID := 12;
     gitlab.Name := "iris";
     gitlab.NameWithNamespace := "fy-prod / amlmodels / iris";
     gitlab.PathWithNamespace := "fy-prod/amlmodels/iris";
     gitlab.WebURL := "https://gitlab.example/fy-prod/amlmodels/iris";
     gitlab.ForkedFromProject :=
       Some {| gitlab.fp_ID := 7; gitlab.fp_NameWithNamespace := "fy-dev / iris" |} |}.

Definition page (status : Z) (projects : list gitlab.Project)
  : result (list gitlab.Project * gitlab.Response) :=
  Ok (projects, {| gitlab.StatusCode := status; gitlab.NextPage := 0 |}).

(** Every namespace has the secret, with a token of its own. *)
Definition secret (namespace : string) : k8s.Secret :=
  {| k8s.Data := fun key =>
       if key =? "MODEL_REPO_GIT_TOKEN" then Some ("token-of-" ++ namespace) else None |}.

Definition outside
    (inCluster : result k8s.Config)
    (namespaces : string -> option k8s.GetError)
    (target : result (list gitlab.Project * gitlab.Response))
    (answer : gitlab.ForkResult) : Outside :=
  {| o_InClusterConfig := fun _ => inCluster;
     o_ClientConfig := fun _ => Ok "~/.kube/config";
     o_NewForConfig := fun _ _ => None;
     o_NamespacesGet := fun _ _ namespace => namespaces namespace;
     o_SecretsGet := fun _ _ namespace _ => Ok (secret namespace);
     o_NewClient := fun _ _ => None;
     o_ListGroupProjects := fun _ _ gid _ =>
       if gid =? "fy-dev" then page 200 [iris] else target;
     o_ForkProject := fun _ _ _ _ => answer |}.

Definition created : gitlab.Response := {| gitlab.StatusCode := 201; gitlab.NextPage := 0 |}.

(** Inside the cluster, the project is forked. *)
Definition cluster : Outside :=
  outside (Ok "in-cluster") (fun _ => None) (page 200 []) (gitlab.Forked forked created).

(** The namespace of the target group is missing. *)
Definition missingNamespace : Outside :=
  outside (Ok "in-cluster")
    (fun namespace =>
       if namespace =? "fy-prod"
       then Some (k8s.StatusError 404 "namespaces fy-prod not found")
       else None)
    (page 200 []) (gitlab.Forked forked created).

(** The target group holds a project of that name already. *)
Definition taken : Outside :=
  outside (Ok "in-cluster") (fun _ => None) (page 200 [forked])
    (gitlab.Forked forked created).

(** A group of two pages; the project is on the second. *)
Definition secondPage : Outside :=
  {| o_InClusterConfig := fun _ => Ok "in-cluster";
     o_ClientConfig := fun _ => Ok "~/.kube/config";
     o_NewForConfig := fun _ _ => None;
     o_NamespacesGet := fun _ _ _ => None;
     o_SecretsGet := fun _ _ namespace _ => Ok (secret namespace);
     o_NewClient := fun _ _ => None;
     o_ListGroupProjects := fun _ _ _ listOptions =>
       if (gitlab.Page listOptions =? 2)%Z
       then Ok ([iris], {| gitlab.StatusCode := 200; gitlab.NextPage := 0 |})
       else Ok ([forked], {| gitlab.StatusCode := 200; gitlab.NextPage := 2 |});
     o_ForkProject := fun _ _ _ _ => gitlab.Forked forked created |}.

End ForkExample.

(** * Proofs *)

Unset Implicit Arguments.
Local Open Scope list_scope.

(** ** Programs *)

Section ProgFacts.
Context {E R : Type}.

Lemma bind_inv {A B} (m : Prog E R A) (k : A -> Prog E R B) (h h' : list E) (s : Step R B) :
  bind m k h = (h', s) ->
  (exists r, m h = (h', Return r) /\ s = Return r) \/
  (exists a h1, m h = (h1, Next a) /\ k a h1 = (h', s)).
Proof.
  unfold bind. destruct (m h) as [h1 [a|r]]; intros H.
  - right. now exists a, h1.
  - left. exists r. now injection H as <- <-.
Qed.

Lemma bind_assoc {A B C} (m : Prog E R A) (k1 : A -> Prog E R B) (k2 : B -> Prog E R C) h :
  bind (bind m k1) k2 h = bind m (fun a => bind (k1 a) k2) h.
Proof. unfold bind. destruct (m h) as [h1 [a|r]]; reflexivity. Qed.

Lemma bind_ext {A B} (m : Prog E R A) (k k' : A -> Prog E R B) h :
  (forall a h', k a h' = k' a h') -> bind m k h = bind m k' h.
Proof. intros H. unfold bind. destruct (m h) as [h1 [a|r]]; [apply H | reflexivity]. Qed.

Lemma bind_ret_l {A B} (a : A) (k : A -> Prog E R B) (h : list E) :
  bind (ret a) k h = k a h.
Proof. reflexivity. Qed.

Section Emits.
Variable P : E -> Prop.

Lemma emits_ret {A} (a : A) : emits P (ret a : Prog E R A).
Proof. intros h. exists []. split; [symmetry; apply app_nil_r | constructor]. Qed.

Lemma emits_return_ {A} (r : R) : emits P (return_ r : Prog E R A).
Proof. intros h. exists []. split; [symmetry; apply app_nil_r | constructor]. Qed.

Lemma emits_emit (e : E) : P e -> emits P (emit e : Prog E R unit).
Proof. intros He h. exists [e]. split; [reflexivity | now repeat constructor]. Qed.

Lemma emits_ask {A} (q : list E -> A) (ev : A -> E) :
  (forall a, P (ev a)) -> emits P (ask q ev : Prog E R A).
Proof. intros He h. exists [ev (q h)]. split; [reflexivity | now repeat constructor]. Qed.

Lemma emits_bind {A B} (m : Prog E R A) (k : A -> Prog E R B) :
  emits P m -> (forall a, emits P (k a)) -> emits P (bind m k).
Proof.
  intros Hm Hk h. destruct (Hm h) as (evs1 & E1 & F1). unfold bind.
  destruct (m h) as [h1 [a|r]]; simpl in E1; subst h1.
  - destruct (Hk a (h ++ evs1)) as (evs2 & E2 & F2).
    exists (evs1 ++ evs2). rewrite E2, app_assoc. split; [reflexivity|].
    apply Forall_app. now split.
  - now exists evs1.
Qed.

Lemma emits_when (b : bool) (m : Prog E R unit) : emits P m -> emits P (when b m).
Proof. destruct b; [trivial | intros _; apply emits_ret]. Qed.

Lemma emits_run {A} (m : Prog E R A) (h h' : list E) (s : Step R A) :
  emits P m -> m h = (h', s) -> exists evs, h' = h ++ evs /\ Forall P evs.
Proof. intros Hm H. destruct (Hm h) as (evs & E1 & F). rewrite H in E1. now exists evs. Qed.
End Emits.

Section Exits.
Variable Q : R -> Prop.

Lemma exits_ret {A} (a : A) : exits Q (ret a : Prog E R A).
Proof. intros h h' r [=]. Qed.

Lemma exits_return_ {A} (r : R) : Q r -> exits Q (return_ r : Prog E R A).
Proof. intros Hr h h' r' [= _ <-]. exact Hr. Qed.

Lemma exits_emit (e : E) : exits Q (emit e : Prog E R unit).
Proof. intros h h' r [=]. Qed.

Lemma exits_ask {A} (q : list E -> A) (ev : A -> E) : exits Q (ask q ev : Prog E R A).
Proof. intros h h' r [=]. Qed.

Lemma exits_bind {A B} (m : Prog E R A) (k : A -> Prog E R B) :
  exits Q m -> (forall a, exits Q (k a)) -> exits Q (bind m k).
Proof.
  intros Hm Hk h h' r H.
  apply bind_inv in H as [(r' & H & [= ->]) | (a & h1 & _ & H)].
  - exact (Hm _ _ _ H).
  - exact (Hk _ _ _ _ H).
Qed.

Lemma exits_when (b : bool) (m : Prog E R unit) : exits Q m -> exits Q (when b m).
Proof. destruct b; [trivial | intros _; apply exits_ret]. Qed.
End Exits.

End ProgFacts.

(** One syntax-directed step of a proof of [emits] or of [exits]. *)
Ltac emits_step :=
  first
    [ apply emits_ret
    | apply emits_return_
    | apply emits_when
    | apply emits_bind; [|intros]
    | apply emits_emit
    | apply emits_ask; intros
    | match goal with
      | |- emits _ (match ?x with _ => _ end) => destruct x
      end ].

Ltac exits_step :=
  first
    [ apply exits_ret
    | apply exits_return_
    | apply exits_when
    | apply exits_bind; [|intros]
    | apply exits_emit
    | apply exits_ask
    | match goal with
      | |- exits _ (match ?x with _ => _ end) => destruct x
      end ].

(** Running a step by hand: unfold the monad, then split on the first
    answer of the world that blocks the computation. *)
Ltac prog_red :=
  cbv beta iota zeta delta
    [bind ret return_ emit ask when log_Printf notNil
     rem_List git_PlainClone git_PlainOpen r_CreateRemote r_Remote r_Reference gitTarget_Push
     errors.Is RefType_eqb fst snd negb andb orb].

Ltac break_match :=
  match goal with
  | |- context [match ?x with _ => _ end] =>
      lazymatch x with
      | context [match _ with _ => _ end] => fail
      | _ => destruct x eqn:?
      end
  end.

Ltac norm_app := rewrite <- ?app_assoc; cbn [app].

Ltac stage_eq :=
  prog_red; norm_app; repeat (break_match; prog_red; norm_app);
  try reflexivity; try congruence.

Local Open Scope string_scope.

(** ** Strings *)

Section StringFacts.

Lemma prefix_app (p s : string) : String.prefix p (p ++ s) = true.
Proof.
  induction p as [|c p IH]; simpl.
  - destruct s; reflexivity.
  - destruct (ascii_dec c c) as [_|n]; [exact IH | now elim n].
Qed.

Lemma drop_app (p s : string) : strings.drop (String.length p) (p ++ s) = s.
Proof. induction p as [|c p IH]; simpl; [reflexivity | exact IH]. Qed.

Lemma prefix_split (p s : string) :
  String.prefix p s = true -> s = p ++ strings.drop (String.length p) s.
Proof.
  revert s; induction p as [|c p IH]; intros s H; simpl in *.
  - reflexivity.
  - destruct s as [|d s]; simpl in H; [discriminate|].
    destruct (ascii_dec c d) as [->|]; [|discriminate].
    f_equal. now apply IH.
Qed.

Lemma append_inv_head (p a b : string) : p ++ a = p ++ b -> a = b.
Proof.
  induction p as [|c p IH]; simpl; intros H; [exact H|].
  injection H as H. now apply IH.
Qed.

Lemma Contains_app_r (a b sub : string) :
  strings.Contains b sub = true -> strings.Contains (a ++ b) sub = true.
Proof.
  intros H. induction a as [|c a IH]; simpl; [exact H|].
  rewrite IH. apply orb_true_r.
Qed.

Lemma Contains_app_l (b sub : string) : strings.Contains (sub ++ b) sub = true.
Proof.
  destruct sub; simpl.
  - destruct b; reflexivity.
  - destruct (ascii_dec a a) as [_|n]; [|now elim n].
    now rewrite prefix_app.
Qed.

Lemma slices_Contains_In (l : list string) (x : string) :
  slices.Contains l x = true <-> In x l.
Proof.
  unfold slices.Contains. rewrite existsb_exists. split.
  - intros (y & Hy & E). apply String.eqb_eq in E. now subst.
  - intros H. exists x. split; [exact H | apply String.eqb_refl].
Qed.

End StringFacts.

(** ** Reference names *)

Section ReferenceNames.

Lemma IsTag_NewTag (n : string) : plumbing.IsTag (plumbing.NewTagReferenceName n) = true.
Proof. apply prefix_app. Qed.

Lemma IsBranch_NewBranch (n : string) :
  plumbing.IsBranch (plumbing.NewBranchReferenceName n) = true.
Proof. apply prefix_app. Qed.

Lemma IsTag_NewBranch (n : string) : plumbing.IsTag (plumbing.NewBranchReferenceName n) = false.
Proof. reflexivity. Qed.

Lemma Short_NewTag (n : string) : plumbing.Short (plumbing.NewTagReferenceName n) = n.
Proof.
  unfold plumbing.Short. rewrite IsTag_NewTag.
  unfold strings.TrimPrefix, strings.HasPrefix, plumbing.NewTagReferenceName.
  rewrite prefix_app. apply drop_app.
Qed.

Lemma Short_NewBranch (n : string) : plumbing.Short (plumbing.NewBranchReferenceName n) = n.
Proof.
  unfold plumbing.Short. rewrite IsTag_NewBranch, IsBranch_NewBranch.
  unfold strings.TrimPrefix, strings.HasPrefix, plumbing.NewBranchReferenceName.
  rewrite prefix_app. apply drop_app.
Qed.

Lemma IsTag_inv (r : plumbing.ReferenceName) :
  plumbing.IsTag r = true -> r = plumbing.NewTagReferenceName (plumbing.Short r).
Proof.
  intros H. unfold plumbing.Short. rewrite H.
  unfold strings.TrimPrefix. fold (plumbing.IsTag r). rewrite H.
  now apply prefix_split.
Qed.

Lemma IsBranch_inv (r : plumbing.ReferenceName) :
  plumbing.IsTag r = false -> plumbing.IsBranch r = true ->
  r = plumbing.NewBranchReferenceName (plumbing.Short r).
Proof.
  intros Ht H. unfold plumbing.Short. rewrite Ht, H.
  unfold strings.TrimPrefix. fold (plumbing.IsBranch r). rewrite H.
  now apply prefix_split.
Qed.

End ReferenceNames.

(** ** The classifier *)

Section Classifier.

Lemma collect_tags (refs : list plumbing.ReferenceName) (tags branches : list string) (n : string) :
  In n (fst (collect refs tags branches)) <->
  In n tags \/ In (plumbing.NewTagReferenceName n) refs.
Proof.
  revert tags branches; induction refs as [|r refs IH]; intros tags branches; simpl.
  - tauto.
  - destruct (plumbing.IsTag r) eqn:Ht.
    + rewrite IH, in_app_iff. simpl. split.
      * intros [[H|[H|[]]]|H]; auto. subst n. right; left. now apply IsTag_inv.
      * intros [H|[H|H]]; auto. subst r. rewrite Short_NewTag. auto.
    + assert (Hne : r <> plumbing.NewTagReferenceName n).
      { intros ->. now rewrite IsTag_NewTag in Ht. }
      destruct (plumbing.IsBranch r); rewrite IH; tauto.
Qed.

Lemma collect_branches (refs : list plumbing.ReferenceName) (tags branches : list string) (n : string) :
  In n (snd (collect refs tags branches)) <->
  In n branches \/ In (plumbing.NewBranchReferenceName n) refs.
Proof.
  revert tags branches; induction refs as [|r refs IH]; intros tags branches; simpl.
  - tauto.
  - destruct (plumbing.IsTag r) eqn:Ht.
    + assert (Hne : r <> plumbing.NewBranchReferenceName n).
      { intros ->. now rewrite IsTag_NewBranch in Ht. }
      rewrite IH. tauto.
    + destruct (plumbing.IsBranch r) eqn:Hb.
      * rewrite IH, in_app_iff. simpl. split.
        -- intros [[H|[H|[]]]|H]; auto. subst n. right; left. now apply IsBranch_inv.
        -- intros [H|[H|H]]; auto. subst r. rewrite Short_NewBranch. auto.
      * assert (Hne : r <> plumbing.NewBranchReferenceName n).
        { intros ->. now rewrite IsBranch_NewBranch in Hb. }
        rewrite IH. tauto.
Qed.

Lemma classify_Tag (refs : list plumbing.ReferenceName) (n : string) :
  classify refs n = RefTypeTag <-> In (plumbing.NewTagReferenceName n) refs.
Proof.
  unfold classify.
  pose proof (collect_tags refs [] [] n) as Ht.
  destruct (collect refs [] []) as [tags branches]; simpl in Ht.
  destruct (slices.Contains tags n) eqn:E.
  - apply slices_Contains_In in E. tauto.
  - assert (~ In n tags) by (rewrite <- slices_Contains_In; congruence).
    split.
    + destruct (slices.Contains branches n); discriminate.
    + tauto.
Qed.

Lemma classify_Branch (refs : list plumbing.ReferenceName) (n : string) :
  classify refs n = RefTypeBranch <->
  ~ In (plumbing.NewTagReferenceName n) refs /\ In (plumbing.NewBranchReferenceName n) refs.
Proof.
  unfold classify.
  pose proof (collect_tags refs [] [] n) as Ht.
  pose proof (collect_branches refs [] [] n) as Hb.
  destruct (collect refs [] []) as [tags branches]; simpl in Ht, Hb.
  destruct (slices.Contains tags n) eqn:E.
  - apply slices_Contains_In in E. split; [discriminate | tauto].
  - assert (~ In n tags) by (rewrite <- slices_Contains_In; congruence).
    destruct (slices.Contains branches n) eqn:E'.
    + apply slices_Contains_In in E'. tauto.
    + assert (~ In n branches) by (rewrite <- slices_Contains_In; congruence).
      split; [discriminate | tauto].
Qed.

Lemma classify_Unknown (refs : list plumbing.ReferenceName) (n : string) :
  classify refs n = RefTypeUnknown <->
  ~ In (plumbing.NewTagReferenceName n) refs /\ ~ In (plumbing.NewBranchReferenceName n) refs.
Proof.
  pose proof (classify_Tag refs n) as Ht.
  pose proof (classify_Branch refs n) as Hb.
  destruct (classify refs n); split; try discriminate; try reflexivity.
  - intros _. split.
    + intros Hin. apply Ht in Hin. discriminate.
    + intros Hin. assert (RefTypeUnknown = RefTypeBranch) as E; [|discriminate E].
      apply Hb. split; [|exact Hin]. intros Hin'. apply Ht in Hin'. discriminate.
  - intros [Hn _]. exfalso. apply Hn, Ht. reflexivity.
  - intros [_ Hn]. exfalso. apply Hn, Hb. reflexivity.
Qed.

End Classifier.

Local Open Scope list_scope.

(** ** The steps of the operation, one answer of the world at a time *)

Section Steps.
Variable w : World.
Variable opts : GitOperationOptions.

Lemma checkRemoteRefExistence_run (repoURL refName : string) (auth : GitAuthMethod)
    (h : History) :
  checkRemoteRefExistence w repoURL refName auth h =
  let asking := EvLog ("正在从 " ++ repoURL ++ " 获取引用列表...") in
  match w_List w (h ++ [asking]) repoURL (listOptions auth) with
  | Err e =>
      ((h ++ [asking; EvList repoURL (listOptions auth) (Err e)])%list,
       Next (RefTypeUnknown, Some (fmt.Errorf_w "列出远程引用失败: " (Some e))))
  | Ok refs =>
      ((h ++ [asking; EvList repoURL (listOptions auth) (Ok refs);
              EvLog (classifyLog (classify refs refName) refName)])%list,
       Next (classify refs refName, None))
  end.
Proof.
  unfold checkRemoteRefExistence, classify. prog_red.
  destruct (w_List w _ repoURL _) as [refs|e]; [|norm_app; reflexivity].
  destruct (collect refs [] []) as [tags branches].
  destruct (slices.Contains tags refName); [norm_app; reflexivity|].
  destruct (slices.Contains branches refName); norm_app; reflexivity.
Qed.

Lemma checkSourceRef_run (h : History) :
  checkSourceRef w opts h =
  let asking := EvLog ("正在从 " ++ FromRepoURL opts ++ " 获取引用列表...") in
  match w_List w (h ++ [asking]) (FromRepoURL opts) (listOptions (FromAuth opts)) with
  | Err e =>
      ((h ++ [asking; EvList (FromRepoURL opts) (listOptions (FromAuth opts)) (Err e)])%list,
       Return (Some (fmt.Errorf_w ("检查源仓库引用 (" ++ FromRef opts ++ ") 失败: ")
                       (Some (fmt.Errorf_w "列出远程引用失败: " (Some e))))))
  | Ok refs =>
      let h' := (h ++ [asking; EvList (FromRepoURL opts) (listOptions (FromAuth opts)) (Ok refs);
                       EvLog (classifyLog (classify refs (FromRef opts)) (FromRef opts))])%list in
      match classify refs (FromRef opts) with
      | RefTypeUnknown =>
          (h', Return (Some (fmt.Errorf ("源仓库中未找到分支或标签: " ++ FromRef opts))))
      | rt => (h', Next rt)
      end
  end.
Proof.
  unfold checkSourceRef. unfold bind at 1. rewrite checkRemoteRefExistence_run.
  cbv zeta. destruct (w_List w _ _ _) as [refs|e]; [|reflexivity].
  destruct (classify refs (FromRef opts)); reflexivity.
Qed.

Lemma cloneSource_run (rt : RefType) (h : History) :
  cloneSource w opts rt h =
  let name :=
    match rt with
    | RefTypeTag => plumbing.NewTagReferenceName (FromRef opts)
    | RefTypeBranch => plumbing.NewBranchReferenceName (FromRef opts)
    | RefTypeUnknown => ""
    end in
  let kind :=
    match rt with
    | RefTypeTag => [EvLog ("检测到源引用 '" ++ FromRef opts ++ "' 为标签，将克隆该标签。")]
    | RefTypeBranch => [EvLog ("检测到源引用 '" ++ FromRef opts ++ "' 为分支，将克隆该分支。")]
    | RefTypeUnknown => []
    end in
  let h1 := (h ++ kind ++ [EvLog ("正在克隆仓库 " ++ FromRepoURL opts ++ " 到 " ++ OutputDir opts ++ "...")])%list in
  let clone := EvPlainClone (OutputDir opts) (cloneOptions opts name) in
  let cloned := EvLog ("仓库已成功克隆到 " ++ OutputDir opts) in
  match w_PlainClone w h1 (OutputDir opts) (cloneOptions opts name) with
  | None => ((h1 ++ [clone None; cloned])%list, Next tt)
  | Some e =>
      if errors.Is (Some e) ErrRepositoryAlreadyExists then
        let h2 := (h1 ++ [clone (Some e);
                          EvLog ("目标目录 '" ++ OutputDir opts ++ "' 已存在且是一个 Git 仓库，尝试打开而不是克隆。")])%list in
        match w_PlainOpen w h2 (OutputDir opts) with
        | None =>
            ((h2 ++ [EvPlainOpen (OutputDir opts) None;
                     EvLog ("警告: 目录 '" ++ OutputDir opts ++ "' 已存在，克隆操作跳过。请确保它是所需状态。");
                     cloned])%list, Next tt)
        | Some e' =>
            ((h2 ++ [EvPlainOpen (OutputDir opts) (Some e')])%list,
             Return (Some (fmt.Errorf_w ("无法打开现有仓库 " ++ OutputDir opts ++ ": ") (Some e'))))
        end
      else ((h1 ++ [clone (Some e)])%list, Return (Some (fmt.Errorf_w "克隆失败: " (Some e))))
  end.
Proof.
  unfold cloneSource. destruct rt; stage_eq.
Qed.

Lemma configureTargetRemote_run (h : History) :
  configureTargetRemote w opts h =
  let h1 := (h ++ [EvLog ("正在配置目标远程仓库 " ++ ToRepoURL opts ++ "...")])%list in
  match w_CreateRemote w h1 (targetRemoteConfig opts) with
  | None => ((h1 ++ [EvCreateRemote (targetRemoteConfig opts) None])%list, Next tt)
  | Some e =>
      if errors.Is (Some e) ErrRemoteExists then
        let h2 := (h1 ++ [EvCreateRemote (targetRemoteConfig opts) (Some e);
                          EvLog ("远程 '" ++ "target" ++ "' 已存在，跳过创建。")])%list in
        match w_Remote w h2 "target" with
        | None => ((h2 ++ [EvRemote "target" None])%list, Next tt)
        | Some e' =>
            ((h2 ++ [EvRemote "target" (Some e')])%list,
             Return (Some (fmt.Errorf_w ("无法获取已存在的远程 '" ++ "target" ++ "': ") (Some e'))))
        end
      else
        ((h1 ++ [EvCreateRemote (targetRemoteConfig opts) (Some e)])%list,
         Return (Some (fmt.Errorf_w "创建远程仓库配置失败: " (Some e))))
  end.
Proof.
  unfold configureTargetRemote.
  change (rc_Name (targetRemoteConfig opts)) with "target"%string.
  stage_eq.
Qed.

Lemma configurePush_run (rt : RefType) (h : History) :
  configurePush w opts rt h =
  if (ToTag opts =? "")%string then
    (h ++ [EvLog "未指定目标标签，将推送所有本地标签到目标仓库。"],
     Next (pushOptions opts ["refs/tags/*:refs/tags/*"%string]))
  else
    let remote := ("refs/remotes/origin/" ++ FromRef opts)%string in
    let first := w_Reference w h remote in
    let asked :=
      match rt with
      | RefTypeTag =>
          [EvReference remote first;
           EvReference (plumbing.NewTagReferenceName (FromRef opts))
             (w_Reference w (h ++ [EvReference remote first])
                (plumbing.NewTagReferenceName (FromRef opts)))]
      | _ => [EvReference remote first]
      end in
    let localRef :=
      match rt with
      | RefTypeTag =>
          w_Reference w (h ++ [EvReference remote first])
            (plumbing.NewTagReferenceName (FromRef opts))
      | _ => first
      end in
    match localRef with
    | Err e =>
        (h ++ asked,
         Return (Some (fmt.Errorf_w ("无法获取本地引用 " ++ FromRef opts ++ ": ") (Some e))))
    | Ok hash =>
        (h ++ asked ++ [EvLog ("将本地提交 " ++ hash ++ " 推送到目标仓库标签 " ++ ToTag opts ++ "。")],
         Next (pushOptions opts [(hash ++ ":refs/tags/" ++ ToTag opts)%string]))
    end.
Proof.
  unfold configurePush.
  destruct (ToTag opts =? "")%string; [reflexivity|].
  destruct rt; stage_eq.
Qed.

Lemma executePush_run (po : PushOptions) (h : History) :
  executePush w opts po h =
  let pushing := EvLog ("正在推送内容到目标仓库 " ++ ToRepoURL opts ++ "...") in
  let pushed := EvLog "内容已成功推送到目标仓库。" in
  match w_Push w (h ++ [pushing]) po with
  | None => (h ++ [pushing; EvPush po None; pushed], Return None)
  | Some e =>
      if strings.Contains (Error e) unpackOkQuirk then
        (h ++ [pushing; EvPush po (Some e); pushed], Return None)
      else if errors.Is (Some e) NoErrAlreadyUpToDate then
        let asking := EvLog ("正在从 " ++ ToRepoURL opts ++ " 获取引用列表...") in
        let lo := listOptions (ToAuth opts) in
        match w_List w (h ++ [pushing; EvPush po (Some e); asking]) (ToRepoURL opts) lo with
        | Err e' =>
            (h ++ [pushing; EvPush po (Some e); asking; EvList (ToRepoURL opts) lo (Err e')],
             Return (Some (fmt.Errorf
               ("检查标签 '" ++ destTag opts ++ "' 已存在于目标仓库 发生错误 "
                ++ Error (fmt.Errorf_w "列出远程引用失败: " (Some e')) ++ "。"))))
        | Ok refs =>
            let h' :=
              h ++ [pushing; EvPush po (Some e); asking; EvList (ToRepoURL opts) lo (Ok refs);
                    EvLog (classifyLog (classify refs (destTag opts)) (destTag opts))] in
            match classify refs (destTag opts) with
            | RefTypeTag =>
                if (OnTagExistsBehavior opts =? "error")%string then
                  (h', Return (Some (fmt.Errorf
                     ("标签 '" ++ destTag opts ++ "' 已存在于目标仓库，且配置为报错模式。"))))
                else if (OnTagExistsBehavior opts =? "skip")%string then
                  (h' ++ [EvLog ("标签 '" ++ destTag opts ++ "' 已存在于目标仓库，已跳过推送。")],
                   Return None)
                else
                  (h', Return (Some (fmt.Errorf
                     ("未知的 --on-tag-exists 行为: " ++ OnTagExistsBehavior opts))))
            | _ => (h', Return (Some (fmt.Errorf_w "推送失败: " None)))
            end
        end
      else
        (h ++ [pushing; EvPush po (Some e)],
         Return (Some (fmt.Errorf_w "推送失败: " (Some e))))
  end.
Proof.
  unfold executePush. fold (destTag opts).
  prog_red. norm_app.
  destruct (w_Push w _ po) as [e|]; prog_red; norm_app; [|reflexivity].
  destruct (strings.Contains (Error e) unpackOkQuirk); prog_red; norm_app; [reflexivity|].
  destruct (existsb (Sentinel_eqb NoErrAlreadyUpToDate) (chain e)); [|reflexivity].
  rewrite checkRemoteRefExistence_run. cbv zeta. norm_app.
  destruct (w_List w _ _ _) as [refs|e']; prog_red; norm_app; [|reflexivity].
  destruct (classify refs (destTag opts)); prog_red; norm_app; try reflexivity.
  destruct (OnTagExistsBehavior opts =? "error")%string; [reflexivity|].
  destruct (OnTagExistsBehavior opts =? "skip")%string; prog_red; norm_app; reflexivity.
Qed.

End Steps.

(** ** The operation as a whole *)

Local Open Scope prog_scope.

Lemma run_inv (m : M unit) (h : History) (err : option error) :
  run m = (h, err) -> exists s, m [] = (h, s) /\ err = result_of s.
Proof.
  unfold run. destruct (m []) as [h' [a|r]]; intros H; injection H as <- <-.
  - now exists (Next a).
  - now exists (Return r).
Qed.

Section Operation.
Variable w : World.
Variable opts : GitOperationOptions.

Lemma PerformGitOperation_split (h : History) :
  PerformGitOperation w opts h = bind (prepare w opts) (executePush w opts) h.
Proof.
  unfold PerformGitOperation, prepare.
  rewrite bind_assoc. apply bind_ext. intros rt h1.
  rewrite bind_assoc. apply bind_ext. intros _ h2.
  rewrite bind_assoc. reflexivity.
Qed.

Section Emits.
Variable P : Event -> Prop.
Hypothesis Plog : forall msg, P (EvLog msg).

Lemma checkRemoteRefExistence_emits url name auth :
  (forall res, P (EvList url (listOptions auth) res)) ->
  emits P (checkRemoteRefExistence w url name auth).
Proof.
  intros Hlist. unfold checkRemoteRefExistence, rem_List, log_Printf.
  repeat emits_step; auto.
Qed.

Lemma checkSourceRef_emits :
  (forall res, P (EvList (FromRepoURL opts) (listOptions (FromAuth opts)) res)) ->
  emits P (checkSourceRef w opts).
Proof.
  intros Hlist. unfold checkSourceRef.
  repeat emits_step; auto.
Qed.

Lemma cloneSource_emits (rt : RefType) :
  (forall name res, P (EvPlainClone (OutputDir opts) (cloneOptions opts name) res)) ->
  (forall res, P (EvPlainOpen (OutputDir opts) res)) ->
  emits P (cloneSource w opts rt).
Proof.
  intros Hclone Hopen. unfold cloneSource, git_PlainClone, git_PlainOpen, log_Printf.
  repeat emits_step; auto.
Qed.

Lemma configureTargetRemote_emits :
  (forall res, P (EvCreateRemote (targetRemoteConfig opts) res)) ->
  (forall res, P (EvRemote "target" res)) ->
  emits P (configureTargetRemote w opts).
Proof.
  intros Hc Hr. unfold configureTargetRemote, r_CreateRemote, r_Remote, log_Printf.
  repeat emits_step; auto.
Qed.

Lemma configurePush_emits (rt : RefType) :
  (forall name res, P (EvReference name res)) ->
  emits P (configurePush w opts rt).
Proof.
  intros Href. unfold configurePush, r_Reference, log_Printf.
  repeat emits_step; auto.
Qed.

Lemma executePush_emits (po : PushOptions) :
  (forall res, P (EvPush po res)) ->
  (forall res, P (EvList (ToRepoURL opts) (listOptions (ToAuth opts)) res)) ->
  emits P (executePush w opts po).
Proof.
  intros Hpush Hlist. unfold executePush, gitTarget_Push, log_Printf.
  repeat emits_step; auto.
Qed.

Lemma prepare_emits :
  (forall res, P (EvList (FromRepoURL opts) (listOptions (FromAuth opts)) res)) ->
  (forall name res, P (EvPlainClone (OutputDir opts) (cloneOptions opts name) res)) ->
  (forall res, P (EvPlainOpen (OutputDir opts) res)) ->
  (forall res, P (EvCreateRemote (targetRemoteConfig opts) res)) ->
  (forall res, P (EvRemote "target" res)) ->
  (forall name res, P (EvReference name res)) ->
  emits P (prepare w opts).
Proof.
  intros. unfold prepare.
  apply emits_bind; [now apply checkSourceRef_emits | intros rt].
  apply emits_bind; [now apply cloneSource_emits | intros _].
  apply emits_bind; [now apply configureTargetRemote_emits | intros _].
  now apply configurePush_emits.
Qed.

End Emits.

Lemma prepare_notPush : emits notPush (prepare w opts).
Proof. apply prepare_emits; intros; reflexivity. Qed.

(** The push options that reach step 6. *)
Lemma prepare_pushOptions (h h' : History) (po : PushOptions) :
  prepare w opts h = (h', Next po) ->
  exists specs, po = pushOptions opts specs /\
    (ToTag opts = "" -> specs = ["refs/tags/*:refs/tags/*"%string]) /\
    (ToTag opts <> "" -> exists hash, specs = [(hash ++ ":refs/tags/" ++ ToTag opts)%string]).
Proof.
  unfold prepare. intros H.
  apply bind_inv in H as [(r & _ & [=]) | (rt & h1 & _ & H)].
  apply bind_inv in H as [(r & _ & [=]) | (_ & h2 & _ & H)].
  apply bind_inv in H as [(r & _ & [=]) | (_ & h3 & _ & H)].
  rewrite configurePush_run in H.
  destruct (ToTag opts =? "")%string eqn:E.
  - injection H as _ <-. apply String.eqb_eq in E.
    eexists. split; [reflexivity|]. split; [reflexivity | congruence].
  - apply String.eqb_neq in E. cbv zeta in H.
    match type of H with (match ?x with _ => _ end) = _ => destruct x as [hash|e] end;
      [|discriminate].
    injection H as _ <-.
    eexists. split; [reflexivity|]. split; [congruence | intros _; now exists hash].
Qed.

(** A run of the whole operation: either it ended before the push, or
    the push was made with the options of step 5. *)
Lemma PerformGitOperation_cases (h : History) (err : option error) :
  run (PerformGitOperation w opts) = (h, err) ->
  (Forall notPush h /\ exists r, prepare w opts [] = (h, Return r) /\ err = r) \/
  (exists h0 po r, Forall notPush h0 /\ prepare w opts [] = (h0, Next po) /\
                   executePush w opts po h0 = (h, Return r) /\ err = r).
Proof.
  intros H. apply run_inv in H as (s & H & ->).
  rewrite PerformGitOperation_split in H.
  apply bind_inv in H as [(r & H & ->) | (po & h0 & H & H')].
  - left. split; [|now exists r].
    destruct (emits_run _ _ _ _ _ prepare_notPush H) as (evs & -> & F). exact F.
  - right. exists h0, po.
    destruct (emits_run _ _ _ _ _ prepare_notPush H) as (evs & -> & F).
    assert (exists r, s = Return r) as (r & ->).
    { rewrite executePush_run in H'. cbv zeta in H'.
      repeat match type of H' with
             | (match ?x with _ => _ end) = _ => destruct x
             | (if ?x then _ else _) = _ => destruct x
             end; injection H' as _ <-; eauto. }
    exists r. auto.
Qed.

End Operation.

(** ** Histories *)

Section HistoryFacts.

Lemma In_push_app (h0 t : History) (po : PushOptions) (res : option error) :
  Forall notPush h0 -> In (EvPush po res) (h0 ++ t) -> In (EvPush po res) t.
Proof.
  intros F H. apply in_app_or in H as [H|H]; [|exact H].
  rewrite Forall_forall in F. apply F in H. discriminate H.
Qed.

Lemma afterPush_app (h0 t : History) :
  Forall notPush h0 -> afterPush (h0 ++ t) = afterPush t.
Proof.
  induction 1 as [|ev h0 Hev _ IH]; [reflexivity|].
  destruct ev; simpl; auto. discriminate Hev.
Qed.

Lemma listingIn_app (h t : History) res :
  listingIn h = Some res -> listingIn (h ++ t) = Some res.
Proof.
  induction h as [|ev h IH]; [discriminate|].
  destruct ev; simpl; auto.
Qed.

Lemma last_app_cons (h0 : History) (ev d : Event) (t : History) :
  last (h0 ++ ev :: t) d = last (ev :: t) d.
Proof.
  induction h0 as [|x h0 IH]; [reflexivity|].
  cbn [app]. rewrite <- IH. cbn [last].
  destruct (h0 ++ ev :: t) eqn:E; [|reflexivity].
  now destruct h0.
Qed.

End HistoryFacts.

Ltac push_cases H :=
  rewrite executePush_run in H; cbv zeta in H;
  repeat match type of H with
         | (match ?x with _ => _ end) = _ => destruct x eqn:?
         end;
  apply pair_equal_spec in H as [<- H]; injection H as <-;
  rewrite <- ?app_assoc in *; cbn [app] in *.

Ltac find_push :=
  match goal with
  | F : Forall notPush ?h0, H : In (EvPush _ _) (?h0 ++ _) |- _ =>
      apply In_push_app in H; [|exact F]; cbn [In] in H;
      decompose [or] H; clear H
  end;
  try contradiction;
  try match goal with
      | H : EvLog _ = EvPush _ _ |- _ => discriminate H
      | H : EvList _ _ _ = EvPush _ _ |- _ => discriminate H
      | H : EvPush _ _ = EvPush _ _ |- _ => first [discriminate H | injection H as <- <-]
      end.


Lemma filter_notPush (h : History) : Forall notPush h -> filter isPush h = [].
Proof.
  induction 1 as [|ev h Hev _ IH]; [reflexivity|].
  cbn [filter]. rewrite Hev. exact IH.
Qed.



(** The single push of a run and its ref-specs. *)
Lemma push_shape (w : World) (opts : GitOperationOptions)
    (h : History) (err : option error) (po : PushOptions) (res : option error) :
  run (PerformGitOperation w opts) = (h, err) ->
  In (EvPush po res) h ->
  filter isPush h = [EvPush po res] /\
  exists specs, po = pushOptions opts specs /\
    (ToTag opts = "" -> specs = ["refs/tags/*:refs/tags/*"%string]) /\
    (ToTag opts <> "" -> exists hash, specs = [(hash ++ ":refs/tags/" ++ ToTag opts)%string]).
Proof.
  intros Hrun Hin.
  apply PerformGitOperation_cases in Hrun
    as [(F & _) | (h0 & po0 & r & F & Hprep & Hexec & ->)].
  { rewrite Forall_forall in F. apply F in Hin. discriminate Hin. }
  apply prepare_pushOptions in Hprep.
  push_cases Hexec; find_push; (split; [|exact Hprep]);
    rewrite filter_app, (filter_notPush _ F); reflexivity.
Qed.

(** Every call of a run that goes over the network skips the
    verification of the certificate. *)
Lemma all_calls_skip_tls (w : World) (opts : GitOperationOptions)
    (h : History) (err : option error) :
  run (PerformGitOperation w opts) = (h, err) -> Forall tlsOff h.
Proof.
  intros Hrun. apply run_inv in Hrun as (s & H & _).
  rewrite PerformGitOperation_split in H.
  assert (Hprep : emits tlsOff (prepare w opts)).
  { apply prepare_emits; intros; intros b [=]; try reflexivity; now subst. }
  apply bind_inv in H as [(r & H & _) | (po & h0 & H & H')].
  - destruct (emits_run _ _ _ _ _ Hprep H) as (evs & -> & F). exact F.
  - destruct (prepare_pushOptions _ _ _ _ _ H) as (specs & -> & _).
    destruct (emits_run _ _ _ _ _ Hprep H) as (evs & -> & F).
    assert (Hexec : emits tlsOff (executePush w opts (pushOptions opts specs))).
    { apply executePush_emits; intros; intros b [=]; now subst. }
    destruct (emits_run _ _ _ _ _ Hexec H') as (evs' & -> & F').
    apply Forall_app. now split.
Qed.

(** Whatever the events, a directory that exists is not removed, and a
    clone that succeeds creates it. *)
Lemma dirExistsAfter_true (dir : string) (h : History) :
  dirExistsAfter dir h true = true.
Proof.
  unfold dirExistsAfter. induction h as [|ev h IH]; [reflexivity|].
  cbn [fold_left].
  destruct ev; try exact IH. destruct res; try exact IH.
  destruct (dir0 =? dir)%string; exact IH.
Qed.

Lemma dirExistsAfter_cloned (dir : string) (o : CloneOptions) (h : History) (before : bool) :
  In (EvPlainClone dir o None) h -> dirExistsAfter dir h before = true.
Proof.
  unfold dirExistsAfter. revert before. induction h as [|ev h IH]; intros before; [intros []|].
  intros [->|Hin].
  - cbn [fold_left]. rewrite String.eqb_refl. apply dirExistsAfter_true.
  - cbn [fold_left]. now apply IH.
Qed.

Section Remainders.
Variable w : World.
Variable opts : GitOperationOptions.
Variable P : Event -> Prop.
Hypothesis Plog : forall msg, P (EvLog msg).
Hypothesis Pcreate : forall res, P (EvCreateRemote (targetRemoteConfig opts) res).
Hypothesis Premote : forall res, P (EvRemote "target" res).
Hypothesis Preference : forall name res, P (EvReference name res).
Hypothesis Ppush : forall po res, P (EvPush po res).
Hypothesis Plist : forall res, P (EvList (ToRepoURL opts) (listOptions (ToAuth opts)) res).

(** Steps 4 to 6. *)
Lemma afterClone_emits (rt : RefType) :
  emits P (configureTargetRemote w opts ;;
           po <- configurePush w opts rt ;;
           executePush w opts po).
Proof.
  apply emits_bind; [now apply configureTargetRemote_emits | intros _].
  apply emits_bind; [now apply configurePush_emits | intros po].
  now apply executePush_emits.
Qed.

Hypothesis Pclone : forall name res,
  P (EvPlainClone (OutputDir opts) (cloneOptions opts name) res).
Hypothesis Popen : forall res, P (EvPlainOpen (OutputDir opts) res).

(** Steps 2 to 6. *)
Lemma afterCheck_emits (rt : RefType) :
  emits P (cloneSource w opts rt ;;
           configureTargetRemote w opts ;;
           po <- configurePush w opts rt ;;
           executePush w opts po).
Proof.
  apply emits_bind; [now apply cloneSource_emits | intros _].
  apply afterClone_emits.
Qed.

End Remainders.

(** What step 1 leaves behind, from an empty history. *)
Lemma checkSourceRef_inv (w : World) (opts : GitOperationOptions)
    (h1 : History) (s : Step (option error) RefType) :
  checkSourceRef w opts [] = (h1, s) ->
  exists res,
    listingIn h1 = Some res /\
    filter isPlainClone h1 = [] /\
    match s, res with
    | Next rt, Ok refs => rt = classify refs (FromRef opts) /\ rt <> RefTypeUnknown
    | Next _, Err _ => False
    | Return r, Ok refs =>
        classify refs (FromRef opts) = RefTypeUnknown /\
        r = Some (fmt.Errorf ("源仓库中未找到分支或标签: " ++ FromRef opts)) /\
        calls h1 = [EvList (FromRepoURL opts) (listOptions (FromAuth opts)) (Ok refs)]
    | Return r, Err _ => r <> None
    end.
Proof.
  rewrite checkSourceRef_run. cbv zeta. cbn [app]. intros H.
  destruct (w_List w _ _ _) as [refs0|e].
  - exists (Ok refs0).
    destruct (classify refs0 (FromRef opts)) eqn:Hc;
      apply pair_equal_spec in H as [<- <-]; repeat split; congruence.
  - exists (Err e). apply pair_equal_spec in H as [<- <-]. repeat split. discriminate.
Qed.




(** What step 1 leaves behind when the operation goes on. *)
Lemma checkSourceRef_Next (w : World) (opts : GitOperationOptions)
    (h1 : History) (rt : RefType) :
  checkSourceRef w opts [] = (h1, Next rt) ->
  exists refs,
    h1 = [EvLog ("正在从 " ++ FromRepoURL opts ++ " 获取引用列表...");
          EvList (FromRepoURL opts) (listOptions (FromAuth opts)) (Ok refs);
          EvLog (classifyLog rt (FromRef opts))] /\
    rt = classify refs (FromRef opts) /\ rt <> RefTypeUnknown.
Proof.
  rewrite checkSourceRef_run. cbv zeta. cbn [app]. intros H.
  destruct (w_List w _ _ _) as [refs0|e]; [|discriminate H].
  exists refs0.
  destruct (classify refs0 (FromRef opts)) eqn:Hc;
    apply pair_equal_spec in H as [<- H]; try discriminate H;
    injection H as <-; repeat split; congruence.
Qed.


(** ** The shell pipeline *)

Module ScriptProofs.
Import Script ScriptTrace ScriptParts.

Lemma script_split (w : ShWorld) (v : Vars) (h : list ShEvent) :
script w v h =
(beforeClone w v ;;
 '(REF_TYPE, seconds) <- cloneToRemote w v ;;
 REMOTE_TEMP <- publish w v REF_TYPE seconds ;;
 cleanup w v seconds REMOTE_TEMP ;;
 exit 0) h.
Proof.
unfold script, beforeClone, cloneToRemote, publish.
rewrite (bind_assoc (validate v)). apply bind_ext. intros _ h1.
apply bind_ext. intros _ h2.
rewrite (bind_assoc (cloneSource w v)). apply bind_ext. intros _ h3.
rewrite (bind_assoc (resolveCommit w v)). apply bind_ext. intros [RT C] h4.
rewrite (bind_assoc (createTempBranch w C)). apply bind_ext. intros secs h5.
rewrite (bind_assoc (addRemote w v)). apply bind_ext. intros _ h6.
rewrite bind_ret_l. cbv beta iota.
rewrite (bind_assoc (pushObjects w v secs)). apply bind_ext. intros R h7.
rewrite (bind_assoc (pushReference w v RT)). apply bind_ext. intros _ h8.
reflexivity.
Qed.

Ltac sh_emits :=
unfold beforeClone, cloneToRemote, publish, validate, precheck, cloneSource, resolveCommit,
  createTempBranch, addRemote, pushObjects, pushReference, cleanup, sh, echo, exit;
repeat emits_step.

Lemma beforeClone_emits (w : ShWorld) (v : Vars) :
emits (fun ev => isGitClone ev = false /\ local ev) (beforeClone w v).
Proof. sh_emits; repeat split; reflexivity. Qed.

Lemma cloneToRemote_emits (w : ShWorld) (v : Vars) :
emits (fun ev => keeps ev /\ local ev) (cloneToRemote w v).
Proof. sh_emits; repeat split; reflexivity. Qed.

Lemma publish_emits (w : ShWorld) (v : Vars) (RT secs : string) :
emits keeps (publish w v RT secs).
Proof. sh_emits; reflexivity. Qed.

Ltac sh_red_in H :=
cbv beta iota zeta delta
  [bind ret return_ emit ask when sh echo exit fst snd ne0 negb andb orb isEmpty] in H.

Ltac sh_cases H :=
sh_red_in H;
repeat (match type of H with
        | context [match ?x with _ => _ end] =>
            lazymatch x with
            | context [match _ with _ => _ end] => fail
            | _ => destruct x eqn:?
            end
        end; sh_red_in H);
rewrite <- ?app_assoc in H; cbn [app] in H.

Section Sections.
Variable w : ShWorld.
Variable v : Vars.

Lemma resolveCommit_kind (h h' : list ShEvent) (RT C : string) :
resolveCommit w v h = (h', Next (RT, C)) -> RT = "tag"%string \/ RT = "branch"%string.
Proof.
unfold resolveCommit. intros H. sh_cases H;
  apply pair_equal_spec in H as [_ H]; try discriminate H;
  injection H as <- _; auto.
Qed.

Lemma createTempBranch_seconds (C : string) (h h' : list ShEvent) (seconds : string) :
createTempBranch w C h = (h', Next seconds) ->
exists st out tail, h' = h ++ Run (date "+%s") st out :: tail /\ seconds = chomp out.
Proof.
unfold createTempBranch. intros H. sh_cases H;
  apply pair_equal_spec in H as [<- H]; try discriminate H;
  injection H as <-; do 3 eexists; split; reflexivity.
Qed.

Lemma cloneToRemote_value (h h' : list ShEvent) (RT seconds : string) :
cloneToRemote w v h = (h', Next (RT, seconds)) ->
(RT = "tag"%string \/ RT = "branch"%string) /\
exists st out, In (Run (date "+%s") st out) h' /\ seconds = chomp out.
Proof.
unfold cloneToRemote. intros H.
apply bind_inv in H as [(r & _ & [=]) | (u1 & h1 & _ & H)].
apply bind_inv in H as [(r & _ & [=]) | ([RT' C] & h2 & H2 & H)].
apply bind_inv in H as [(r & _ & [=]) | (secs & h3 & H3 & H)].
apply bind_inv in H as [(r & _ & [=]) | (u4 & h4 & H4 & H)].
unfold ret in H. injection H as E1 E2 E3. subst h' RT' secs.
split; [eapply resolveCommit_kind; eassumption|].
apply createTempBranch_seconds in H3 as (st & out & tail & -> & ->).
assert (Hem : emits (fun _ => True) (addRemote w v)) by (sh_emits; exact I).
destruct (emits_run _ _ _ _ _ Hem H4) as (evs & -> & _).
exists st, out. split; [|reflexivity].
apply in_or_app. left. apply in_or_app. right. now left.
Qed.

(** Sections 8 and 9, event by event. *)
Lemma publish_inv (RT seconds : string) (h h' : list ShEvent) (s : Step nat string) :
RT = "tag"%string \/ RT = "branch"%string ->
publish w v RT seconds h = (h', s) ->
exists st listing evs rest,
  h' = h ++ evs /\
  filter isLsRemote evs =
    [Run (git_ls_remote (DEST_REPO_URL_AUTH v) "refs/heads/main") st listing] /\
  deletes evs = [] /\
  (rest = [] \/ rest = [("refs/tags/" ++ SOURCE_REF v)%string]
   \/ rest = [("refs/heads/" ++ SOURCE_REF v)%string]) /\
  (grep_q "main" listing = true ->
     pushSpecs evs =
       (TEMP_LOCAL_BRANCH_NAME seconds ++ ":" ++ REMOTE_TEMP_BRANCH_FOR_OBJECTS seconds)%string
       :: rest /\
     forall R, s = Next R -> R = REMOTE_TEMP_BRANCH_FOR_OBJECTS seconds) /\
  (grep_q "main" listing = false ->
     pushSpecs evs = (TEMP_LOCAL_BRANCH_NAME seconds ++ ":refs/heads/main")%string :: rest /\
     forall R, s = Next R -> R = ""%string).
Proof.
intros HRT H. unfold publish, pushObjects, pushReference, TARGET_MAIN_BRANCH in H.
destruct HRT as [-> | ->];
  change ("tag" =? "tag")%string with true in H;
  change ("branch" =? "tag")%string with false in H;
  change ("branch" =? "branch")%string with true in H;
  sh_cases H;
  apply pair_equal_spec in H as [<- <-];
  do 4 eexists;
  (split; [reflexivity|]);
  (split; [reflexivity|]);
  (split; [reflexivity|]);
  match goal with
  | |- (?rest = [] \/ _) /\ _ => idtac
  end.
all: cbn [pushSpecs].
all: try (split; [left; reflexivity|];
          split; intros Hg; try congruence;
          split; [reflexivity | intros R [=]; congruence]).
all: try (split; [right; left; reflexivity|];
          split; intros Hg; try congruence;
          split; [reflexivity | intros R [=]; congruence]).
all: try (split; [right; right; reflexivity|];
          split; intros Hg; try congruence;
          split; [reflexivity | intros R [=]; congruence]).
Qed.

End Sections.

Ltac sh_exits :=
unfold beforeClone, cloneToRemote, publish, validate, precheck, cloneSource, resolveCommit,
  createTempBranch, addRemote, pushObjects, pushReference, cleanup, sh, echo, exit;
repeat exits_step.

Section ScriptFacts.
Variable w : ShWorld.
Variable v : Vars.

Lemma beforeClone_exits : exits (fun code => code = 1) (beforeClone w v).
Proof. sh_exits; reflexivity. Qed.

Lemma cloneToRemote_exits : exits (fun code => code = 1) (cloneToRemote w v).
Proof. sh_exits; reflexivity. Qed.

Lemma publish_exits (RT secs : string) : exits (fun code => code = 1) (publish w v RT secs).
Proof. sh_exits; reflexivity. Qed.

(** Section 10, event by event: it never ends the script, it deletes a
  remote branch only when there is one, and its last command removes
  the clone directory. *)
Lemma cleanup_inv (seconds R : string) (h h' : list ShEvent) (s : Step nat unit) :
cleanup w v seconds R h = (h', s) ->
s = Next tt /\
exists evs,
  h' = h ++ evs /\
  pushSpecs evs = [] /\
  filter isLsRemote evs = [] /\
  (R = ""%string -> deletes evs = []) /\
  exists pre st out post,
    evs = pre ++ Run (rm_rf (LOCAL_CLONE_DIR v)) st out :: post /\
    forallb isEcho post = true /\
    (ne0 st = true ->
     In (Echo ("Warning: Failed to delete temporary clone directory. Please clean it up manually: 'rm -rf "
               ++ LOCAL_CLONE_DIR v ++ "'")) post).
Proof.
unfold cleanup. intros H. sh_cases H;
  apply pair_equal_spec in H as [<- <-];
  (split; [reflexivity|]);
  eexists; (split; [reflexivity|]);
  (split; [reflexivity|]);
  (split; [reflexivity|]);
  (split; [first [reflexivity
                 | intros ->; discriminate]|]).
all: try match goal with H : (0 =? 0)%nat = false |- _ => discriminate H end.
all: first
       [ eexists [_; _; _; _; _; _; _], _, _, _; split; [reflexivity|]
       | eexists [_; _; _; _; _; _], _, _, _; split; [reflexivity|]
       | eexists [_; _; _; _; _], _, _, _; split; [reflexivity|]
       | eexists [_; _; _; _], _, _, _; split; [reflexivity|] ].
all: split; [reflexivity|].
all: unfold ne0;
  match goal with H : (?n =? 0)%nat = _ |- negb (?n =? 0)%nat = true -> _ => rewrite H end;
  cbn [negb]; intros Hw; first [discriminate Hw | left; reflexivity].
Qed.

End ScriptFacts.

Section TraceFacts.

Lemma pushSpecs_app (a b : list ShEvent) : pushSpecs (a ++ b) = pushSpecs a ++ pushSpecs b.
Proof.
induction a as [|ev a IH]; [reflexivity|].
destruct ev as [[] ? ?| |]; cbn [app pushSpecs]; rewrite ?IH; reflexivity.
Qed.

Lemma deletes_app (a b : list ShEvent) : deletes (a ++ b) = deletes a ++ deletes b.
Proof.
induction a as [|ev a IH]; [reflexivity|].
destruct ev as [[] ? ?| |]; cbn [app deletes]; rewrite ?IH; reflexivity.
Qed.

Lemma local_pushSpecs (l : list ShEvent) : Forall local l -> pushSpecs l = [].
Proof.
induction 1 as [|ev l (Hp & _) _ IH]; [reflexivity|].
change (ev :: l) with ([ev] ++ l). now rewrite pushSpecs_app, Hp, IH.
Qed.

Lemma local_deletes (l : list ShEvent) : Forall local l -> deletes l = [].
Proof.
induction 1 as [|ev l (_ & Hd & _) _ IH]; [reflexivity|].
change (ev :: l) with ([ev] ++ l). now rewrite deletes_app, Hd, IH.
Qed.

Lemma local_lsRemote (l : list ShEvent) : Forall local l -> filter isLsRemote l = [].
Proof.
induction 1 as [|ev l (_ & _ & Hl) _ IH]; [reflexivity|].
cbn [filter]. now rewrite Hl.
Qed.

Lemma afterClone_app (a b : list ShEvent) :
Forall (fun ev => isGitClone ev = false) a -> afterClone (a ++ b) = afterClone b.
Proof.
induction 1 as [|ev a Hev _ IH]; [reflexivity|].
destruct ev as [[] ? ?| |]; cbn [app afterClone]; try exact IH. discriminate Hev.
Qed.

Lemma afterClone_Forall (P : ShEvent -> Prop) (l : list ShEvent) :
Forall P l -> Forall P (afterClone l).
Proof.
induction 1 as [|ev l Hev Hl IH]; [constructor|].
destruct ev as [[] ? ?| |]; cbn [afterClone]; assumption.
Qed.

Lemma keeps_forallb (l : list ShEvent) :
Forall keeps l -> forallb (fun ev => negb (isRmRf ev)) l = true.
Proof.
induction 1 as [|ev l Hev _ IH]; [reflexivity|].
cbn [forallb]. unfold keeps in Hev. now rewrite Hev, IH.
Qed.

End TraceFacts.

Lemma script_run_inv (m : Sh unit) (h : list ShEvent) (code : nat) :
Script.run m = (h, code) ->
exists s, m [] = (h, s) /\ code = match s with Next _ => 0 | Return c => c end.
Proof.
unfold Script.run. destruct (m []) as [h' [a|r]]; intros H; injection H as <- <-.
- now exists (Next a).
- now exists (Return r).
Qed.

(** How far a run of the script got. *)
Lemma script_cases (w : ShWorld) (v : Vars) (h : list ShEvent) (code : nat) :
Script.run (script w v) = (h, code) ->
(code = 1 /\ Forall (fun ev => isGitClone ev = false /\ local ev) h) \/
(exists h0 evs1,
    Forall (fun ev => isGitClone ev = false /\ local ev) h0 /\
    Forall (fun ev => keeps ev /\ local ev) evs1 /\
    ((code = 1 /\ h = h0 ++ evs1) \/
     exists RT seconds evs2 s2,
       cloneToRemote w v h0 = (h0 ++ evs1, Next (RT, seconds)) /\
       publish w v RT seconds (h0 ++ evs1) = (h0 ++ evs1 ++ evs2, s2) /\
       Forall keeps evs2 /\
       ((code = 1 /\ s2 = Return 1 /\ h = h0 ++ evs1 ++ evs2) \/
        exists R evs3,
          s2 = Next R /\
          cleanup w v seconds R (h0 ++ evs1 ++ evs2) = (h0 ++ evs1 ++ evs2 ++ evs3, Next tt) /\
          code = 0 /\ h = h0 ++ evs1 ++ evs2 ++ evs3))).
Proof.
intros H. apply script_run_inv in H as (s & H & ->).
rewrite script_split in H.
apply bind_inv in H as [(r & H & ->) | ([] & h0 & H & H1)].
{ left. split; [exact (beforeClone_exits w v _ _ _ H)|].
  destruct (emits_run _ _ _ _ _ (beforeClone_emits w v) H) as (evs & -> & F). exact F. }
right.
destruct (emits_run _ _ _ _ _ (beforeClone_emits w v) H) as (evs0 & -> & F0).
cbn [app] in *. exists evs0.
apply bind_inv in H1 as [(r & H1 & ->) | ([RT seconds] & h1 & H1 & H2)].
{ destruct (emits_run _ _ _ _ _ (cloneToRemote_emits w v) H1) as (evs1 & -> & F1).
  exists evs1. split; [exact F0|]. split; [exact F1|]. left.
  split; [exact (cloneToRemote_exits w v _ _ _ H1) | reflexivity]. }
destruct (emits_run _ _ _ _ _ (cloneToRemote_emits w v) H1) as (evs1 & -> & F1).
exists evs1. split; [exact F0|]. split; [exact F1|]. right.
exists RT, seconds.
apply bind_inv in H2 as [(r & H2 & ->) | (R & h2 & H2 & H3)].
{ destruct (emits_run _ _ _ _ _ (publish_emits w v RT seconds) H2) as (evs2 & -> & F2).
  pose proof (publish_exits w v RT seconds _ _ _ H2) as ->.
  exists evs2, (Return 1). rewrite <- app_assoc in H2.
  repeat split; try assumption. left. now rewrite <- app_assoc. }
destruct (emits_run _ _ _ _ _ (publish_emits w v RT seconds) H2) as (evs2 & -> & F2).
exists evs2, (Next R). rewrite <- app_assoc in H2, H3.
repeat split; try assumption. right.
apply bind_inv in H3 as [(r & H3 & _) | ([] & h3 & H3 & H4)].
{ apply cleanup_inv in H3 as ([=] & _). }
pose proof H3 as H3'.
apply cleanup_inv in H3' as (_ & evs3 & E3 & _).
rewrite <- !app_assoc in E3. subst h3.
unfold exit, return_ in H4. injection H4 as <- <-.
exists R, evs3. repeat split; assumption.
Qed.

Section LsRemote.

Lemma append_assoc' (a b c : string) : ((a ++ b) ++ c = a ++ (b ++ c))%string.
Proof. induction a as [|x a IH]; cbn; [reflexivity | now rewrite IH]. Qed.

Lemma Contains_middle (a b sub : string) :
strings.Contains (a ++ sub ++ b)%string sub = true.
Proof. apply Contains_app_r, Contains_app_l. Qed.

Lemma grep_found (refs : list (Hash * string)) (hash : Hash) :
In (hash, "refs/heads/main"%string) refs ->
grep_q "main" (ls_remote_output refs "refs/heads/main") = true.
Proof.
unfold grep_q. induction refs as [|[hash' name] refs IH]; [intros []|].
intros [[= -> ->] | Hin].
- cbn [ls_remote_output].
  change (tail_match "refs/heads/main" "refs/heads/main") with true. cbv iota.
  change ("refs/heads/main" ++ LF ++ ls_remote_output refs "refs/heads/main")%string
    with ("refs/heads/" ++ "main" ++ LF ++ ls_remote_output refs "refs/heads/main")%string.
  rewrite <- (append_assoc' TAB), <- (append_assoc' hash).
  apply Contains_middle.
- cbn [ls_remote_output]. destruct (tail_match _ name); [|now apply IH].
  rewrite <- !append_assoc'. now apply Contains_app_r, IH.
Qed.

Lemma grep_none (refs : list (Hash * string)) :
(forall hash name, In (hash, name) refs -> tail_match "refs/heads/main" name = false) ->
grep_q "main" (ls_remote_output refs "refs/heads/main") = false.
Proof.
intros H. assert (E : ls_remote_output refs "refs/heads/main" = ""%string).
{ induction refs as [|[hash name] refs IH]; [reflexivity|].
  cbn [ls_remote_output]. rewrite (H hash name (or_introl eq_refl)).
  apply IH. intros hash' name' Hin. apply (H hash' name'). now right. }
now rewrite E.
Qed.

Lemma REMOTE_TEMP_injective (s1 s2 : string) :
REMOTE_TEMP_BRANCH_FOR_OBJECTS s1 = REMOTE_TEMP_BRANCH_FOR_OBJECTS s2 -> s1 = s2.
Proof.
unfold REMOTE_TEMP_BRANCH_FOR_OBJECTS, TEMP_LOCAL_BRANCH_NAME. intros H.
now apply append_inv_head, append_inv_head in H.
Qed.

End LsRemote.

Lemma script_strategy (w : ShWorld) (v : Vars) (h : list ShEvent) (code st : nat)
  (listing : string) :
Script.run (script w v) = (h, code) ->
In (Run (git_ls_remote (DEST_REPO_URL_AUTH v) "refs/heads/main") st listing) h ->
exists seconds rest,
  (exists st' out, In (Run (date "+%s") st' out) h /\ seconds = chomp out) /\
  (rest = [] \/ rest = [("refs/tags/" ++ SOURCE_REF v)%string]
   \/ rest = [("refs/heads/" ++ SOURCE_REF v)%string]) /\
  (grep_q "main" listing = true ->
     pushSpecs h =
       (TEMP_LOCAL_BRANCH_NAME seconds ++ ":" ++ REMOTE_TEMP_BRANCH_FOR_OBJECTS seconds)%string
       :: rest) /\
  (grep_q "main" listing = false ->
     pushSpecs h = (TEMP_LOCAL_BRANCH_NAME seconds ++ ":refs/heads/main")%string :: rest /\
     deletes h = []).
Proof.
intros Hrun Hin.
assert (Hls : forall l : list ShEvent, In (Run (git_ls_remote (DEST_REPO_URL_AUTH v) "refs/heads/main") st listing) l ->
               In (Run (git_ls_remote (DEST_REPO_URL_AUTH v) "refs/heads/main") st listing) (filter isLsRemote l)).
{ intros l Hl. apply filter_In. now split. }
assert (Hl0 : forall l, Forall (fun ev => isGitClone ev = false /\ local ev) l -> Forall local l).
{ intros l. apply Forall_impl. now intros ev [_ ?]. }
assert (Hl1 : forall l, Forall (fun ev => keeps ev /\ local ev) l -> Forall local l).
{ intros l. apply Forall_impl. now intros ev [_ ?]. }
apply script_cases in Hrun
  as [(_ & F) | (h0 & evs1 & F0 & F1 & [(_ & ->) | (RT & seconds & evs2 & s2 & Hc & Hp & F2 & Hrest)])].
{ apply Hls in Hin. rewrite (local_lsRemote _ (Hl0 _ F)) in Hin. destruct Hin. }
{ apply Hls in Hin.
  rewrite filter_app, (local_lsRemote _ (Hl0 _ F0)), (local_lsRemote _ (Hl1 _ F1)) in Hin.
  destruct Hin. }
apply cloneToRemote_value in Hc as (HRT & st' & out & Hdate & ->).
apply (publish_inv w v _ _ _ _ _ HRT) in Hp
  as (st2 & listing2 & evs & rest & E & Hls2 & Hdel & Hrest2 & Hyes & Hno).
rewrite app_assoc in E. apply app_inv_head in E. subst evs.
exists (chomp out), rest.
assert (Hsame : forall evs3, filter isLsRemote evs3 = [] ->
          h = h0 ++ evs1 ++ evs2 ++ evs3 -> listing2 = listing).
{ intros evs3 H3 ->. apply Hls in Hin.
  rewrite !filter_app, (local_lsRemote _ (Hl0 _ F0)), (local_lsRemote _ (Hl1 _ F1)),
    Hls2, H3 in Hin.
  cbn in Hin. destruct Hin as [[=]|[]]. assumption. }
destruct Hrest as [(_ & _ & ->) | (R & evs3 & -> & Hcl & _ & ->)].
- assert (listing2 = listing) as -> by (apply (Hsame []); [reflexivity | now rewrite app_nil_r]).
  split; [exists st', out; split; [|reflexivity]|].
  { rewrite app_assoc. apply in_or_app. now left. }
  split; [exact Hrest2|].
  rewrite !pushSpecs_app, !deletes_app,
    (local_pushSpecs _ (Hl0 _ F0)), (local_pushSpecs _ (Hl1 _ F1)),
    (local_deletes _ (Hl0 _ F0)), (local_deletes _ (Hl1 _ F1)), Hdel.
  cbn [app]. split; intros Hg.
  + now apply Hyes.
  + split; [now apply Hno | reflexivity].
- apply cleanup_inv in Hcl as (_ & evs3' & E3 & Hp3 & Hl3 & Hd3 & _).
  rewrite !app_assoc in E3. apply app_inv_head in E3. subst evs3'.
  assert (listing2 = listing) as -> by (now apply (Hsame evs3)).
  split; [exists st', out; split; [|reflexivity]|].
  { rewrite app_assoc. apply in_or_app. now left. }
  split; [exact Hrest2|].
  rewrite !pushSpecs_app, !deletes_app,
    (local_pushSpecs _ (Hl0 _ F0)), (local_pushSpecs _ (Hl1 _ F1)),
    (local_deletes _ (Hl0 _ F0)), (local_deletes _ (Hl1 _ F1)), Hdel, Hp3.
  cbn [app]. rewrite app_nil_r. split; intros Hg.
  + now apply Hyes.
  + destruct (Hno Hg) as (Hps & HR). split; [exact Hps|].
    apply Hd3. now apply HR.
Qed.

Lemma script_cleanup_success (w : ShWorld) (v : Vars) (h : list ShEvent) :
Script.run (script w v) = (h, 0) ->
exists pre st out post,
  h = pre ++ Run (rm_rf (LOCAL_CLONE_DIR v)) st out :: post /\
  forallb isEcho post = true /\
  (ne0 st = true ->
   In (Echo ("Warning: Failed to delete temporary clone directory. Please clean it up manually: 'rm -rf "
             ++ LOCAL_CLONE_DIR v ++ "'")) post).
Proof.
intros Hrun.
apply script_cases in Hrun
  as [([=] & _) | (h0 & evs1 & _ & _ & [([=] & _) | (RT & seconds & evs2 & s2 & _ & _ & _ & Hrest)])].
destruct Hrest as [([=] & _) | (R & evs3 & _ & Hcl & _ & ->)].
apply cleanup_inv in Hcl as (_ & evs3' & E3 & _ & _ & _ & pre & st & out & post & Eevs & Hpost).
rewrite !app_assoc in E3. apply app_inv_head in E3. subst evs3 evs3'.
exists (((h0 ++ evs1) ++ evs2) ++ pre), st, out, post.
split; [|exact Hpost]. now rewrite <- !app_assoc.
Qed.

Lemma script_cleanup_failure (w : ShWorld) (v : Vars) (h : list ShEvent) (code : nat) :
Script.run (script w v) = (h, code) ->
code <> 0 ->
forallb (fun ev => negb (isRmRf ev)) (afterClone h) = true.
Proof.
intros Hrun Hcode.
assert (Hk : forall l, Forall (fun ev => keeps ev /\ local ev) l -> Forall keeps l).
{ intros l. apply Forall_impl. now intros ev [? _]. }
assert (Hc : forall l, Forall (fun ev => isGitClone ev = false /\ local ev) l ->
                       Forall (fun ev => isGitClone ev = false) l).
{ intros l. apply Forall_impl. now intros ev [? _]. }
apply script_cases in Hrun
  as [(_ & F) | (h0 & evs1 & F0 & F1 & [(_ & ->) | (RT & seconds & evs2 & s2 & _ & _ & F2 & Hrest)])].
- rewrite <- (app_nil_r h), (afterClone_app _ _ (Hc _ F)). reflexivity.
- rewrite (afterClone_app _ _ (Hc _ F0)).
  apply keeps_forallb, afterClone_Forall, Hk, F1.
- destruct Hrest as [(_ & _ & ->) | (R & evs3 & _ & _ & -> & _)]; [|contradiction].
  rewrite (afterClone_app _ _ (Hc _ F0)).
  apply keeps_forallb, afterClone_Forall, Forall_app. split; [apply Hk, F1 | exact F2].
Qed.

End ScriptProofs.

(** The policy plays no part before the push. *)
Lemma withPolicy_prepare (w : World) (opts : GitOperationOptions) (policy : string) :
  prepare w (withPolicy policy opts) = prepare w opts.
Proof. reflexivity. Qed.

(** * The claims *)

Local Open Scope prog_scope.

(** C2. For every remote whose reference list contains a name both as
    [refs/tags/<name>] and as [refs/heads/<name>], the classification of
    that name is Tag: whatever the history [h] at which
    [checkRemoteRefExistence] is called, if the listing it asks for is
    answered with [refs], the function returns [RefTypeTag] and no error. *)
Theorem tag_wins_over_branch (w : World) (repoURL refName : string) (auth : GitAuthMethod)
    (h h' evs : History) (s : Step (option error) (RefType * option error))
    (refs : list plumbing.ReferenceName) :
  checkRemoteRefExistence w repoURL refName auth h = (h', s) ->
  h' = h ++ evs ->
  listingIn evs = Some (Ok refs) ->
  In (plumbing.NewTagReferenceName refName) refs ->
  In (plumbing.NewBranchReferenceName refName) refs ->
  s = Next (RefTypeTag, None).
Proof.
  intros H -> Hl Htag _.
  rewrite checkRemoteRefExistence_run in H. cbv zeta in H.
  destruct (w_List w _ _ _) as [refs0|e];
    apply pair_equal_spec in H as [H <-]; apply app_inv_head in H; subst evs;
    cbn in Hl; [|discriminate Hl].
  injection Hl as ->.
  apply classify_Tag in Htag. now rewrite Htag.
Qed.

Lemma tag_wins_over_branch_witness :
  In (plumbing.NewTagReferenceName "release") Example.ambiguous /\
  In (plumbing.NewBranchReferenceName "release") Example.ambiguous /\
  snd (checkRemoteRefExistence Example.ambiguousWorld "https://git.example/fy-dev/iris"
         "release" None []) = Next (RefTypeTag, None).
Proof.
  split; [cbn; tauto|]. split; [cbn; tauto|].
  apply (tag_wins_over_branch Example.ambiguousWorld "https://git.example/fy-dev/iris"
           "release" None []
           (fst (checkRemoteRefExistence Example.ambiguousWorld
                   "https://git.example/fy-dev/iris" "release" None []))
           (fst (checkRemoteRefExistence Example.ambiguousWorld
                   "https://git.example/fy-dev/iris" "release" None []))
           _ Example.ambiguous).
  - apply surjective_pairing.
  - reflexivity.
  - vm_compute. reflexivity.
  - cbn. tauto.
  - cbn. tauto.
Defined.

(** C5. For every push whose returned error message contains the known
    transport-quirk string, the operation treats the push as a success: it
    logs the line of a successful push and returns no error. *)
Theorem quirk_push_is_success (w : World) (opts : GitOperationOptions)
    (h : History) (err : option error) (po : PushOptions) (e : error) :
  run (PerformGitOperation w opts) = (h, err) ->
  In (EvPush po (Some e)) h ->
  strings.Contains (Error e) unpackOkQuirk = true ->
  err = None /\ last h (EvLog "") = EvLog "内容已成功推送到目标仓库。".
Proof.
  intros Hrun Hin Hq.
  apply PerformGitOperation_cases in Hrun
    as [(F & _) | (h0 & po0 & r & F & _ & Hexec & ->)].
  - rewrite Forall_forall in F. apply F in Hin. discriminate Hin.
  - push_cases Hexec; find_push; try congruence.
    split; [reflexivity|]. now rewrite last_app_cons.
Qed.

Lemma quirk_push_is_success_witness :
  snd (run (PerformGitOperation (Example.world None (Some Example.unpackOk))
              (Example.options "v0.0.1" "" "error"))) = None /\
  last (fst (run (PerformGitOperation (Example.world None (Some Example.unpackOk))
                    (Example.options "v0.0.1" "" "error")))) (EvLog "")
  = EvLog "内容已成功推送到目标仓库。".
Proof.
  apply (quirk_push_is_success (Example.world None (Some Example.unpackOk))
           (Example.options "v0.0.1" "" "error") _ _
           (pushOptions (Example.options "v0.0.1" "" "error") ["refs/tags/*:refs/tags/*"%string])
           Example.unpackOk).
  - apply surjective_pairing.
  - vm_compute. repeat (first [left; reflexivity | right]).
  - vm_compute. reflexivity.
Defined.

(** C4. For every operation whose push reports already-up-to-date and
    whose re-classification of the reference on the destination says Tag,
    the tag-conflict policy decides: under ["error"] the operation fails
    with the error that the tag already exists; under ["skip"] it returns
    no error and its last log line says the push was skipped.  When the
    re-classification says anything else the policy is not consulted: the
    operation fails with the push error, whatever the policy. *)
Theorem tag_conflict_policy (w : World) (opts : GitOperationOptions)
    (h : History) (err : option error) (po : PushOptions) (e : error)
    (refs : list plumbing.ReferenceName) :
  run (PerformGitOperation w opts) = (h, err) ->
  In (EvPush po (Some e)) h ->
  errors.Is (Some e) NoErrAlreadyUpToDate = true ->
  strings.Contains (Error e) unpackOkQuirk = false ->
  listingIn (afterPush h) = Some (Ok refs) ->
  (classify refs (destTag opts) = RefTypeTag ->
     (OnTagExistsBehavior opts = "error"%string ->
        err = Some (fmt.Errorf ("标签 '" ++ destTag opts ++ "' 已存在于目标仓库，且配置为报错模式。")))
     /\
     (OnTagExistsBehavior opts = "skip"%string ->
        err = None /\
        last h (EvLog "") = EvLog ("标签 '" ++ destTag opts ++ "' 已存在于目标仓库，已跳过推送。")))
  /\
  (classify refs (destTag opts) <> RefTypeTag ->
     err = Some (fmt.Errorf_w "推送失败: " None)).
Proof.
  intros Hrun Hin His Hq Hlist.
  apply PerformGitOperation_cases in Hrun
    as [(F & _) | (h0 & po0 & r & F & _ & Hexec & ->)].
  - rewrite Forall_forall in F. apply F in Hin. discriminate Hin.
  - push_cases Hexec; find_push; try congruence;
      rewrite (afterPush_app _ _ F) in Hlist; cbn in Hlist; try discriminate Hlist;
      injection Hlist as <-.
    all: repeat match goal with
                | H : (_ =? _)%string = true |- _ => apply String.eqb_eq in H
                | H : (_ =? _)%string = false |- _ => apply String.eqb_neq in H
                end.
    all: split; [intros Ht; split; intros Hp | intros Ht]; try congruence.
    all: try (split; [reflexivity|]; now rewrite last_app_cons).
    all: reflexivity.
Qed.

Lemma tag_conflict_policy_witness :
  snd (run (PerformGitOperation (Example.world None (Some (sentinel NoErrAlreadyUpToDate)))
              (Example.options "v0.0.1" "" "skip"))) = None /\
  snd (run (PerformGitOperation (Example.world None (Some (sentinel NoErrAlreadyUpToDate)))
              (Example.options "v0.0.1" "" "error")))
  = Some (fmt.Errorf "标签 'v0.0.1' 已存在于目标仓库，且配置为报错模式。").
Proof.
  split.
  - refine (proj1 (proj2 (proj1
      (tag_conflict_policy (Example.world None (Some (sentinel NoErrAlreadyUpToDate)))
         (Example.options "v0.0.1" "" "skip") _ _
         (pushOptions (Example.options "v0.0.1" "" "skip") ["refs/tags/*:refs/tags/*"%string])
         (sentinel NoErrAlreadyUpToDate) Example.destRefs _ _ _ _ _) _) _)).
    + apply surjective_pairing.
    + vm_compute. repeat (first [left; reflexivity | right]).
    + reflexivity.
    + vm_compute. reflexivity.
    + vm_compute. reflexivity.
    + vm_compute. reflexivity.
    + reflexivity.
  - refine (proj1 (proj1
      (tag_conflict_policy (Example.world None (Some (sentinel NoErrAlreadyUpToDate)))
         (Example.options "v0.0.1" "" "error") _ _
         (pushOptions (Example.options "v0.0.1" "" "error") ["refs/tags/*:refs/tags/*"%string])
         (sentinel NoErrAlreadyUpToDate) Example.destRefs _ _ _ _ _) _) _).
    + apply surjective_pairing.
    + vm_compute. repeat (first [left; reflexivity | right]).
    + reflexivity.
    + vm_compute. reflexivity.
    + vm_compute. reflexivity.
    + vm_compute. reflexivity.
    + reflexivity.
Defined.

(** C10. For every operation whose push reports already-up-to-date and
    whose re-classification on the destination says Tag, a policy string
    that is neither ["error"] nor ["skip"] makes the operation return the
    unknown-behaviour error; and with any other policy string the
    operation does the same up to that point: its history is this one,
    followed at most by the log line of a skipped push. *)
Theorem unknown_policy_is_an_error (w : World) (opts : GitOperationOptions)
    (h : History) (err : option error) (po : PushOptions) (e : error)
    (refs : list plumbing.ReferenceName) :
  run (PerformGitOperation w opts) = (h, err) ->
  In (EvPush po (Some e)) h ->
  errors.Is (Some e) NoErrAlreadyUpToDate = true ->
  strings.Contains (Error e) unpackOkQuirk = false ->
  listingIn (afterPush h) = Some (Ok refs) ->
  classify refs (destTag opts) = RefTypeTag ->
  OnTagExistsBehavior opts <> "error"%string ->
  OnTagExistsBehavior opts <> "skip"%string ->
  err = Some (fmt.Errorf ("未知的 --on-tag-exists 行为: " ++ OnTagExistsBehavior opts)) /\
  forall policy : string,
    exists tail : History,
      fst (run (PerformGitOperation w (withPolicy policy opts))) = h ++ tail /\
      (tail = [] \/
       tail = [EvLog ("标签 '" ++ destTag opts ++ "' 已存在于目标仓库，已跳过推送。")]).
Proof.
  intros Hrun Hin His Hq Hlist Htag Hne Hns.
  apply PerformGitOperation_cases in Hrun
    as [(F & _) | (h0 & po0 & r & F & Hprep & Hexec & ->)].
  { rewrite Forall_forall in F. apply F in Hin. discriminate Hin. }
  assert (Hpolicy : forall policy : string,
             exists tail : History,
               fst (executePush w (withPolicy policy opts) po0 h0) = h ++ tail /\
               (tail = [] \/
                tail = [EvLog ("标签 '" ++ destTag opts ++ "' 已存在于目标仓库，已跳过推送。")])).
  { intros policy. rewrite executePush_run. cbv zeta.
    change (ToRepoURL (withPolicy policy opts)) with (ToRepoURL opts).
    change (ToAuth (withPolicy policy opts)) with (ToAuth opts).
    change (destTag (withPolicy policy opts)) with (destTag opts).
    change (OnTagExistsBehavior (withPolicy policy opts)) with policy.
    rewrite executePush_run in Hexec. cbv zeta in Hexec.
    assert (Hnil : forall l : History, exists tail : History,
               l = l ++ tail /\
               (tail = [] \/
                tail = [EvLog ("标签 '" ++ destTag opts ++ "' 已存在于目标仓库，已跳过推送。")])).
    { intros l. exists []. rewrite app_nil_r. auto. }
    destruct (w_Push w _ po0) as [e0|];
      [|apply pair_equal_spec in Hexec as [<- _]; apply Hnil].
    destruct (strings.Contains (Error e0) unpackOkQuirk);
      [apply pair_equal_spec in Hexec as [<- _]; apply Hnil|].
    destruct (errors.Is (Some e0) NoErrAlreadyUpToDate);
      [|apply pair_equal_spec in Hexec as [<- _]; apply Hnil].
    destruct (w_List w _ _ _) as [refs0|e'];
      [|apply pair_equal_spec in Hexec as [<- _]; apply Hnil].
    destruct (classify refs0 (destTag opts)) eqn:Hc;
      try (apply pair_equal_spec in Hexec as [<- _]; apply Hnil).
    apply String.eqb_neq in Hne, Hns. rewrite Hne, Hns in Hexec.
    apply pair_equal_spec in Hexec as [<- _].
    destruct (policy =? "error")%string; [apply Hnil|].
    destruct (policy =? "skip")%string; [|apply Hnil].
    eexists. split; [reflexivity | now right]. }
  split.
  - push_cases Hexec; find_push; try congruence;
      rewrite (afterPush_app _ _ F) in Hlist; cbn in Hlist; try discriminate Hlist;
      injection Hlist as <-; try congruence.
    all: repeat match goal with
                | H : (_ =? _)%string = true |- _ => apply String.eqb_eq in H
                end; try congruence.
    reflexivity.
  - intros policy. unfold run.
    rewrite PerformGitOperation_split. unfold bind.
    rewrite withPolicy_prepare, Hprep.
    destruct (Hpolicy policy) as (tail & Et & Ht).
    exists tail. split; [|exact Ht].
    destruct (executePush w (withPolicy policy opts) po0 h0) as [h' [[]|r']]; exact Et.
Qed.

Lemma unknown_policy_is_an_error_witness :
  snd (run (PerformGitOperation (Example.world None (Some (sentinel NoErrAlreadyUpToDate)))
              (Example.options "v0.0.1" "" "overwrite")))
  = Some (fmt.Errorf "未知的 --on-tag-exists 行为: overwrite").
Proof.
  refine (proj1
    (unknown_policy_is_an_error (Example.world None (Some (sentinel NoErrAlreadyUpToDate)))
       (Example.options "v0.0.1" "" "overwrite") _ _
       (pushOptions (Example.options "v0.0.1" "" "overwrite") ["refs/tags/*:refs/tags/*"%string])
       (sentinel NoErrAlreadyUpToDate) Example.destRefs _ _ _ _ _ _ _ _)).
  - apply surjective_pairing.
  - vm_compute. repeat (first [left; reflexivity | right]).
  - reflexivity.
  - vm_compute. reflexivity.
  - vm_compute. reflexivity.
  - vm_compute. reflexivity.
  - discriminate.
  - discriminate.
Defined.

(** C6. For every source reference name absent from the source remote,
    the operation fails, and it aborts before any clone attempt: the only
    call it has made is the read-only listing of the source, so neither
    the working directory nor the destination has been touched. *)
Theorem unresolved_source_aborts_before_clone (w : World) (opts : GitOperationOptions)
    (h : History) (err : option error) (refs : list plumbing.ReferenceName) :
  run (PerformGitOperation w opts) = (h, err) ->
  listingIn h = Some (Ok refs) ->
  ~ In (plumbing.NewTagReferenceName (FromRef opts)) refs ->
  ~ In (plumbing.NewBranchReferenceName (FromRef opts)) refs ->
  err = Some (fmt.Errorf ("源仓库中未找到分支或标签: " ++ FromRef opts)) /\
  calls h = [EvList (FromRepoURL opts) (listOptions (FromAuth opts)) (Ok refs)].
Proof.
  intros Hrun Hlist Hnt Hnb.
  assert (Hu : classify refs (FromRef opts) = RefTypeUnknown)
    by (apply classify_Unknown; now split).
  apply run_inv in Hrun as (s & H & ->).
  unfold PerformGitOperation in H.
  apply bind_inv in H as [(r & H & ->) | (rt & h1 & H & H')];
    apply checkSourceRef_inv in H as (res & Hl & _ & Hs).
  - rewrite Hl in Hlist. injection Hlist as ->.
    destruct Hs as (_ & -> & Hcalls). now split.
  - exfalso.
    assert (Hem : emits (fun _ => True)
                    (cloneSource w opts rt ;; configureTargetRemote w opts ;;
                     po <- configurePush w opts rt ;; executePush w opts po))
      by (apply afterCheck_emits; auto).
    destruct (emits_run _ _ _ _ _ Hem H') as (evs & -> & _).
    rewrite (listingIn_app _ _ _ Hl) in Hlist. injection Hlist as ->.
    destruct Hs as [-> Hne]. contradiction.
Qed.

Lemma unresolved_source_aborts_before_clone_witness :
  snd (run (PerformGitOperation (Example.world None None)
              (Example.options "v9.9.9" "" "error")))
  = Some (fmt.Errorf "源仓库中未找到分支或标签: v9.9.9") /\
  calls (fst (run (PerformGitOperation (Example.world None None)
                     (Example.options "v9.9.9" "" "error"))))
  = [EvList "https://git.example/fy-dev/iris"
       (listOptions (FromAuth (Example.options "v9.9.9" "" "error"))) (Ok Example.sourceRefs)].
Proof.
  apply (unresolved_source_aborts_before_clone (Example.world None None)
           (Example.options "v9.9.9" "" "error") _ _ Example.sourceRefs).
  - apply surjective_pairing.
  - vm_compute. reflexivity.
  - cbn. intros H. repeat destruct H as [H|H]; try discriminate H; exact H.
  - cbn. intros H. repeat destruct H as [H|H]; try discriminate H; exact H.
Defined.



(** C3, as the code has it.  For every operation whose destination name
    override is absent, whatever the kind of the source reference, the
    one push of the run carries the single ref-spec
    [refs/tags/*:refs/tags/*]: all local tags are pushed, and a branch
    source is not pushed as [refs/heads/<name>]. *)
Theorem publish_without_override_pushes_all_tags (w : World) (opts : GitOperationOptions)
    (h : History) (err : option error) (po : PushOptions) (res : option error) :
  run (PerformGitOperation w opts) = (h, err) ->
  ToTag opts = ""%string ->
  In (EvPush po res) h ->
  po = pushOptions opts ["refs/tags/*:refs/tags/*"%string] /\
  filter isPush h = [EvPush po res].
Proof.
  intros Hrun Hto Hin.
  destruct (push_shape w opts h err po res Hrun Hin) as (Hone & specs & -> & Hall & _).
  split; [|exact Hone]. now rewrite (Hall Hto).
Qed.

Lemma publish_without_override_pushes_all_tags_witness :
  filter isPush
    (fst (run (PerformGitOperation (Example.world None None)
                 (Example.options "dev" "" "error"))))
  = [EvPush (pushOptions (Example.options "dev" "" "error") ["refs/tags/*:refs/tags/*"%string])
       None].
Proof.
  refine (proj2
    (publish_without_override_pushes_all_tags (Example.world None None)
       (Example.options "dev" "" "error") _ _
       (pushOptions (Example.options "dev" "" "error") ["refs/tags/*:refs/tags/*"%string])
       None (surjective_pairing _) eq_refl _)).
  vm_compute. repeat (first [left; reflexivity | right]).
Defined.

(** C3 fails as stated: the source reference [dev] resolves as a branch,
    no destination name is given, the operation succeeds, and yet no push
    of the run carries a ref-spec that names [refs/heads/dev]. *)
Lemma branch_source_is_not_pushed_as_branch :
  classify Example.sourceRefs "dev" = RefTypeBranch /\
  ToTag (Example.options "dev" "" "error") = ""%string /\
  snd (run (PerformGitOperation (Example.world None None)
              (Example.options "dev" "" "error"))) = None /\
  ~ exists po res spec,
      In (EvPush po res)
         (fst (run (PerformGitOperation (Example.world None None)
                      (Example.options "dev" "" "error")))) /\
      In spec (po_RefSpecs po) /\
      strings.Contains spec "refs/heads/dev" = true.
Proof.
  split; [vm_compute; reflexivity|].
  split; [reflexivity|].
  split; [vm_compute; reflexivity|].
  intros (po & res & spec & Hin & Hspec & Hc).
  vm_compute in Hin.
  repeat (destruct Hin as [Hin|Hin]; [try discriminate Hin|]); try contradiction.
  injection Hin as <- _. cbn in Hspec. destruct Hspec as [<-|[]].
  vm_compute in Hc. discriminate Hc.
Qed.

(** C9, as the code has it.  Every call of a run that goes over the
    network (reference listing, clone, push) is made with the
    verification of the TLS certificate switched off, whatever the
    options of the caller, which have no field to ask for it. *)
Theorem git_transport_always_skips_tls (w : World) (opts : GitOperationOptions)
    (h : History) (err : option error) (ev : Event) (b : bool) :
  run (PerformGitOperation w opts) = (h, err) ->
  In ev h ->
  tlsSkipped ev = Some b ->
  b = true.
Proof.
  intros Hrun Hin Hb.
  pose proof (all_calls_skip_tls w opts h err Hrun) as F.
  rewrite Forall_forall in F. exact (F ev Hin b Hb).
Qed.

Lemma git_transport_always_skips_tls_witness :
  map tlsSkipped
    (calls (fst (run (PerformGitOperation (Example.world None None)
                        (Example.options "v0.0.1" "" "error")))))
  = [Some true; Some true; None; Some true] /\
  co_InsecureSkipTLS (cloneOptions (Example.options "v0.0.1" "" "error") "refs/tags/v0.0.1")
  = true.
Proof.
  split; [vm_compute; reflexivity|].
  apply (git_transport_always_skips_tls (Example.world None None)
           (Example.options "v0.0.1" "" "error") _ _
           (EvPlainClone "/tmp/go-git-clone-push-temp-4711"
              (cloneOptions (Example.options "v0.0.1" "" "error") "refs/tags/v0.0.1") None)
           _ (surjective_pairing _)).
  - vm_compute. repeat (first [left; reflexivity | right]).
  - reflexivity.
Defined.

(** C1, as the code has it.  In the shell pipeline, for every run that
    reaches section 8, the way the objects are uploaded is chosen by what
    [git ls-remote <destination> refs/heads/main] prints: when the
    destination holds [refs/heads/main], the first push of the run sends
    the local temporary branch to the remote temporary branch
    [refs/heads/mirror-objects-temp-mirror-local-<seconds>]; when no
    reference of the destination is [refs/heads/main] or ends in
    [/refs/heads/main], the first push sends it to [refs/heads/main]
    itself, and no remote branch is deleted afterwards.  In both cases the
    only other push is the one of the original tag or branch.  The name
    of the remote temporary branch is one-to-one in the seconds of the
    clock.  [PerformGitOperation] has no such stage: a run makes one push,
    of tag ref-specs only. *)
Theorem upload_strategy_by_default_branch :
  (forall (w : Script.ShWorld) (v : Script.Vars) (h : list Script.ShEvent) (code st : nat)
          (refs : list (Hash * string)),
      Script.run (Script.script w v) = (h, code) ->
      In (Script.Run (Script.git_ls_remote (Script.DEST_REPO_URL_AUTH v) "refs/heads/main")
            st (Script.ls_remote_output refs "refs/heads/main")) h ->
      exists seconds rest,
        (exists st' out, In (Script.Run (Script.date "+%s") st' out) h /\
                         seconds = Script.chomp out) /\
        (rest = [] \/ rest = [("refs/tags/" ++ Script.SOURCE_REF v)%string]
         \/ rest = [("refs/heads/" ++ Script.SOURCE_REF v)%string]) /\
        ((exists hash, In (hash, "refs/heads/main"%string) refs) ->
           ScriptTrace.pushSpecs h =
             (Script.TEMP_LOCAL_BRANCH_NAME seconds ++ ":"
              ++ Script.REMOTE_TEMP_BRANCH_FOR_OBJECTS seconds)%string :: rest) /\
        ((forall hash name, In (hash, name) refs ->
                            Script.tail_match "refs/heads/main" name = false) ->
           ScriptTrace.pushSpecs h =
             (Script.TEMP_LOCAL_BRANCH_NAME seconds ++ ":refs/heads/main")%string :: rest /\
           ScriptTrace.deletes h = [])) /\
  (forall s1 s2 : string,
      Script.REMOTE_TEMP_BRANCH_FOR_OBJECTS s1 = Script.REMOTE_TEMP_BRANCH_FOR_OBJECTS s2 ->
      s1 = s2) /\
  (forall (w : World) (opts : GitOperationOptions) (h : History) (err : option error)
          (po : PushOptions) (res : option error),
      run (PerformGitOperation w opts) = (h, err) ->
      In (EvPush po res) h ->
      filter isPush h = [EvPush po res] /\
      exists specs, po = pushOptions opts specs /\
        (ToTag opts = ""%string -> specs = ["refs/tags/*:refs/tags/*"%string]) /\
        (ToTag opts <> ""%string ->
         exists hash, specs = [(hash ++ ":refs/tags/" ++ ToTag opts)%string])).
Proof.
  split; [|split].
  - intros w v h code st refs Hrun Hin.
    destruct (ScriptProofs.script_strategy w v h code st _ Hrun Hin)
      as (seconds & rest & Hdate & Hrest & Hyes & Hno).
    exists seconds, rest. repeat split; try assumption.
    + intros (hash & Hmain). apply Hyes. now apply (ScriptProofs.grep_found refs hash).
    + now apply Hno, ScriptProofs.grep_none.
    + now apply Hno, ScriptProofs.grep_none.
  - exact ScriptProofs.REMOTE_TEMP_injective.
  - exact push_shape.
Qed.

Lemma upload_strategy_by_default_branch_witness :
  (exists seconds rest,
      ScriptTrace.pushSpecs
        (fst (Script.run (Script.script (Example.shell Example.withMain 0) Example.vars)))
      = (Script.TEMP_LOCAL_BRANCH_NAME seconds ++ ":"
         ++ Script.REMOTE_TEMP_BRANCH_FOR_OBJECTS seconds)%string :: rest) /\
  (exists seconds rest,
      ScriptTrace.pushSpecs
        (fst (Script.run (Script.script (Example.shell Example.empty 0) Example.vars)))
      = (Script.TEMP_LOCAL_BRANCH_NAME seconds ++ ":refs/heads/main")%string :: rest /\
      ScriptTrace.deletes
        (fst (Script.run (Script.script (Example.shell Example.empty 0) Example.vars))) = []).
Proof.
  split.
  - destruct (proj1 upload_strategy_by_default_branch
                (Example.shell Example.withMain 0) Example.vars
                (fst (Script.run (Script.script (Example.shell Example.withMain 0) Example.vars)))
                0 0 Example.withMain)
      as (seconds & rest & _ & _ & Hyes & _).
    + vm_compute. reflexivity.
    + vm_compute. repeat (first [left; reflexivity | right]).
    + exists seconds, rest. apply Hyes.
      exists "0a1b2c3d4e5f60718293a4b5c6d7e8f901234567"%string. now left.
  - destruct (proj1 upload_strategy_by_default_branch
                (Example.shell Example.empty 0) Example.vars
                (fst (Script.run (Script.script (Example.shell Example.empty 0) Example.vars)))
                0 0 Example.empty)
      as (seconds & rest & _ & _ & _ & Hno).
    + vm_compute. reflexivity.
    + vm_compute. repeat (first [left; reflexivity | right]).
    + exists seconds, rest. apply Hno. intros hash name [].
Defined.

(** C1 fails as stated on [PerformGitOperation]: the destination holds
    [refs/heads/main], the operation reaches its push and succeeds, and
    no push of the run sends anything to a branch of the destination. *)
Lemma go_operation_uploads_to_no_branch :
  In (plumbing.NewBranchReferenceName "main") Example.destRefs /\
  snd (run (PerformGitOperation (Example.world None None)
              (Example.options "v0.0.1" "" "error"))) = None /\
  filter isPush
    (fst (run (PerformGitOperation (Example.world None None)
                 (Example.options "v0.0.1" "" "error")))) <> [] /\
  ~ exists po res spec,
      In (EvPush po res)
         (fst (run (PerformGitOperation (Example.world None None)
                      (Example.options "v0.0.1" "" "error")))) /\
      In spec (po_RefSpecs po) /\
      strings.Contains spec "refs/heads/" = true.
Proof.
  split; [cbn; tauto|].
  split; [vm_compute; reflexivity|].
  split; [vm_compute; discriminate|].
  intros (po & res & spec & Hin & Hspec & Hc).
  vm_compute in Hin.
  repeat (destruct Hin as [Hin|Hin]; [try discriminate Hin|]); try contradiction.
  injection Hin as <- _. cbn in Hspec. destruct Hspec as [<-|[]].
  vm_compute in Hc. discriminate Hc.
Qed.

(** C8, as the code has it.  Cleanup exists in the shell pipeline only,
    and on its success path only.  A run of the script that exits 0 has
    [rm -rf <clone directory>] as its last command, followed by messages
    only, and a removal that fails only adds a warning to them: the exit
    code is 0 all the same.  A run that exits with another code runs no
    [rm -rf] after the clone.  [PerformGitOperation] never removes its
    working directory: once cloned, it exists after the run. *)
Theorem cleanup_only_on_script_success :
  (forall (w : Script.ShWorld) (v : Script.Vars) (h : list Script.ShEvent),
      Script.run (Script.script w v) = (h, 0) ->
      exists pre st out post,
        h = pre ++ Script.Run (Script.rm_rf (Script.LOCAL_CLONE_DIR v)) st out :: post /\
        forallb ScriptTrace.isEcho post = true /\
        (Script.ne0 st = true ->
         In (Script.Echo
               ("Warning: Failed to delete temporary clone directory. Please clean it up manually: 'rm -rf "
                ++ Script.LOCAL_CLONE_DIR v ++ "'")) post)) /\
  (forall (w : Script.ShWorld) (v : Script.Vars) (h : list Script.ShEvent) (code : nat),
      Script.run (Script.script w v) = (h, code) ->
      code <> 0 ->
      forallb (fun ev => negb (ScriptTrace.isRmRf ev)) (ScriptTrace.afterClone h) = true) /\
  (forall (w : World) (opts : GitOperationOptions) (h : History) (err : option error)
          (o : CloneOptions) (before : bool),
      run (PerformGitOperation w opts) = (h, err) ->
      In (EvPlainClone (OutputDir opts) o None) h ->
      dirExistsAfter (OutputDir opts) h before = true).
Proof.
  split; [|split].
  - exact ScriptProofs.script_cleanup_success.
  - exact ScriptProofs.script_cleanup_failure.
  - intros w opts h err o before _ Hin. exact (dirExistsAfter_cloned _ o h before Hin).
Qed.

Lemma cleanup_only_on_script_success_witness :
  (exists pre st out post,
      fst (Script.run (Script.script (Example.shell Example.withMain 0) Example.vars))
      = pre ++ Script.Run (Script.rm_rf "temp_clone_dir_20250101120000") st out :: post /\
      forallb ScriptTrace.isEcho post = true) /\
  forallb (fun ev => negb (ScriptTrace.isRmRf ev))
    (ScriptTrace.afterClone
       (fst (Script.run (Script.script (Example.shell Example.withMain 1) Example.vars))))
  = true /\
  dirExistsAfter "/tmp/go-git-clone-push-temp-4711"
    (fst (run (PerformGitOperation (Example.world None None)
                 (Example.options "v0.0.1" "" "error")))) false = true.
Proof.
  destruct cleanup_only_on_script_success as (Hok & Hfail & Hgo).
  split; [|split].
  - destruct (Hok (Example.shell Example.withMain 0) Example.vars _
                (eq_refl : Script.run (Script.script (Example.shell Example.withMain 0)
                                         Example.vars)
                           = (fst (Script.run (Script.script (Example.shell Example.withMain 0)
                                                 Example.vars)), 0)))
      as (pre & st & out & post & E & Hecho & _).
    exists pre, st, out, post. split; assumption.
  - apply (Hfail (Example.shell Example.withMain 1) Example.vars _ 1).
    + vm_compute. reflexivity.
    + discriminate.
  - apply (Hgo (Example.world None None) (Example.options "v0.0.1" "" "error") _ _
             (cloneOptions (Example.options "v0.0.1" "" "error") "refs/tags/v0.0.1") false
             (surjective_pairing _)).
    vm_compute. repeat (first [left; reflexivity | right]).
Defined.

(** C8 fails as stated on [PerformGitOperation]: the run below succeeds,
    and the working directory, which did not exist before, exists after
    it. *)
Lemma go_operation_leaves_working_directory :
  snd (run (PerformGitOperation (Example.world None None)
              (Example.options "v0.0.1" "" "error"))) = None /\
  dirExistsAfter (OutputDir (Example.options "v0.0.1" "" "error"))
    (fst (run (PerformGitOperation (Example.world None None)
                 (Example.options "v0.0.1" "" "error")))) false = true.
Proof. split; vm_compute; reflexivity. Qed.

(** * Further properties

    Properties of the code beside the claims: of the operation, of the
    [clone] command, of the script, and of the [fork] command. *)

(** ** The operation *)

(** X1. When the listing of the remote succeeds, [checkRemoteRefExistence]
    returns no error, and it returns Tag exactly when the listing holds
    [refs/tags/<name>], Branch exactly when it holds [refs/heads/<name>]
    and not [refs/tags/<name>], and Unknown exactly when it holds neither. *)
Theorem classification_follows_the_listing (w : World) (repoURL refName : string)
    (auth : GitAuthMethod) (h h' evs : History)
    (s : Step (option error) (RefType * option error))
    (refs : list plumbing.ReferenceName) :
  checkRemoteRefExistence w repoURL refName auth h = (h', s) ->
  h' = h ++ evs ->
  listingIn evs = Some (Ok refs) ->
  exists rt : RefType,
    s = Next (rt, None) /\
    (rt = RefTypeTag <-> In ("refs/tags/" ++ refName)%string refs) /\
    (rt = RefTypeBranch <->
       ~ In ("refs/tags/" ++ refName)%string refs /\ In ("refs/heads/" ++ refName)%string refs) /\
    (rt = RefTypeUnknown <->
       ~ In ("refs/tags/" ++ refName)%string refs /\
       ~ In ("refs/heads/" ++ refName)%string refs).
Proof.
  intros H -> Hl.
  rewrite checkRemoteRefExistence_run in H. cbv zeta in H.
  destruct (w_List w _ _ _) as [refs0|e];
    apply pair_equal_spec in H as [H <-]; apply app_inv_head in H; subst evs;
    cbn in Hl; [|discriminate Hl].
  injection Hl as ->.
  exists (classify refs refName). split; [reflexivity|].
  split; [apply classify_Tag|]. split; [apply classify_Branch | apply classify_Unknown].
Qed.

Lemma classification_follows_the_listing_witness :
  exists rt : RefType,
    snd (checkRemoteRefExistence (Example.world None None) "https://git.example/fy-dev/iris"
           "dev" None []) = Next (rt, None) /\
    (rt = RefTypeBranch <->
       ~ In "refs/tags/dev"%string Example.sourceRefs /\
       In "refs/heads/dev"%string Example.sourceRefs).
Proof.
  destruct (classification_follows_the_listing (Example.world None None)
              "https://git.example/fy-dev/iris" "dev" None []
              (fst (checkRemoteRefExistence (Example.world None None)
                      "https://git.example/fy-dev/iris" "dev" None []))
              (fst (checkRemoteRefExistence (Example.world None None)
                      "https://git.example/fy-dev/iris" "dev" None []))
              _ Example.sourceRefs (surjective_pairing _) eq_refl)
    as (rt & Hs & _ & Hb & _).
  - vm_compute. reflexivity.
  - exists rt. split; [exact Hs | exact Hb].
Defined.


Lemma string_app_assoc (a b c : string) : ((a ++ b) ++ c = a ++ (b ++ c))%string.
Proof. induction a as [|x a IH]; cbn; [reflexivity | now rewrite IH]. Qed.

Lemma checkSourceRef_notClone (w : World) (opts : GitOperationOptions) :
  emits notClone (checkSourceRef w opts).
Proof. apply checkSourceRef_emits; intros; reflexivity. Qed.

Lemma checkSourceRef_notPush (w : World) (opts : GitOperationOptions) :
  emits notPush (checkSourceRef w opts).
Proof. apply checkSourceRef_emits; intros; reflexivity. Qed.

(** X2. When the listing of the source fails with [e], the operation returns
    the error whose message is that of [e] behind the two prefixes of
    [PerformGitOperation] and [checkRemoteRefExistence] and which still
    wraps [e]; that listing is the only call of the run. *)
Theorem source_listing_failure_is_wrapped (w : World) (opts : GitOperationOptions)
    (h : History) (err : option error) (e : error) :
  run (PerformGitOperation w opts) = (h, err) ->
  listingIn h = Some (Err e) ->
  err = Some (mkError ("检查源仓库引用 (" ++ FromRef opts ++ ") 失败: 列出远程引用失败: " ++ Error e)
                (chain e)) /\
  calls h = [EvList (FromRepoURL opts) (listOptions (FromAuth opts)) (Err e)].
Proof.
  intros Hrun Hlist.
  apply run_inv in Hrun as (s & H & ->).
  unfold PerformGitOperation in H.
  apply bind_inv in H as [(r & H & ->) | (rt & h1 & H & H')].
  - rewrite checkSourceRef_run in H. cbv zeta in H. cbn [app] in H.
    destruct (w_List w _ _ _) as [refs0|e0].
    + destruct (classify refs0 (FromRef opts));
        apply pair_equal_spec in H as [<- H]; discriminate Hlist.
    + apply pair_equal_spec in H as [<- H]. injection H as <-.
      cbn in Hlist. injection Hlist as ->.
      split; [|reflexivity]. unfold fmt.Errorf_w. cbn [Error chain].
      f_equal. rewrite !string_app_assoc. reflexivity.
  - exfalso. apply checkSourceRef_Next in H as (refs0 & -> & _).
    assert (Hem : emits (fun _ => True)
                    (cloneSource w opts rt ;; configureTargetRemote w opts ;;
                     po <- configurePush w opts rt ;; executePush w opts po))
      by (apply afterCheck_emits; auto).
    destruct (emits_run _ _ _ _ _ Hem H') as (evs & -> & _).
    discriminate Hlist.
Qed.

Lemma source_listing_failure_is_wrapped_witness :
  snd (run (PerformGitOperation Scenario.sourceDown (Example.options "v0.0.1" "" "error")))
  = Some (mkError "检查源仓库引用 (v0.0.1) 失败: 列出远程引用失败: dial tcp 10.0.0.7:443: connect: connection refused" []) /\
  calls (fst (run (PerformGitOperation Scenario.sourceDown
                     (Example.options "v0.0.1" "" "error"))))
  = [EvList "https://git.example/fy-dev/iris"
       (listOptions (FromAuth (Example.options "v0.0.1" "" "error"))) (Err Scenario.refused)].
Proof.
  apply (source_listing_failure_is_wrapped Scenario.sourceDown
           (Example.options "v0.0.1" "" "error") _ _ Scenario.refused).
  - apply surjective_pairing.
  - vm_compute. reflexivity.
Defined.



Lemma afterClone_afterStep3 (w : World) (opts : GitOperationOptions) (rt : RefType) :
  emits afterStep3
    (configureTargetRemote w opts ;; po <- configurePush w opts rt ;; executePush w opts po).
Proof. apply afterClone_emits; intros; exact I. Qed.

(** X3. A clone that fails with an error other than
    [ErrRepositoryAlreadyExists] ends the run: the error is returned
    behind the prefix of step 3, still wrapping the cause, and the clone
    is the last event, so nothing is opened, configured or pushed. *)
Theorem clone_failure_aborts (w : World) (opts : GitOperationOptions)
    (h : History) (err : option error) (dir : string) (o : CloneOptions) (e : error) :
  run (PerformGitOperation w opts) = (h, err) ->
  In (EvPlainClone dir o (Some e)) h ->
  errors.Is (Some e) ErrRepositoryAlreadyExists = false ->
  err = Some (mkError ("克隆失败: " ++ Error e) (chain e)) /\
  last h (EvLog "") = EvPlainClone dir o (Some e).
Proof.
  intros Hrun Hin His.
  apply run_inv in Hrun as (s & H & ->).
  unfold PerformGitOperation in H.
  apply bind_inv in H as [(r & H & ->) | (rt & h1 & H & H')].
  { exfalso. destruct (emits_run _ _ _ _ _ (checkSourceRef_notClone w opts) H) as (evs & -> & F).
    rewrite Forall_forall in F. apply F in Hin. discriminate Hin. }
  apply checkSourceRef_Next in H as (refs0 & -> & Hrt & Hne).
  apply bind_inv in H' as [(r & H2 & ->) | ([] & h2 & H2 & H3)];
    rewrite cloneSource_run in H2; cbv zeta in H2.
  - destruct rt; [contradiction | |];
      repeat match type of H2 with
             | (match ?x with _ => _ end) = _ => destruct x eqn:?
             end;
      apply pair_equal_spec in H2 as [<- H2]; try discriminate H2;
      injection H2 as <-;
      rewrite <- ?app_assoc in *; cbn [app] in *;
      cbn [In] in Hin; decompose [or] Hin; clear Hin; try discriminate; try contradiction;
      match goal with
      | H : EvPlainClone _ _ _ = EvPlainClone _ _ _ |- _ => injection H as <- <- <-
      end;
      try congruence;
      (split; [reflexivity|]); reflexivity.
  - exfalso.
    destruct (emits_run _ _ _ _ _ (afterClone_afterStep3 w opts rt) H3) as (evs & -> & F).
    apply in_app_or in Hin as [Hin|Hin];
      [|rewrite Forall_forall in F; apply F in Hin; exact Hin].
    destruct rt; [contradiction | |];
      repeat match type of H2 with
             | (match ?x with _ => _ end) = _ => destruct x eqn:?
             end;
      apply pair_equal_spec in H2 as [<- H2]; try discriminate H2;
      rewrite <- ?app_assoc in *; cbn [app] in *;
      cbn [In] in Hin; decompose [or] Hin; clear Hin; try discriminate; try contradiction;
      match goal with
      | H : EvPlainClone _ _ _ = EvPlainClone _ _ _ |- _ => injection H as <- <- <-
      end;
      congruence.
Qed.

Lemma clone_failure_aborts_witness :
  snd (run (PerformGitOperation Scenario.cloneRefused (Example.options "v0.0.1" "" "error")))
  = Some (mkError "克隆失败: dial tcp 10.0.0.7:443: connect: connection refused" []) /\
  last (fst (run (PerformGitOperation Scenario.cloneRefused
                    (Example.options "v0.0.1" "" "error")))) (EvLog "")
  = EvPlainClone "/tmp/go-git-clone-push-temp-4711"
      (cloneOptions (Example.options "v0.0.1" "" "error") "refs/tags/v0.0.1")
      (Some Scenario.refused).
Proof.
  apply (clone_failure_aborts Scenario.cloneRefused
           (Example.options "v0.0.1" "" "error") _ _ "/tmp/go-git-clone-push-temp-4711"
           (cloneOptions (Example.options "v0.0.1" "" "error") "refs/tags/v0.0.1")
           Scenario.refused).
  - apply surjective_pairing.
  - vm_compute. repeat (first [left; reflexivity | right]).
  - reflexivity.
Defined.

(** X4. When the working directory holds a repository already and opening
    it fails, the run returns the error of [PlainOpen] behind the prefix
    that names [OutputDir], and the failed opening is its last event. *)
Theorem unopenable_repository_aborts (w : World) (opts : GitOperationOptions)
    (h : History) (err : option error) (dir : string) (e : error) :
  run (PerformGitOperation w opts) = (h, err) ->
  In (EvPlainOpen dir (Some e)) h ->
  err = Some (mkError ("无法打开现有仓库 " ++ OutputDir opts ++ ": " ++ Error e) (chain e)) /\
  dir = OutputDir opts /\
  last h (EvLog "") = EvPlainOpen dir (Some e).
Proof.
  intros Hrun Hin.
  apply run_inv in Hrun as (s & H & ->).
  unfold PerformGitOperation in H.
  apply bind_inv in H as [(r & H & ->) | (rt & h1 & H & H')].
  { exfalso.
    assert (Hem : emits afterStep3 (checkSourceRef w opts))
      by (apply checkSourceRef_emits; intros; exact I).
    destruct (emits_run _ _ _ _ _ Hem H) as (evs & -> & F).
    rewrite Forall_forall in F. apply F in Hin. exact Hin. }
  apply checkSourceRef_Next in H as (refs0 & -> & Hrt & Hne).
  apply bind_inv in H' as [(r & H2 & ->) | ([] & h2 & H2 & H3)];
    rewrite cloneSource_run in H2; cbv zeta in H2.
  - destruct rt; [contradiction | |];
      repeat match type of H2 with
             | (match ?x with _ => _ end) = _ => destruct x eqn:?
             end;
      apply pair_equal_spec in H2 as [<- H2]; try discriminate H2;
      injection H2 as <-;
      rewrite <- ?app_assoc in *; cbn [app] in *;
      cbn [In] in Hin; decompose [or] Hin; clear Hin; try discriminate; try contradiction;
      match goal with
      | H : EvPlainOpen _ _ = EvPlainOpen _ _ |- _ => injection H as <- <-
      end;
      (split; [unfold fmt.Errorf_w; cbn [Error chain]; f_equal; f_equal;
               rewrite !string_app_assoc; reflexivity|]);
      split; reflexivity.
  - exfalso.
    destruct (emits_run _ _ _ _ _ (afterClone_afterStep3 w opts rt) H3) as (evs & -> & F).
    apply in_app_or in Hin as [Hin|Hin];
      [|rewrite Forall_forall in F; apply F in Hin; exact Hin].
    destruct rt; [contradiction | |];
      repeat match type of H2 with
             | (match ?x with _ => _ end) = _ => destruct x eqn:?
             end;
      apply pair_equal_spec in H2 as [<- H2]; try discriminate H2;
      rewrite <- ?app_assoc in *; cbn [app] in *;
      cbn [In] in Hin; decompose [or] Hin; clear Hin; try discriminate; try contradiction.
Qed.

Lemma unopenable_repository_aborts_witness :
  snd (run (PerformGitOperation Scenario.brokenRepository
              (Example.options "v0.0.1" "" "error")))
  = Some (mkError "无法打开现有仓库 /tmp/go-git-clone-push-temp-4711: repository does not exist" []).
Proof.
  refine (proj1 (unopenable_repository_aborts Scenario.brokenRepository
           (Example.options "v0.0.1" "" "error")
           (fst (run (PerformGitOperation Scenario.brokenRepository
                        (Example.options "v0.0.1" "" "error")))) _
           "/tmp/go-git-clone-push-temp-4711"
           (mkError "repository does not exist" []) _ _)).
  - apply surjective_pairing.
  - vm_compute. repeat (first [left; reflexivity | right]).
Defined.

(** Steps 5 and 6 without a destination tag name: the push is made. *)
Lemma all_tags_push_is_made (w : World) (opts : GitOperationOptions) (rt : RefType)
    (h3 h : History) (s : Step (option error) unit) :
  ToTag opts = ""%string ->
  (po <- configurePush w opts rt ;; executePush w opts po) h3 = (h, s) ->
  exists r tail,
    h = h3 ++ [EvLog "未指定目标标签，将推送所有本地标签到目标仓库。";
               EvLog ("正在推送内容到目标仓库 " ++ ToRepoURL opts ++ "...");
               EvPush (pushOptions opts ["refs/tags/*:refs/tags/*"%string]) r] ++ tail.
Proof.
  intros Ht H. unfold bind in H. rewrite configurePush_run, Ht in H.
  cbn [String.eqb] in H. rewrite executePush_run in H. cbv zeta in H.
  repeat match type of H with
         | (match ?x with _ => _ end) = _ => destruct x eqn:?
         end;
    apply pair_equal_spec in H as [<- _];
    rewrite <- ?app_assoc; cbn [app];
    eexists; eexists; reflexivity.
Qed.

(** X5. A [CreateRemote] error other than [ErrRemoteExists] ends the run
    with the error of step 4.  On [ErrRemoteExists] the remote [target]
    is asked for with [Remote]: when that fails the run ends with its
    error, otherwise the run goes on, and without a destination tag name
    it reaches the push. *)
Theorem existing_target_remote_is_reused (w : World) (opts : GitOperationOptions)
    (h : History) (err : option error) (c : RemoteConfig) (e : error) :
  run (PerformGitOperation w opts) = (h, err) ->
  In (EvCreateRemote c (Some e)) h ->
  (errors.Is (Some e) ErrRemoteExists = false ->
     err = Some (mkError ("创建远程仓库配置失败: " ++ Error e) (chain e)) /\
     last h (EvLog "") = EvCreateRemote c (Some e)) /\
  (errors.Is (Some e) ErrRemoteExists = true ->
     exists res : option error,
       In (EvRemote "target" res) h /\
       match res with
       | Some e' =>
           err = Some (mkError ("无法获取已存在的远程 'target': " ++ Error e') (chain e')) /\
           last h (EvLog "") = EvRemote "target" res
       | None => ToTag opts = ""%string -> exists po r, In (EvPush po r) h
       end).
Proof.
  intros Hrun Hin.
  pose (P := fun ev => match ev with EvCreateRemote _ _ => False | _ => True end).
  assert (Hnot : forall l : History, Forall P l -> ~ In (EvCreateRemote c (Some e)) l).
  { intros l F Hl. rewrite Forall_forall in F. apply F in Hl. exact Hl. }
  assert (E1 : emits P (checkSourceRef w opts))
    by (apply checkSourceRef_emits; intros; exact I).
  assert (E2 : forall rt, emits P (cloneSource w opts rt))
    by (intros; apply cloneSource_emits; intros; exact I).
  assert (E5 : forall rt, emits P (po <- configurePush w opts rt ;; executePush w opts po)).
  { intros rt. apply emits_bind; [apply configurePush_emits; intros; exact I | intros po].
    apply executePush_emits; intros; exact I. }
  apply run_inv in Hrun as (s & H & ->).
  unfold PerformGitOperation in H.
  apply bind_inv in H as [(r & H & ->) | (rt & h1 & H & H')].
  { exfalso. destruct (emits_run _ _ _ _ _ E1 H) as (evs & -> & F).
    exact (Hnot _ F Hin). }
  destruct (emits_run _ _ _ _ _ E1 H) as (evs1 & -> & F1). cbn [app] in *.
  apply bind_inv in H' as [(r & H2 & ->) | ([] & h2 & H2 & H3)].
  { exfalso. destruct (emits_run _ _ _ _ _ (E2 rt) H2) as (evs & -> & F).
    apply (Hnot (evs1 ++ evs)); [apply Forall_app; now split | exact Hin]. }
  destruct (emits_run _ _ _ _ _ (E2 rt) H2) as (evs2 & E & F2).
  assert (F12 : Forall P h2) by (rewrite E; apply Forall_app; now split).
  clear H H2 F1 F2 E.
  apply bind_inv in H3 as [(r & H3 & ->) | ([] & h3 & H3 & H4)];
    rewrite configureTargetRemote_run in H3; cbv zeta in H3.
  - repeat match type of H3 with
           | (match ?x with _ => _ end) = _ => destruct x eqn:?
           end;
      apply pair_equal_spec in H3 as [<- H3]; try discriminate H3;
      injection H3 as <-;
      rewrite <- ?app_assoc in *; cbn [app] in *;
      (apply in_app_or in Hin as [Hin|Hin]; [exfalso; exact (Hnot _ F12 Hin)|]);
      cbn [In] in Hin; decompose [or] Hin; clear Hin; try discriminate; try contradiction.
    all: match goal with
         | H : EvCreateRemote _ _ = EvCreateRemote _ _ |- _ => injection H as <- <-
         end.
    all: split; intros His; try congruence.
    + eexists. split; [apply in_or_app; right; cbn; eauto|].
      split; [reflexivity|]. now rewrite last_app_cons.
    + split; [reflexivity|]. now rewrite last_app_cons.
  - destruct (emits_run _ _ _ _ _ (E5 rt) H4) as (evs5 & E5' & F5).
    repeat match type of H3 with
           | (match ?x with _ => _ end) = _ => destruct x eqn:?
           end;
      apply pair_equal_spec in H3 as [<- H3]; try discriminate H3;
      rewrite <- ?app_assoc in *; cbn [app] in *; subst h;
      (apply in_app_or in Hin as [Hin|Hin]; [exfalso; exact (Hnot _ F12 Hin)|]);
      cbn [In] in Hin; decompose [or] Hin; clear Hin; try discriminate;
      try (exfalso; eapply Hnot; eassumption).
    match goal with
    | H : EvCreateRemote _ _ = EvCreateRemote _ _ |- _ => injection H as <- <-
    end.
    split; intros His; [congruence|].
    exists None. split; [apply in_or_app; right; cbn; eauto|].
    intros Ht.
    destruct (all_tags_push_is_made _ _ _ _ _ _ Ht H4) as (r & tail & Eh).
    rewrite <- !app_assoc in Eh. cbn [app] in Eh.
    apply app_inv_head in Eh. injection Eh as ->. eexists; eexists.
    apply in_or_app; right. cbn. eauto 10.
Qed.

Lemma existing_target_remote_is_reused_witness :
  exists po r,
    In (EvPush po r)
       (fst (run (PerformGitOperation Scenario.remoteExists
                    (Example.options "v0.0.1" "" "error")))).
Proof.
  destruct (proj2 (existing_target_remote_is_reused Scenario.remoteExists
              (Example.options "v0.0.1" "" "error") _
              (snd (run (PerformGitOperation Scenario.remoteExists
                           (Example.options "v0.0.1" "" "error"))))
              (targetRemoteConfig (Example.options "v0.0.1" "" "error"))
              (sentinel ErrRemoteExists) (surjective_pairing _)
              ltac:(vm_compute; repeat (first [left; reflexivity | right])))
              eq_refl)
    as ([e'|] & Hin & H).
  - exfalso. vm_compute in Hin.
    repeat (destruct Hin as [Hin|Hin]; [discriminate Hin|]). exact Hin.
  - exact (H eq_refl).
Defined.

(** A run either ends in steps 1 to 4, or reaches step 5 with the source
    classified. *)
Lemma run_to_step5 (w : World) (opts : GitOperationOptions) (h : History)
    (err : option error) :
  run (PerformGitOperation w opts) = (h, err) ->
  Forall beforeStep5 h \/
  exists refs h3 s,
    listingIn h3 = Some (Ok refs) /\
    classify refs (FromRef opts) <> RefTypeUnknown /\
    Forall beforeStep5 h3 /\
    (po <- configurePush w opts (classify refs (FromRef opts)) ;; executePush w opts po) h3
    = (h, s) /\
    err = result_of s.
Proof.
  intros Hrun.
  assert (E1 : emits beforeStep5 (checkSourceRef w opts))
    by (apply checkSourceRef_emits; intros; exact I).
  assert (E2 : forall rt, emits beforeStep5 (cloneSource w opts rt))
    by (intros; apply cloneSource_emits; intros; exact I).
  assert (E3 : emits beforeStep5 (configureTargetRemote w opts))
    by (intros; apply configureTargetRemote_emits; intros; exact I).
  apply run_inv in Hrun as (s & H & ->).
  unfold PerformGitOperation in H.
  apply bind_inv in H as [(r & H & ->) | (rt & h1 & H & H')].
  { left. destruct (emits_run _ _ _ _ _ E1 H) as (evs & -> & F). exact F. }
  destruct (emits_run _ _ _ _ _ E1 H) as (evs1 & E & F1). cbn [app] in E. subst evs1.
  apply checkSourceRef_Next in H as (refs & E & -> & Hne).
  assert (Hl : listingIn h1 = Some (Ok refs)) by (rewrite E; reflexivity).
  clear E.
  apply bind_inv in H' as [(r & H2 & ->) | ([] & h2 & H2 & H3)].
  { left. destruct (emits_run _ _ _ _ _ (E2 _) H2) as (evs & -> & F).
    apply Forall_app. now split. }
  destruct (emits_run _ _ _ _ _ (E2 _) H2) as (evs2 & -> & F2).
  apply bind_inv in H3 as [(r & H3 & ->) | ([] & h3 & H3 & H4)].
  { left. destruct (emits_run _ _ _ _ _ E3 H3) as (evs & -> & F).
    repeat (apply Forall_app; split); assumption. }
  destruct (emits_run _ _ _ _ _ E3 H3) as (evs3 & -> & F3).
  right. exists refs, ((h1 ++ evs2) ++ evs3), s.
  split; [now rewrite <- app_assoc; apply listingIn_app|].
  split; [exact Hne|].
  split; [repeat (apply Forall_app; split); assumption|].
  split; [exact H4 | reflexivity].
Qed.

Lemma listingIn_unique (h t : History) (r r' : result (list plumbing.ReferenceName)) :
  listingIn h = Some r -> listingIn (h ++ t) = Some r' -> r' = r.
Proof. intros H H'. rewrite (listingIn_app _ _ _ H) in H'. now injection H' as <-. Qed.

Lemma beforeStep5_reference (l : History) (name : plumbing.ReferenceName) (r : result Hash) :
  Forall beforeStep5 l -> ~ In (EvReference name r) l.
Proof. intros F H. rewrite Forall_forall in F. apply F in H. exact H. Qed.

Lemma beforeStep5_push (l : History) (po : PushOptions) (r : option error) :
  Forall beforeStep5 l -> ~ In (EvPush po r) l.
Proof. intros F H. rewrite Forall_forall in F. apply F in H. exact H. Qed.

(** X6. With a destination tag name, a push of the run carries the one
    ref-spec [<hash>:refs/tags/<ToTag>], where [<hash>] is what the
    local repository answered for [refs/tags/<FromRef>] when the source is
    a tag and for [refs/remotes/origin/<FromRef>] otherwise; the
    remote-tracking name is looked up in both cases. *)
Theorem override_pushes_the_resolved_commit (w : World) (opts : GitOperationOptions)
    (h : History) (err : option error) (refs : list plumbing.ReferenceName)
    (po : PushOptions) (res : option error) :
  run (PerformGitOperation w opts) = (h, err) ->
  ToTag opts <> ""%string ->
  listingIn h = Some (Ok refs) ->
  In (EvPush po res) h ->
  exists (hash : Hash) (r0 : result Hash),
    In (EvReference ("refs/remotes/origin/" ++ FromRef opts)%string r0) h /\
    In (EvReference (localReferenceName opts (classify refs (FromRef opts))) (Ok hash)) h /\
    po_RefSpecs po = [(hash ++ ":refs/tags/" ++ ToTag opts)%string].
Proof.
  intros Hrun Ht Hlist Hin.
  apply run_to_step5 in Hrun as [F | (refs0 & h3 & s & Hl & Hne & F & H & _)].
  { exfalso. exact (beforeStep5_push _ _ _ F Hin). }
  assert (Hem : emits (fun _ => True)
                  (po <- configurePush w opts (classify refs0 (FromRef opts)) ;;
                   executePush w opts po)).
  { apply emits_bind; [apply configurePush_emits; auto | intros po0].
    apply executePush_emits; auto. }
  destruct (emits_run _ _ _ _ _ Hem H) as (evs & E & _).
  rewrite E in Hlist. apply (listingIn_unique _ _ _ _ Hl) in Hlist. injection Hlist as <-.
  clear E evs Hem.
  apply String.eqb_neq in Ht.
  apply bind_inv in H as [(r & H & _) | (po0 & h4 & H & H')].
  - exfalso. rewrite configurePush_run, Ht in H; cbv zeta in H.
    destruct (classify refs (FromRef opts));
      repeat match type of H with
             | (match ?x with _ => _ end) = _ => destruct x eqn:?
             end;
      apply pair_equal_spec in H as [<- H]; try discriminate H;
      (apply in_app_or in Hin as [Hin|Hin]; [exact (beforeStep5_push _ _ _ F Hin)|]);
      cbn [In] in Hin; decompose [or] Hin; try discriminate; contradiction.
  - assert (F4 : Forall notPush h4).
    { assert (Hem : emits notPush (configurePush w opts (classify refs (FromRef opts))))
        by (apply configurePush_emits; intros; reflexivity).
      destruct (emits_run _ _ _ _ _ Hem H) as (evs & -> & F').
      apply Forall_app. split; [|exact F'].
      revert F. apply Forall_impl. intros []; simpl; intros; try reflexivity; contradiction. }
    assert (Hpo : po = po0).
    { pose proof H' as Hx. rewrite executePush_run in Hx. cbv zeta in Hx.
      repeat match type of Hx with
             | (match ?x with _ => _ end) = _ => destruct x eqn:?
             end;
        apply pair_equal_spec in Hx as [<- _];
        rewrite <- ?app_assoc in *; cbn [app] in *;
        find_push; reflexivity. }
    subst po0.
    assert (Hh : exists tail, h = h4 ++ tail).
    { assert (Hem : emits (fun _ => True) (executePush w opts po))
        by (apply executePush_emits; auto).
      destruct (emits_run _ _ _ _ _ Hem H') as (evs & -> & _). now exists evs. }
    destruct Hh as (tail & ->).
    rewrite configurePush_run, Ht in H; cbv zeta in H.
    destruct (classify refs (FromRef opts)); [now elim Hne | |];
      repeat match type of H with
             | (match ?x with _ => _ end) = _ => destruct x eqn:?
             end;
      apply pair_equal_spec in H as [<- H]; try discriminate H;
      injection H as <-;
      eexists; eexists;
      (split; [apply in_or_app; left; apply in_or_app; right; cbn [In app]; eauto|]);
      (split; [apply in_or_app; left; apply in_or_app; right; cbn [In app]; eauto|]);
      reflexivity.
Qed.

Lemma override_pushes_the_resolved_commit_witness :
  exists (hash : Hash) (r0 : result Hash),
    In (EvReference "refs/remotes/origin/v0.0.1" r0)
       (fst (run (PerformGitOperation Scenario.tagClone
                    (Example.options "v0.0.1" "v2" "error")))) /\
    In (EvReference "refs/tags/v0.0.1" (Ok hash))
       (fst (run (PerformGitOperation Scenario.tagClone
                    (Example.options "v0.0.1" "v2" "error")))) /\
    po_RefSpecs (pushOptions (Example.options "v0.0.1" "v2" "error")
                   [(Scenario.commit ++ ":refs/tags/v2")%string])
    = [(hash ++ ":refs/tags/v2")%string].
Proof.
  apply (override_pushes_the_resolved_commit Scenario.tagClone
           (Example.options "v0.0.1" "v2" "error") _
           (snd (run (PerformGitOperation Scenario.tagClone
                        (Example.options "v0.0.1" "v2" "error"))))
           Example.sourceRefs
           (pushOptions (Example.options "v0.0.1" "v2" "error")
              [(Scenario.commit ++ ":refs/tags/v2")%string]) None).
  - apply surjective_pairing.
  - discriminate.
  - vm_compute. reflexivity.
  - vm_compute. repeat (first [left; reflexivity | right]).
Defined.

Lemma beforeStep5_notPush (l : History) : Forall beforeStep5 l -> Forall notPush l.
Proof. apply Forall_impl. intros []; simpl; intros; try reflexivity; contradiction. Qed.

Lemma remote_tracking_is_no_tag (n : string) (r : result Hash) (e : error) :
  EvReference ("refs/remotes/origin/" ++ n)%string r
  <> EvReference (plumbing.NewTagReferenceName n) (Err e).
Proof. intros H. injection H as H _. discriminate H. Qed.

(** X7. When the lookup of the local reference that decides fails with
    [e], the run returns the error of step 5, wrapping [e], and makes no
    push. *)
Theorem unresolved_local_reference_aborts (w : World) (opts : GitOperationOptions)
    (h : History) (err : option error) (refs : list plumbing.ReferenceName) (e : error) :
  run (PerformGitOperation w opts) = (h, err) ->
  listingIn h = Some (Ok refs) ->
  In (EvReference (localReferenceName opts (classify refs (FromRef opts))) (Err e)) h ->
  err = Some (mkError ("无法获取本地引用 " ++ FromRef opts ++ ": " ++ Error e) (chain e)) /\
  filter isPush h = [].
Proof.
  intros Hrun Hlist Hin.
  apply run_to_step5 in Hrun as [F | (refs0 & h3 & s & Hl & Hne & F & H & ->)].
  { exfalso. exact (beforeStep5_reference _ _ _ F Hin). }
  assert (Hem : emits (fun _ => True)
                  (po <- configurePush w opts (classify refs0 (FromRef opts)) ;;
                   executePush w opts po)).
  { apply emits_bind; [apply configurePush_emits; auto | intros po0].
    apply executePush_emits; auto. }
  destruct (emits_run _ _ _ _ _ Hem H) as (evs & E & _).
  rewrite E in Hlist. apply (listingIn_unique _ _ _ _ Hl) in Hlist. injection Hlist as <-.
  clear E evs Hem.
  apply bind_inv in H as [(r & H & ->) | (po0 & h4 & H & H')].
  - rewrite configurePush_run in H.
    destruct (ToTag opts =? "")%string; [discriminate H|]. cbv zeta in H.
    destruct (classify refs (FromRef opts)); [now elim Hne | |];
      repeat match type of H with
             | (match ?x with _ => _ end) = _ => destruct x eqn:?
             end;
      apply pair_equal_spec in H as [<- H]; try discriminate H;
      injection H as <-;
      (apply in_app_or in Hin as [Hin|Hin]; [exfalso; exact (beforeStep5_reference _ _ _ F Hin)|]);
      cbn [In] in Hin; decompose [or] Hin; clear Hin; try contradiction;
      try (exfalso; eapply remote_tracking_is_no_tag; eassumption);
      match goal with
      | H : EvReference _ _ = EvReference _ _ |- _ => injection H as <-
      end;
      (split; [unfold fmt.Errorf_w; cbn [result_of Error chain]; f_equal; f_equal;
               rewrite !string_app_assoc; reflexivity|]);
      rewrite filter_app, (filter_notPush _ (beforeStep5_notPush _ F)); reflexivity.
  - exfalso.
    assert (Hex : emits (fun ev => isReference ev = false) (executePush w opts po0))
      by (apply executePush_emits; intros; reflexivity).
    destruct (emits_run _ _ _ _ _ Hex H') as (tail & -> & Ft).
    apply in_app_or in Hin as [Hin|Hin];
      [|rewrite Forall_forall in Ft; apply Ft in Hin; discriminate Hin].
    rewrite configurePush_run in H.
    destruct (ToTag opts =? "")%string.
    { injection H as <- _.
      apply in_app_or in Hin as [Hin|Hin]; [exact (beforeStep5_reference _ _ _ F Hin)|].
      cbn in Hin. intuition discriminate. }
    cbv zeta in H.
    destruct (classify refs (FromRef opts)); [now elim Hne | |];
      repeat match type of H with
             | (match ?x with _ => _ end) = _ => destruct x eqn:?
             end;
      apply pair_equal_spec in H as [<- H]; try discriminate H;
      (apply in_app_or in Hin as [Hin|Hin]; [exact (beforeStep5_reference _ _ _ F Hin)|]);
      cbn [In app] in Hin; decompose [or] Hin; clear Hin; try contradiction;
      try discriminate;
      eapply remote_tracking_is_no_tag; eassumption.
Qed.

Lemma unresolved_local_reference_aborts_witness :
  snd (run (PerformGitOperation Scenario.noReference (Example.options "dev" "v2" "error")))
  = Some (mkError "无法获取本地引用 dev: reference not found" []) /\
  filter isPush
    (fst (run (PerformGitOperation Scenario.noReference (Example.options "dev" "v2" "error"))))
  = [].
Proof.
  apply (unresolved_local_reference_aborts Scenario.noReference
           (Example.options "dev" "v2" "error") _ _ Example.sourceRefs
           (mkError "reference not found" [])).
  - apply surjective_pairing.
  - vm_compute. reflexivity.
  - vm_compute. repeat (first [left; reflexivity | right]).
Defined.

(** X8. A push error that neither carries the text of the known quirk nor
    is [NoErrAlreadyUpToDate] is returned behind the prefix of step 6,
    still wrapping the cause, and the push is the last event of the run. *)
Theorem push_failure_is_wrapped (w : World) (opts : GitOperationOptions)
    (h : History) (err : option error) (po : PushOptions) (e : error) :
  run (PerformGitOperation w opts) = (h, err) ->
  In (EvPush po (Some e)) h ->
  strings.Contains (Error e) unpackOkQuirk = false ->
  errors.Is (Some e) NoErrAlreadyUpToDate = false ->
  err = Some (mkError ("推送失败: " ++ Error e) (chain e)) /\
  last h (EvLog "") = EvPush po (Some e).
Proof.
  intros Hrun Hin Hq His.
  apply PerformGitOperation_cases in Hrun
    as [(F & _) | (h0 & po0 & r & F & _ & Hexec & ->)].
  - rewrite Forall_forall in F. apply F in Hin. discriminate Hin.
  - push_cases Hexec; find_push; try congruence.
    split; [reflexivity|]. now rewrite last_app_cons.
Qed.

Lemma push_failure_is_wrapped_witness :
  snd (run (PerformGitOperation Scenario.pushRefused (Example.options "v0.0.1" "" "skip")))
  = Some (mkError "推送失败: dial tcp 10.0.0.7:443: connect: connection refused" []) /\
  last (fst (run (PerformGitOperation Scenario.pushRefused
                    (Example.options "v0.0.1" "" "skip")))) (EvLog "")
  = EvPush (pushOptions (Example.options "v0.0.1" "" "skip") ["refs/tags/*:refs/tags/*"%string])
      (Some Scenario.refused).
Proof.
  apply (push_failure_is_wrapped Scenario.pushRefused (Example.options "v0.0.1" "" "skip")
           _ _
           (pushOptions (Example.options "v0.0.1" "" "skip") ["refs/tags/*:refs/tags/*"%string])
           Scenario.refused).
  - apply surjective_pairing.
  - vm_compute. repeat (first [left; reflexivity | right]).
  - vm_compute. reflexivity.
  - reflexivity.
Defined.

(** X9. After a push that was up to date, a failed listing of the
    destination gives an error formatted with [%v]: its message holds the
    message of the cause, but it wraps nothing, so [errors.Is] finds no
    sentinel in it. *)
Theorem destination_listing_failure_loses_the_cause (w : World) (opts : GitOperationOptions)
    (h : History) (err : option error) (po : PushOptions) (e e' : error) :
  run (PerformGitOperation w opts) = (h, err) ->
  In (EvPush po (Some e)) h ->
  strings.Contains (Error e) unpackOkQuirk = false ->
  errors.Is (Some e) NoErrAlreadyUpToDate = true ->
  listingIn (afterPush h) = Some (Err e') ->
  err = Some (mkError ("检查标签 '" ++ destTag opts
                       ++ "' 已存在于目标仓库 发生错误 列出远程引用失败: " ++ Error e' ++ "。") []) /\
  forall target : Sentinel, errors.Is err target = false.
Proof.
  intros Hrun Hin Hq His Hlist.
  apply PerformGitOperation_cases in Hrun
    as [(F & _) | (h0 & po0 & r & F & _ & Hexec & ->)].
  - rewrite Forall_forall in F. apply F in Hin. discriminate Hin.
  - push_cases Hexec; find_push; try congruence;
      rewrite (afterPush_app _ _ F) in Hlist; cbn in Hlist; try discriminate Hlist;
      injection Hlist as <-.
    split; [|reflexivity].
    unfold fmt.Errorf, fmt.Errorf_w. cbn [Error]. reflexivity.
Qed.

Lemma destination_listing_failure_loses_the_cause_witness :
  snd (run (PerformGitOperation Scenario.destinationDown
              (Example.options "v0.0.1" "" "skip")))
  = Some (mkError "检查标签 'v0.0.1' 已存在于目标仓库 发生错误 列出远程引用失败: dial tcp 10.0.0.7:443: connect: connection refused。" []) /\
  forall target : Sentinel,
    errors.Is (snd (run (PerformGitOperation Scenario.destinationDown
                           (Example.options "v0.0.1" "" "skip")))) target = false.
Proof.
  apply (destination_listing_failure_loses_the_cause Scenario.destinationDown
           (Example.options "v0.0.1" "" "skip")
           (fst (run (PerformGitOperation Scenario.destinationDown
                        (Example.options "v0.0.1" "" "skip")))) _
           (pushOptions (Example.options "v0.0.1" "" "skip") ["refs/tags/*:refs/tags/*"%string])
           (sentinel NoErrAlreadyUpToDate) Scenario.refused).
  - apply surjective_pairing.
  - vm_compute. repeat (first [left; reflexivity | right]).
  - vm_compute. reflexivity.
  - reflexivity.
  - vm_compute. reflexivity.
Defined.

(** Steps 1 to 5 list the source once and nothing else. *)
Lemma prepare_one_listing (w : World) (opts : GitOperationOptions) (h : History)
    (s : Step (option error) PushOptions) :
  prepare w opts [] = (h, s) ->
  exists res, filter isList h = [EvList (FromRepoURL opts) (listOptions (FromAuth opts)) res].
Proof.
  unfold prepare. intros H.
  assert (Hrem : forall rt, emits (fun ev => isList ev = false)
                   (cloneSource w opts rt ;; configureTargetRemote w opts ;;
                    configurePush w opts rt)).
  { intros rt.
    apply emits_bind; [apply cloneSource_emits; intros; reflexivity | intros _].
    apply emits_bind; [apply configureTargetRemote_emits; intros; reflexivity | intros _].
    apply configurePush_emits; intros; reflexivity. }
  assert (Hnil : forall l, Forall (fun ev => isList ev = false) l -> filter isList l = []).
  { induction 1 as [|ev l Hev _ IH]; [reflexivity|]. cbn [filter]. now rewrite Hev. }
  apply bind_inv in H as [(r & H & _) | (rt & h1 & H & H')];
    rewrite checkSourceRef_run in H; cbv zeta in H; cbn [app] in H.
  - repeat match type of H with
           | (match ?x with _ => _ end) = _ => destruct x eqn:?
           end;
      apply pair_equal_spec in H as [<- _]; eexists; reflexivity.
  - destruct (emits_run _ _ _ _ _ (Hrem rt) H') as (evs & -> & F).
    repeat match type of H with
           | (match ?x with _ => _ end) = _ => destruct x eqn:?
           end;
      apply pair_equal_spec in H as [<- _];
      rewrite filter_app, (Hnil _ F); eexists; reflexivity.
Qed.

(** X10. Every run lists the source exactly once, with the source's
    credentials.  It lists the destination at most once, with the
    destination's credentials, and only after a push that answered
    [NoErrAlreadyUpToDate] without the text of the quirk. *)
Theorem destination_is_listed_only_after_up_to_date_push (w : World)
    (opts : GitOperationOptions) (h : History) (err : option error) :
  run (PerformGitOperation w opts) = (h, err) ->
  exists res : result (list plumbing.ReferenceName),
    filter isList h = [EvList (FromRepoURL opts) (listOptions (FromAuth opts)) res] \/
    exists (res' : result (list plumbing.ReferenceName)) (po : PushOptions) (e : error),
      filter isList h =
        [EvList (FromRepoURL opts) (listOptions (FromAuth opts)) res;
         EvList (ToRepoURL opts) (listOptions (ToAuth opts)) res'] /\
      listingIn (afterPush h) = Some res' /\
      In (EvPush po (Some e)) h /\
      errors.Is (Some e) NoErrAlreadyUpToDate = true /\
      strings.Contains (Error e) unpackOkQuirk = false.
Proof.
  intros Hrun.
  apply PerformGitOperation_cases in Hrun
    as [(F & r & H & _) | (h0 & po0 & r & F & Hprep & Hexec & ->)].
  - apply prepare_one_listing in H as (res & H). exists res. now left.
  - apply prepare_one_listing in Hprep as (res & Hl). exists res.
    push_cases Hexec; rewrite filter_app, Hl; cbn [filter isList app];
      try (left; reflexivity);
      right; eexists; eexists; eexists;
      (split; [reflexivity|]);
      rewrite (afterPush_app _ _ F); cbn [afterPush listingIn];
      (split; [reflexivity|]);
      (split; [apply in_or_app; right; cbn; eauto|]);
      split; assumption.
Qed.

Lemma destination_is_listed_only_after_up_to_date_push_witness :
  exists res : result (list plumbing.ReferenceName),
    filter isList
      (fst (run (PerformGitOperation (Example.world None None)
                   (Example.options "v0.0.1" "" "error"))))
    = [EvList "https://git.example/fy-dev/iris"
         (listOptions (FromAuth (Example.options "v0.0.1" "" "error"))) res].
Proof.
  destruct (destination_is_listed_only_after_up_to_date_push (Example.world None None)
              (Example.options "v0.0.1" "" "error") _ _ (surjective_pairing _))
    as (res & [H | (res' & po & e & _ & _ & Hin & _)]).
  - exists res. exact H.
  - exfalso. vm_compute in Hin.
    repeat (destruct Hin as [Hin|Hin]; [discriminate Hin|]). exact Hin.
Defined.

(** Steps 1 to 5 never end the operation with a nil error. *)
Lemma prepare_exits_with_error (w : World) (opts : GitOperationOptions) :
  exits (fun r => r <> None) (prepare w opts).
Proof.
  unfold prepare, checkSourceRef, cloneSource, configureTargetRemote, configurePush,
    checkRemoteRefExistence, rem_List, git_PlainClone, git_PlainOpen, r_CreateRemote,
    r_Remote, r_Reference, log_Printf.
  repeat exits_step; discriminate.
Qed.

(** A run that returns nil has made its push. *)
Lemma nil_result_has_push (w : World) (opts : GitOperationOptions)
    (h : History) :
  run (PerformGitOperation w opts) = (h, None) ->
  exists po res, filter isPush h = [EvPush po res].
Proof.
  intros Hrun.
  apply PerformGitOperation_cases in Hrun
    as [(F & r & H & Hr) | (h0 & po0 & r & F & Hprep & Hexec & Hr)].
  - exfalso. subst r. now apply (prepare_exits_with_error w opts _ _ _ H).
  - exists po0.
    assert (Hem : emits (fun _ => True) (executePush w opts po0))
      by (apply executePush_emits; auto).
    rewrite executePush_run in Hexec. cbv zeta in Hexec.
    repeat match type of Hexec with
           | (match ?x with _ => _ end) = _ => destruct x eqn:?
           end;
      apply pair_equal_spec in Hexec as [<- _];
      rewrite <- ?app_assoc; cbn [app];
      eexists; rewrite filter_app, (filter_notPush _ F); reflexivity.
Qed.

(** X11. A run that returns nil has made exactly one push.  Either the push
    succeeded or failed with the text of the quirk, and the last log line
    says that the content was pushed; or the push was up to date, the
    policy is [skip], the destination lists the tag, and the last log
    line says that the push was skipped. *)
Theorem success_means_pushed_or_skipped (w : World) (opts : GitOperationOptions)
    (h : History) (err : option error) :
  run (PerformGitOperation w opts) = (h, err) ->
  err = None ->
  exists (po : PushOptions) (res : option error),
    filter isPush h = [EvPush po res] /\
    match res with
    | None => last h (EvLog "") = EvLog "内容已成功推送到目标仓库。"
    | Some e =>
        (strings.Contains (Error e) unpackOkQuirk = true /\
         last h (EvLog "") = EvLog "内容已成功推送到目标仓库。") \/
        (strings.Contains (Error e) unpackOkQuirk = false /\
         errors.Is (Some e) NoErrAlreadyUpToDate = true /\
         OnTagExistsBehavior opts = "skip"%string /\
         (exists refs, listingIn (afterPush h) = Some (Ok refs) /\
                       In ("refs/tags/" ++ destTag opts)%string refs) /\
         last h (EvLog "")
         = EvLog ("标签 '" ++ destTag opts ++ "' 已存在于目标仓库，已跳过推送。"))
    end.
Proof.
  intros Hrun Herr.
  apply PerformGitOperation_cases in Hrun
    as [(F & r & H & ->) | (h0 & po0 & r & F & Hprep & Hexec & ->)].
  - exfalso. subst r. now apply (prepare_exits_with_error w opts _ _ _ H).
  - exists po0.
    push_cases Hexec; try discriminate Herr;
      eexists; (split; [rewrite filter_app, (filter_notPush _ F); reflexivity|]).
    + left. split; [assumption|]. now rewrite last_app_cons.
    + right. split; [assumption|]. split; [assumption|].
      match goal with
      | H : (_ =? "skip")%string = true |- _ => apply String.eqb_eq in H
      end.
      split; [assumption|].
      split; [|now rewrite last_app_cons].
      eexists. rewrite (afterPush_app _ _ F). cbn [afterPush listingIn].
      split; [reflexivity|]. now apply classify_Tag.
    + now rewrite last_app_cons.
Qed.

Lemma success_means_pushed_or_skipped_witness :
  exists (po : PushOptions) (res : option error),
    filter isPush
      (fst (run (PerformGitOperation
                   (Example.world None (Some (sentinel NoErrAlreadyUpToDate)))
                   (Example.options "v0.0.1" "" "skip"))))
    = [EvPush po res] /\ res = Some (sentinel NoErrAlreadyUpToDate).
Proof.
  destruct (success_means_pushed_or_skipped
              (Example.world None (Some (sentinel NoErrAlreadyUpToDate)))
              (Example.options "v0.0.1" "" "skip") _ _ (surjective_pairing _))
    as (po & res & Hf & _).
  - vm_compute. reflexivity.
  - exists po, res. split; [exact Hf|].
    vm_compute in Hf. now injection Hf as _ <-.
Defined.

(** ** The [clone] command *)

Module CloneCommand.
Import clone.

(** The directory the operation works in. *)
Lemma clone_Run_cases (m : Machine) (w : World) (f : Flags) (h : list CmdEvent) (code : nat) :
  main (Run m w f) = (h, code) ->
  (fromRepoURL f = ""%string /\ h = [Log "必须提供 --from-repo-url 参数。"] /\ code = 1) \/
  (fromRepoURL f <> ""%string /\ toRepoURL f = ""%string /\
   h = [Log "必须提供 --to-repo-url 参数。"] /\ code = 1) \/
  (fromRepoURL f <> ""%string /\ toRepoURL f <> ""%string /\ fromRef f = ""%string /\
   h = [Log "必须提供 --from-ref 参数（源分支或标签名）。"] /\ code = 1) \/
  (fromRepoURL f <> ""%string /\ toRepoURL f <> ""%string /\ fromRef f <> ""%string /\
   exists (dir : string) (pre : list CmdEvent),
     ((outputDir f <> ""%string /\ dir = outputDir f /\ pre = []) \/
      (outputDir f = ""%string /\
       dir = filepath_Join m (os_TempDir m)
               ("go-git-clone-push-temp-" ++ strconv.Itoa (rand_Intn m 100000)) /\
       pre = [Log ("未指定 --output-dir，将使用随机临时目录: " ++ dir)])) /\
     match snd (run (PerformGitOperation w (options f dir))) with
     | None =>
         h = pre ++ map Git (fst (run (PerformGitOperation w (options f dir))))
             ++ [Println "Git 仓库克隆和推送操作成功完成！"] /\ code = 0
     | Some e =>
         h = pre ++ map Git (fst (run (PerformGitOperation w (options f dir))))
             ++ [Log ("Git 操作失败: " ++ Error e)] /\ code = 1
     end).
Proof.
  unfold main, Run. intros H.
  destruct (fromRepoURL f =? "")%string eqn:E1;
    [apply String.eqb_eq in E1; left; cbn in H; injection H as <- <-; auto|].
  destruct (toRepoURL f =? "")%string eqn:E2;
    [apply String.eqb_eq in E2; apply String.eqb_neq in E1; right; left;
     cbn in H; injection H as <- <-; auto|].
  destruct (fromRef f =? "")%string eqn:E3;
    [apply String.eqb_eq in E3; apply String.eqb_neq in E1, E2; right; right; left;
     cbn in H; injection H as <- <-; auto|].
  apply String.eqb_neq in E1, E2, E3. right; right; right.
  repeat (split; [assumption|]).
  cbn [when] in H. rewrite !bind_ret_l in H.
  destruct (outputDir f =? "")%string eqn:E4.
  - apply String.eqb_eq in E4.
    eexists; eexists. split; [right; split; [exact E4|]; split; reflexivity|].
    unfold bind, emit, ret, pkg_PerformGitOperation, log_Fatal, return_ in H. cbn [app] in H.
    match goal with
    | |- context [run ?x] => destruct (run x) as [g [e|]]
    end; cbn [fst snd]; injection H as <- <-; split; reflexivity.
  - apply String.eqb_neq in E4.
    eexists; eexists. split; [left; split; [exact E4|]; split; reflexivity|].
    unfold bind, emit, ret, pkg_PerformGitOperation, log_Fatal, return_ in H. cbn [app] in H.
    match goal with
    | |- context [run ?x] => destruct (run x) as [g [e|]]
    end; cbn [fst snd]; injection H as <- <-; split; reflexivity.
Qed.

Lemma gitEvents_app (a b : list CmdEvent) : gitEvents (a ++ b) = gitEvents a ++ gitEvents b.
Proof.
  induction a as [|ev a IH]; [reflexivity|].
  destruct ev; cbn [app gitEvents]; rewrite IH; reflexivity.
Qed.

Lemma gitEvents_map (g : History) : gitEvents (map Git g) = g.
Proof. induction g as [|ev g IH]; [reflexivity|]. cbn. now rewrite IH. Qed.

Lemma last_app_single {A : Type} (l : list A) (x d : A) : last (l ++ [x]) d = x.
Proof.
  induction l as [|y l IH]; [reflexivity|].
  cbn [app]. destruct (l ++ [x]) eqn:E; [now destruct l|]. exact IH.
Qed.

(** X12. The [clone] command with an empty [--from-repo-url],
    [--to-repo-url] or [--from-ref] logs one line and exits with status 1
    without any call of the Git operation. *)
Theorem missing_flag_is_fatal_before_any_call (m : Machine) (w : World) (f : Flags)
      (h : list CmdEvent) (code : nat) :
  main (Run m w f) = (h, code) ->
  fromRepoURL f = ""%string \/ toRepoURL f = ""%string \/ fromRef f = ""%string ->
  code = 1 /\ gitEvents h = [] /\ exists msg : string, h = [Log msg].
Proof.
  intros H Hmiss.
  apply clone_Run_cases in H
    as [(_ & -> & ->) | [(_ & _ & -> & ->) | [(_ & _ & _ & -> & ->) | (H1 & H2 & H3 & _)]]];
    try (split; [reflexivity|]; split; [reflexivity|]; eexists; reflexivity).
  exfalso. tauto.
Qed.

Lemma missing_flag_is_fatal_before_any_call_witness :
  snd (main (Run CloneExample.machine (Example.world None None) (CloneExample.flags "" "")))
  = 1 /\
  gitEvents (fst (main (Run CloneExample.machine (Example.world None None)
                          (CloneExample.flags "" "")))) = [] /\
  exists msg : string,
    fst (main (Run CloneExample.machine (Example.world None None) (CloneExample.flags "" "")))
    = [Log msg].
Proof.
  apply (missing_flag_is_fatal_before_any_call CloneExample.machine (Example.world None None)
           (CloneExample.flags "" "")).
  - apply surjective_pairing.
  - right. right. reflexivity.
Defined.

(** X13. The [clone] command exits with status 0 or 1.  With status 0 the
    success line is its last event and the operation has made exactly
    one push; with status 1 its last event is a log line and the success
    line is never printed. *)
Theorem exit_status_follows_the_operation (m : Machine) (w : World) (f : Flags)
      (h : list CmdEvent) (code : nat) :
  main (Run m w f) = (h, code) ->
  (code = 0 /\
   last h (Log "") = Println "Git 仓库克隆和推送操作成功完成！" /\
   exists po res, filter isPush (gitEvents h) = [EvPush po res]) \/
  (code = 1 /\
   (exists msg : string, last h (Log "") = Log msg) /\
   ~ In (Println "Git 仓库克隆和推送操作成功完成！") h).
Proof.
  intros H.
  apply clone_Run_cases in H
    as [(_ & -> & ->) | [(_ & _ & -> & ->) | [(_ & _ & _ & -> & ->) | (_ & _ & _ & H)]]];
    try (right; split; [reflexivity|]; split; [eexists; reflexivity|];
         cbn; intuition discriminate).
  destruct H as (dir & pre & Hpre & H).
  assert (Hnp : ~ In (Println "Git 仓库克隆和推送操作成功完成！") pre)
    by (destruct Hpre as [(_ & _ & ->) | (_ & _ & ->)]; cbn; intuition discriminate).
  assert (Hgp : gitEvents pre = [])
    by (destruct Hpre as [(_ & _ & ->) | (_ & _ & ->)]; reflexivity).
  destruct (run (PerformGitOperation w (options f dir))) as [g [e|]] eqn:Hrun; cbn [fst snd] in H;
    destruct H as [-> ->].
  - right. split; [reflexivity|]. rewrite app_assoc, last_app_single.
    split; [eexists; reflexivity|].
    intros Hin. apply in_app_or in Hin as [Hin|[Hin|[]]]; [|discriminate Hin].
    apply in_app_or in Hin as [Hin|Hin]; [exact (Hnp Hin)|].
    apply in_map_iff in Hin as (ev & Hev & _). discriminate Hev.
  - left. split; [reflexivity|]. rewrite app_assoc, last_app_single.
    split; [reflexivity|].
    rewrite !gitEvents_app, gitEvents_map, Hgp. cbn [gitEvents app]. rewrite app_nil_r.
    exact (nil_result_has_push _ _ _ Hrun).
Qed.

Lemma exit_status_follows_the_operation_witness :
  (snd (main (Run CloneExample.machine (Example.world None None)
                (CloneExample.flags "v0.0.1" ""))) = 0 /\
   last (fst (main (Run CloneExample.machine (Example.world None None)
                      (CloneExample.flags "v0.0.1" "")))) (Log "")
   = Println "Git 仓库克隆和推送操作成功完成！" /\
   exists po res,
     filter isPush (gitEvents (fst (main (Run CloneExample.machine (Example.world None None)
                                             (CloneExample.flags "v0.0.1" "")))))
     = [EvPush po res]) \/
  (snd (main (Run CloneExample.machine (Example.world None None)
                (CloneExample.flags "v0.0.1" ""))) = 1 /\
   (exists msg : string,
      last (fst (main (Run CloneExample.machine (Example.world None None)
                         (CloneExample.flags "v0.0.1" "")))) (Log "") = Log msg) /\
   ~ In (Println "Git 仓库克隆和推送操作成功完成！")
       (fst (main (Run CloneExample.machine (Example.world None None)
                     (CloneExample.flags "v0.0.1" ""))))).
Proof.
  apply (exit_status_follows_the_operation CloneExample.machine (Example.world None None)
           (CloneExample.flags "v0.0.1" "")).
  apply surjective_pairing.
Defined.

Lemma authOf_authOfToken (token : string) : authOf (authOfToken token) = credentials token.
Proof. unfold authOfToken, credentials. destruct (token =? "")%string; reflexivity. Qed.

(** Every call of a run carries the credentials of its side. *)
Lemma run_sided (w : World) (opts : GitOperationOptions) (h : History) (err : option error) :
  run (PerformGitOperation w opts) = (h, err) -> Forall (sided opts) h.
Proof.
  intros Hrun. apply run_inv in Hrun as (s & H & _).
  rewrite PerformGitOperation_split in H.
  assert (Hprep : emits (sided opts) (prepare w opts)).
  { apply prepare_emits; intros; cbn; auto. }
  apply bind_inv in H as [(r & H & _) | (po & h0 & H & H')].
  - destruct (emits_run _ _ _ _ _ Hprep H) as (evs & -> & F). exact F.
  - destruct (prepare_pushOptions _ _ _ _ _ H) as (specs & -> & _).
    destruct (emits_run _ _ _ _ _ Hprep H) as (evs & -> & F).
    assert (Hexec : emits (sided opts) (executePush w opts (pushOptions opts specs))).
    { apply executePush_emits; intros; cbn; auto. }
    destruct (emits_run _ _ _ _ _ Hexec H') as (evs' & -> & F').
    apply Forall_app. now split.
Qed.

(** X14. Every listing, clone and push the [clone] command causes carries
    the user [oauth2] with the token of its side, [--from-token] for the
    source and [--to-token] for the destination, and no credentials when
    that token is empty. *)
Theorem tokens_authenticate_as_oauth2 (m : Machine) (w : World) (f : Flags)
      (h : list CmdEvent) (code : nat) :
  main (Run m w f) = (h, code) -> Forall (authenticated f) (gitEvents h).
Proof.
  intros H.
  apply clone_Run_cases in H
    as [(_ & -> & ->) | [(_ & _ & -> & ->) | [(_ & _ & _ & -> & ->) | (_ & _ & _ & H)]]];
    try constructor.
  destruct H as (dir & pre & Hpre & H).
  assert (Hgp : gitEvents pre = [])
    by (destruct Hpre as [(_ & _ & ->) | (_ & _ & ->)]; reflexivity).
  pose proof (run_sided w (options f dir) _ _ (surjective_pairing _)) as Hs.
  assert (Hg : gitEvents h = fst (run (PerformGitOperation w (options f dir)))).
  { destruct (snd (run (PerformGitOperation w (options f dir)))); destruct H as [-> _];
      rewrite !gitEvents_app, gitEvents_map, Hgp; cbn [gitEvents app]; now rewrite app_nil_r. }
  rewrite Hg. revert Hs. apply Forall_impl.
  intros ev. destruct ev; cbn [sided authenticated options FromRepoURL ToRepoURL FromAuth ToAuth];
    rewrite ?authOf_authOfToken; tauto.
Qed.

Lemma tokens_authenticate_as_oauth2_witness :
  Forall (authenticated (CloneExample.flags "v0.0.1" ""))
    (gitEvents (fst (main (Run CloneExample.machine (Example.world None None)
                             (CloneExample.flags "v0.0.1" ""))))).
Proof.
  apply (tokens_authenticate_as_oauth2 CloneExample.machine (Example.world None None)
           (CloneExample.flags "v0.0.1" "") _
           (snd (main (Run CloneExample.machine (Example.world None None)
                         (CloneExample.flags "v0.0.1" ""))))).
  apply surjective_pairing.
Defined.

End CloneCommand.

(** ** The script: its arguments *)

Module ScriptMainProofs.
Import Script ScriptTrace ScriptParts ScriptProofs ScriptMain.

Lemma parseArguments_option (name value : string) (rest : list string) (v : Vars)
      (assign : string -> Vars -> Vars) :
  assignment name = Some assign ->
  parseArguments (name :: value :: rest) v = parseArguments rest (assign value v).
Proof. intros H. cbn [parseArguments]. now rewrite H. Qed.

Lemma parseArguments_words (settings : list (string * string)) (tail : list string)
      (v : Vars) :
  forallb (fun s => isOption (fst s)) settings = true ->
  parseArguments (words settings ++ tail) v = parseArguments tail (assignAll settings v).
Proof.
  revert v. induction settings as [|[name value] settings IH]; intros v H; [reflexivity|].
  cbn [forallb fst] in H. apply andb_prop in H as [Hn H].
  unfold isOption in Hn. destruct (assignment name) as [assign|] eqn:E; [|discriminate Hn].
  cbn [words app]. rewrite (parseArguments_option _ _ _ _ _ E), (IH _ H).
  unfold assignAll. cbn [fold_left fst snd]. now rewrite E.
Qed.

(** X15. A command line made of options with their values is consumed in
    pairs from left to right, without output, a later assignment
    overriding an earlier one; an option that comes last without a value
    sets its variable to the empty string. *)
Theorem arguments_assign_left_to_right (settings : list (string * string)) (v : Vars)
      (h : list ShEvent) :
  forallb (fun s => isOption (fst s)) settings = true ->
  parseArguments (words settings) v h = (h, Next (assignAll settings v)) /\
  forall name : string,
    isOption name = true ->
    parseArguments (words settings ++ [name]) v h
    = (h, Next (assignAll (settings ++ [(name, ""%string)]) v)).
Proof.
  intros H. split.
  - rewrite <- (app_nil_r (words settings)), (parseArguments_words _ _ _ H). reflexivity.
  - intros name Hn. rewrite (parseArguments_words _ _ _ H).
    unfold assignAll. rewrite fold_left_app. cbn [fold_left fst snd parseArguments].
    unfold isOption in Hn. destruct (assignment name); [reflexivity | discriminate Hn].
Qed.

Lemma arguments_assign_left_to_right_witness :
  parseArguments (words [("--from-ref", "v0.0.1"); ("--from-ref", "v0.0.2")])
    ScriptScenario.defaults []
  = ([], Next (assignAll [("--from-ref", "v0.0.1"); ("--from-ref", "v0.0.2")]
                 ScriptScenario.defaults)) /\
  forall name : string,
    isOption name = true ->
    parseArguments (words [("--from-ref", "v0.0.1"); ("--from-ref", "v0.0.2")] ++ [name])
      ScriptScenario.defaults []
    = ([], Next (assignAll ([("--from-ref", "v0.0.1"); ("--from-ref", "v0.0.2")]
                            ++ [(name, ""%string)]) ScriptScenario.defaults)).
Proof.
  apply (arguments_assign_left_to_right
           [("--from-ref", "v0.0.1"); ("--from-ref", "v0.0.2")] ScriptScenario.defaults []).
  vm_compute. reflexivity.
Defined.

(** X16. After any options with their values, [-h] or [--help] prints the
    help and exits with status 0, and any other word that is no option
    prints the error and the help and exits with status 1.  In both cases
    the only command that ran is the [date] of section 1, and the rest of
    the command line is not looked at. *)
Theorem help_or_unknown_word_stops_the_script (w : ShWorld) (env : Environment)
      (settings : list (string * string)) (word : string) (rest : list string)
      (h : list ShEvent) (code : nat) :
  forallb (fun s => isOption (fst s)) settings = true ->
  isOption word = false ->
  Script.run (main w env (words settings ++ word :: rest)) = (h, code) ->
  exists (st : nat) (out : string),
    (((word =? "-h") || (word =? "--help"))%string = true /\
     h = [Run (date "+%Y%m%d%H%M%S") st out; ShowHelp] /\ code = 0) \/
    (((word =? "-h") || (word =? "--help"))%string = false /\
     h = [Run (date "+%Y%m%d%H%M%S") st out;
          Echo ("Error: Unknown parameter '" ++ word ++ "'"); ShowHelp] /\ code = 1).
Proof.
  intros Hs Hw Hrun. unfold Script.run, main, initialise in Hrun.
  unfold bind at 1 2 in Hrun. unfold sh, ask in Hrun. cbn [app fst snd] in Hrun.
  destruct (w [] (date "+%Y%m%d%H%M%S")) as [st out]. cbn [fst snd ret] in Hrun.
  unfold bind at 1 in Hrun.
  rewrite (parseArguments_words _ _ _ Hs) in Hrun.
  cbn [parseArguments] in Hrun. unfold isOption in Hw.
  destruct (assignment word); [discriminate Hw|].
  destruct ((word =? "-h") || (word =? "--help"))%string;
    cbn in Hrun; injection Hrun as <- <-; do 2 eexists; [left | right]; repeat split.
Qed.

Lemma help_or_unknown_word_stops_the_script_witness :
  exists (st : nat) (out : string),
    ((("--verbose" =? "-h") || ("--verbose" =? "--help"))%string = true /\
     fst (Script.run (main (Example.shell [] 0) ScriptScenario.environment
                        (words [("--from-ref", "v0.0.1")] ++ "--verbose" :: ["--from-repo-url"])))
     = [Run (date "+%Y%m%d%H%M%S") st out; ShowHelp] /\
     snd (Script.run (main (Example.shell [] 0) ScriptScenario.environment
                        (words [("--from-ref", "v0.0.1")] ++ "--verbose" :: ["--from-repo-url"])))
     = 0) \/
    ((("--verbose" =? "-h") || ("--verbose" =? "--help"))%string = false /\
     fst (Script.run (main (Example.shell [] 0) ScriptScenario.environment
                        (words [("--from-ref", "v0.0.1")] ++ "--verbose" :: ["--from-repo-url"])))
     = [Run (date "+%Y%m%d%H%M%S") st out;
        Echo ("Error: Unknown parameter '" ++ "--verbose" ++ "'"); ShowHelp] /\
     snd (Script.run (main (Example.shell [] 0) ScriptScenario.environment
                        (words [("--from-ref", "v0.0.1")] ++ "--verbose" :: ["--from-repo-url"])))
     = 1).
Proof.
  apply (help_or_unknown_word_stops_the_script (Example.shell [] 0)
           ScriptScenario.environment [("--from-ref", "v0.0.1")] "--verbose"
           ["--from-repo-url"]).
  - vm_compute. reflexivity.
  - vm_compute. reflexivity.
  - apply surjective_pairing.
Defined.

Lemma orDefault_nonempty (x : option string) (default : string) :
  default <> ""%string -> orDefault x default <> ""%string.
Proof.
  intros Hd. unfold orDefault. destruct x as [s|]; [|exact Hd].
  unfold isEmpty. destruct (s =? "")%string eqn:E; [exact Hd|]. now apply String.eqb_neq.
Qed.

(** An option that is not on the command line leaves its variable as it
    was. *)
Lemma parseArguments_keeps_tokens (n : nat) :
  forall (args : list string) (v v' : Vars) (h h' : list ShEvent),
    length args <= n ->
    parseArguments args v h = (h', Next v') ->
    (~ In "--source-token"%string args -> SOURCE_GIT_TOKEN v' = SOURCE_GIT_TOKEN v) /\
    (~ In "--dest-token"%string args -> DEST_GIT_TOKEN v' = DEST_GIT_TOKEN v).
Proof.
  induction n as [|n IH]; intros args v v' h h' Hlen H.
  { destruct args; [|cbn in Hlen; lia]. cbn in H. injection H as _ <-. now split. }
  destruct args as [|name rest]; [cbn in H; injection H as _ <-; now split|].
  cbn [parseArguments] in H.
  assert (Hop : forall assign, assignment name = Some assign ->
            forall value u,
              (name <> "--source-token"%string ->
               SOURCE_GIT_TOKEN (assign value u) = SOURCE_GIT_TOKEN u) /\
              (name <> "--dest-token"%string ->
               DEST_GIT_TOKEN (assign value u) = DEST_GIT_TOKEN u)).
  { intros assign Ha value u. unfold assignment in Ha.
    repeat match type of Ha with
           | (if (?a =? ?b)%string then _ else _) = _ =>
               let E := fresh "E" in
               destruct (a =? b)%string eqn:E;
               [apply String.eqb_eq in E; subst name; injection Ha as <-;
                split; intros Hne; first [reflexivity | now elim Hne]|]
           end.
    discriminate Ha. }
  destruct (assignment name) as [assign|] eqn:Ea.
  - specialize (Hop assign eq_refl).
    destruct rest as [|value rest'].
    + injection H as _ <-. split; intros Hn; apply Hop; intros ->; apply Hn; now left.
    + cbn [length] in Hlen.
      apply IH in H as [Hs Hd]; [|lia].
      split; intros Hn.
      * rewrite Hs; [apply Hop; intros ->; apply Hn; now left|].
        intros Hin. apply Hn. right. now right.
      * rewrite Hd; [apply Hop; intros ->; apply Hn; now left|].
        intros Hin. apply Hn. right. now right.
  - destruct ((name =? "-h") || (name =? "--help"))%string; discriminate H.
Qed.

(** X17. Unless [--source-token] (or [--dest-token]) is on the command line,
    that token is not empty after the arguments are parsed, whatever the
    environment: an unset or empty variable gives the placeholder.  So
    without these options the validation of section 2 can only fail for a
    missing required parameter, never for a missing token. *)
Theorem tokens_default_to_placeholders (w : ShWorld) (env : Environment)
      (args : list string) (h0 h1 h2 : list ShEvent) (v0 v : Vars) :
  initialise w env h0 = (h1, Next v0) ->
  parseArguments args v0 h1 = (h2, Next v) ->
  (~ In "--source-token"%string args -> SOURCE_GIT_TOKEN v <> ""%string) /\
  (~ In "--dest-token"%string args -> DEST_GIT_TOKEN v <> ""%string) /\
  (~ In "--source-token"%string args -> ~ In "--dest-token"%string args ->
   forall (h h' : list ShEvent) (code : nat),
     validate v h = (h', Return code) ->
     SOURCE_REPO_URL v = ""%string \/ DEST_REPO_URL v = ""%string \/ SOURCE_REF v = ""%string).
Proof.
  intros Hi Hp.
  assert (Hv0 : SOURCE_GIT_TOKEN v0 <> ""%string /\ DEST_GIT_TOKEN v0 <> ""%string).
  { unfold initialise, bind, sh, ask in Hi. cbn [fst snd] in Hi.
    destruct (w h0 (date "+%Y%m%d%H%M%S")) as [st out]. cbn in Hi. injection Hi as _ <-.
    cbn [SOURCE_GIT_TOKEN DEST_GIT_TOKEN]. split; apply orDefault_nonempty; discriminate. }
  destruct Hv0 as [Hs0 Hd0].
  destruct (parseArguments_keeps_tokens _ _ _ _ _ _ (le_n _) Hp) as [Hs Hd].
  split; [intros Hn; now rewrite Hs|]. split; [intros Hn; now rewrite Hd|].
  intros Hns Hnd h h' code Hval.
  specialize (Hs Hns). specialize (Hd Hnd).
  unfold validate in Hval.
  apply String.eqb_neq in Hs0, Hd0. unfold isEmpty in Hval. rewrite Hs, Hd, Hs0, Hd0 in Hval.
  cbn [andb when] in Hval.
  destruct (SOURCE_REPO_URL v =? "")%string eqn:E1; [apply String.eqb_eq in E1; auto|].
  destruct (DEST_REPO_URL v =? "")%string eqn:E2; [apply String.eqb_eq in E2; auto|].
  destruct (SOURCE_REF v =? "")%string eqn:E3; [apply String.eqb_eq in E3; auto|].
  discriminate Hval.
Qed.

Lemma tokens_default_to_placeholders_witness :
  (~ In "--source-token"%string ["--from-ref"; "v0.0.1"] ->
   SOURCE_GIT_TOKEN (assignAll [("--from-ref", "v0.0.1")] ScriptScenario.defaults)
   <> ""%string) /\
  (~ In "--dest-token"%string ["--from-ref"; "v0.0.1"] ->
   DEST_GIT_TOKEN (assignAll [("--from-ref", "v0.0.1")] ScriptScenario.defaults)
   <> ""%string) /\
  (~ In "--source-token"%string ["--from-ref"; "v0.0.1"] ->
   ~ In "--dest-token"%string ["--from-ref"; "v0.0.1"] ->
   forall (h h' : list ShEvent) (code : nat),
     validate (assignAll [("--from-ref", "v0.0.1")] ScriptScenario.defaults) h
     = (h', Return code) ->
     SOURCE_REPO_URL (assignAll [("--from-ref", "v0.0.1")] ScriptScenario.defaults)
     = ""%string \/
     DEST_REPO_URL (assignAll [("--from-ref", "v0.0.1")] ScriptScenario.defaults)
     = ""%string \/
     SOURCE_REF (assignAll [("--from-ref", "v0.0.1")] ScriptScenario.defaults) = ""%string).
Proof.
  apply (tokens_default_to_placeholders (Example.shell [] 0) ScriptScenario.environment
           ["--from-ref"; "v0.0.1"] []
           (fst (initialise (Example.shell [] 0) ScriptScenario.environment []))
           (fst (initialise (Example.shell [] 0) ScriptScenario.environment []))
           ScriptScenario.defaults).
  - vm_compute. reflexivity.
  - vm_compute. reflexivity.
Defined.

End ScriptMainProofs.

(** ** The script: its sections *)

Module ScriptStages.
Import Script ScriptTrace ScriptParts ScriptProofs ScriptMain ScriptKinds.

(** The run of the script, section by section. *)
Lemma script_stages (w : ShWorld) (v : Vars) (h : list ShEvent) (code : nat) :
  Script.run (script w v) = (h, code) ->
  exists h2 s2, validate v [] = (h2, s2) /\
    match s2 with
    | Return c => h = h2 /\ code = c
    | Next _ =>
    exists h3 s3, precheck w v h2 = (h3, s3) /\
    match s3 with
    | Return c => h = h3 /\ code = c
    | Next _ =>
    exists h4 s4, cloneSource w v h3 = (h4, s4) /\
    match s4 with
    | Return c => h = h4 /\ code = c
    | Next _ =>
    exists h5 s5, resolveCommit w v h4 = (h5, s5) /\
    match s5 with
    | Return c => h = h5 /\ code = c
    | Next (REF_TYPE, COMMIT_ID_TO_PUSH) =>
    exists h6 s6, createTempBranch w COMMIT_ID_TO_PUSH h5 = (h6, s6) /\
    match s6 with
    | Return c => h = h6 /\ code = c
    | Next seconds =>
    exists h7 s7, addRemote w v h6 = (h7, s7) /\
    match s7 with
    | Return c => h = h7 /\ code = c
    | Next _ =>
    exists h8 s8, pushObjects w v seconds h7 = (h8, s8) /\
    match s8 with
    | Return c => h = h8 /\ code = c
    | Next REMOTE_TEMP =>
    exists h9 s9, pushReference w v REF_TYPE h8 = (h9, s9) /\
    match s9 with
    | Return c => h = h9 /\ code = c
    | Next _ =>
    cleanup w v seconds REMOTE_TEMP h9 = (h, Next tt) /\ code = 0
    end end end end end end end end.
Proof.
  intros H. apply script_run_inv in H as (s & H & ->). unfold script in H.
  apply bind_inv in H as [(r & H & ->) | (u2 & h2 & H2 & H)];
    [exists h, (Return r); now repeat split|].
  exists h2, (Next u2). split; [exact H2|].
  apply bind_inv in H as [(r & H & ->) | (u3 & h3 & H3 & H)];
    [exists h, (Return r); now repeat split|].
  exists h3, (Next u3). split; [exact H3|].
  apply bind_inv in H as [(r & H & ->) | (u4 & h4 & H4 & H)];
    [exists h, (Return r); now repeat split|].
  exists h4, (Next u4). split; [exact H4|].
  apply bind_inv in H as [(r & H & ->) | ([RT C] & h5 & H5 & H)];
    [exists h, (Return r); now repeat split|].
  exists h5, (Next (RT, C)). split; [exact H5|].
  apply bind_inv in H as [(r & H & ->) | (secs & h6 & H6 & H)];
    [exists h, (Return r); now repeat split|].
  exists h6, (Next secs). split; [exact H6|].
  apply bind_inv in H as [(r & H & ->) | (u7 & h7 & H7 & H)];
    [exists h, (Return r); now repeat split|].
  exists h7, (Next u7). split; [exact H7|].
  apply bind_inv in H as [(r & H & ->) | (R & h8 & H8 & H)];
    [exists h, (Return r); now repeat split|].
  exists h8, (Next R). split; [exact H8|].
  apply bind_inv in H as [(r & H & ->) | (u9 & h9 & H9 & H)];
    [exists h, (Return r); now repeat split|].
  exists h9, (Next u9). split; [exact H9|].
  apply bind_inv in H as [(r & H & _) | ([] & h10 & H10 & H)].
  { apply cleanup_inv in H as ([=] & _). }
  unfold exit, return_ in H. injection H as <- <-. now split.
Qed.

Lemma validate_run (v : Vars) (h : list ShEvent) :
  validate v h =
  if isEmpty (SOURCE_REPO_URL v) || isEmpty (DEST_REPO_URL v) || isEmpty (SOURCE_REF v) then
    (h ++ [Echo "Error: Missing required parameters (--from-repo-url, --to-repo-url, --from-ref).";
           ShowHelp], Return 1)
  else if isEmpty (SOURCE_GIT_TOKEN v) && knownHost (SOURCE_REPO_URL v) then
    (h ++ [Echo "Error: Source repository requires authentication, but SOURCE_GIT_TOKEN is not set. Please provide it via --source-token or environment variable SOURCE_GIT_TOKEN."],
     Return 1)
  else if isEmpty (DEST_GIT_TOKEN v) && knownHost (DEST_REPO_URL v) then
    (h ++ [Echo "Error: Destination repository requires authentication, but DEST_GIT_TOKEN is not set. Please provide it via --dest-token or environment variable DEST_GIT_TOKEN."],
     Return 1)
  else (h, Next tt).
Proof.
  unfold validate.
  destruct (isEmpty (SOURCE_REPO_URL v) || isEmpty (DEST_REPO_URL v) || isEmpty (SOURCE_REF v));
    [cbn; now rewrite <- app_assoc|].
  destruct (isEmpty (SOURCE_GIT_TOKEN v) && knownHost (SOURCE_REPO_URL v)); [reflexivity|].
  destruct (isEmpty (DEST_GIT_TOKEN v) && knownHost (DEST_REPO_URL v)); reflexivity.
Qed.

(** X18. With a required parameter empty, or with an empty token for a URL
    of a known host, the script exits with status 1 and runs no command;
    the help is printed exactly when a required parameter is empty. *)
Theorem invalid_parameters_run_no_command (w : ShWorld) (v : Vars) (h : list ShEvent)
      (code : nat) :
  Script.run (script w v) = (h, code) ->
  SOURCE_REPO_URL v = ""%string \/ DEST_REPO_URL v = ""%string \/ SOURCE_REF v = ""%string \/
  (SOURCE_GIT_TOKEN v = ""%string /\ knownHost (SOURCE_REPO_URL v) = true) \/
  (DEST_GIT_TOKEN v = ""%string /\ knownHost (DEST_REPO_URL v) = true) ->
  code = 1 /\
  filter isRun h = [] /\
  (In ShowHelp h <->
   SOURCE_REPO_URL v = ""%string \/ DEST_REPO_URL v = ""%string \/ SOURCE_REF v = ""%string).
Proof.
  intros Hrun Hbad.
  apply script_stages in Hrun as (h2 & s2 & H2 & Hrest).
  rewrite validate_run in H2. unfold isEmpty in H2.
  destruct (SOURCE_REPO_URL v =? "")%string eqn:E1;
    [injection H2 as <- <-; destruct Hrest as [-> ->]; apply String.eqb_eq in E1;
     repeat split; cbn; auto|].
  destruct (DEST_REPO_URL v =? "")%string eqn:E2;
    [injection H2 as <- <-; destruct Hrest as [-> ->]; apply String.eqb_eq in E2;
     repeat split; cbn; auto|].
  destruct (SOURCE_REF v =? "")%string eqn:E3;
    [injection H2 as <- <-; destruct Hrest as [-> ->]; apply String.eqb_eq in E3;
     repeat split; cbn; auto|].
  apply String.eqb_neq in E1, E2, E3. cbn [orb] in H2.
  assert (Hno : ~ (SOURCE_REPO_URL v = ""%string \/ DEST_REPO_URL v = ""%string
                   \/ SOURCE_REF v = ""%string)) by tauto.
  destruct ((SOURCE_GIT_TOKEN v =? "")%string && knownHost (SOURCE_REPO_URL v)) eqn:E4;
    [injection H2 as <- <-; destruct Hrest as [-> ->];
     repeat split; cbn; try tauto; intros [H|[]]; discriminate H|].
  destruct ((DEST_GIT_TOKEN v =? "")%string && knownHost (DEST_REPO_URL v)) eqn:E5;
    [injection H2 as <- <-; destruct Hrest as [-> ->];
     repeat split; cbn; try tauto; intros [H|[]]; discriminate H|].
  exfalso.
  destruct Hbad as [H|[H|[H|[[H H']|[H H']]]]]; try tauto.
  - rewrite H, H' in E4. discriminate E4.
  - rewrite H, H' in E5. discriminate E5.
Qed.

Lemma invalid_parameters_run_no_command_witness :
  snd (Script.run (script (Example.shell [] 0) ScriptScenario.withoutReference)) = 1 /\
  filter isRun (fst (Script.run (script (Example.shell [] 0) ScriptScenario.withoutReference))) = [] /\
  (In ShowHelp (fst (Script.run (script (Example.shell [] 0) ScriptScenario.withoutReference))) <->
   SOURCE_REPO_URL ScriptScenario.withoutReference = ""%string \/
   DEST_REPO_URL ScriptScenario.withoutReference = ""%string \/
   SOURCE_REF ScriptScenario.withoutReference = ""%string).
Proof.
  apply (invalid_parameters_run_no_command (Example.shell [] 0) ScriptScenario.withoutReference).
  - apply surjective_pairing.
  - right. right. left. reflexivity.
Defined.

(** All that follows the pre-checks: sections 4 to 10. *)
Lemma afterPrecheck_emits (P : ShEvent -> Prop) (w : ShWorld) (v : Vars) :
  (forall c st out, (forall dir, c <> test_d dir) -> P (Run c st out)) ->
  (forall msg, P (Echo msg)) ->
  emits P (afterPrecheck w v).
Proof.
  intros Hrun Hecho. unfold afterPrecheck. sh_emits; first [apply Hecho | apply Hrun; intros; discriminate].
Qed.

Lemma cloneToRemote_starts (w : ShWorld) (v : Vars) (h h' : list ShEvent)
      (s : Step nat (string * string)) :
  cloneToRemote w v h = (h', s) ->
  exists st out tail,
    h' = h ++ Echo ("--- Cloning source repository: " ++ SOURCE_REPO_URL v ++ " to "
                    ++ LOCAL_CLONE_DIR v ++ " ---")
           :: Run (git_clone (SOURCE_REPO_URL_AUTH v) (LOCAL_CLONE_DIR v)) st out :: tail.
Proof.
  unfold cloneToRemote. intros H.
  assert (Hrem : emits (fun _ => True)
                   ('(REF_TYPE, COMMIT_ID_TO_PUSH) <- resolveCommit w v ;;
                    seconds <- createTempBranch w COMMIT_ID_TO_PUSH ;;
                    addRemote w v ;;
                    ret (REF_TYPE, seconds))) by (sh_emits; exact I).
  apply bind_inv in H as [(r & H & _) | (u & h1 & H & H')].
  - unfold cloneSource in H. sh_cases H;
      apply pair_equal_spec in H as [<- _]; do 3 eexists; reflexivity.
  - destruct (emits_run _ _ _ _ _ Hrem H') as (evs & -> & _).
    unfold cloneSource in H. sh_cases H;
      apply pair_equal_spec in H as [<- H]; try discriminate H;
      rewrite <- ?app_assoc; cbn [app]; do 3 eexists; reflexivity.
Qed.

Lemma afterPrecheck_starts (w : ShWorld) (v : Vars) (h h' : list ShEvent)
      (s : Step nat unit) :
  afterPrecheck w v h = (h', s) ->
  exists st out tail,
    h' = h ++ Echo ("--- Cloning source repository: " ++ SOURCE_REPO_URL v ++ " to "
                    ++ LOCAL_CLONE_DIR v ++ " ---")
           :: Run (git_clone (SOURCE_REPO_URL_AUTH v) (LOCAL_CLONE_DIR v)) st out :: tail.
Proof.
  unfold afterPrecheck. intros H.
  apply bind_inv in H as [(r & H & _) | ([RT secs] & h4 & H & H')].
  - now apply cloneToRemote_starts in H.
  - apply cloneToRemote_starts in H as (st & out & tail & ->).
    assert (Hrem : emits (fun _ => True)
                     (REMOTE_TEMP <- publish w v RT secs ;;
                      cleanup w v secs REMOTE_TEMP ;;
                      (exit 0 : Sh unit))) by (sh_emits; exact I).
    destruct (emits_run _ _ _ _ _ Hrem H') as (evs & -> & _).
    rewrite <- app_assoc. cbn [app]. do 3 eexists. reflexivity.
Qed.

(** X19. When the clone directory exists, the script warns and removes it
    right after the test, before anything else.  When the removal fails
    the script exits with status 1 after its error message; otherwise the
    clone follows. *)
Theorem existing_clone_directory_is_removed_first (w : ShWorld) (v : Vars)
      (h : list ShEvent) (code : nat) (out : string) :
  Script.run (script w v) = (h, code) ->
  In (Run (test_d (LOCAL_CLONE_DIR v)) 0 out) h ->
  exists (st : nat) (out' : string) (rest : list ShEvent),
    h = Run (test_d (LOCAL_CLONE_DIR v)) 0 out
        :: Echo ("Warning: Local clone directory '" ++ LOCAL_CLONE_DIR v
                 ++ "' already exists. Attempting to remove and recreate to avoid conflicts.")
        :: Run (rm_rf (LOCAL_CLONE_DIR v)) st out' :: rest /\
    (st <> 0 ->
     code = 1 /\
     rest = [Echo ("Error: Could not remove existing directory '" ++ LOCAL_CLONE_DIR v
                   ++ "'. Please remove it manually or specify a different directory name.")]) /\
    (st = 0 ->
     exists st2 out2 rest',
       rest = Echo ("--- Cloning source repository: " ++ SOURCE_REPO_URL v ++ " to "
                    ++ LOCAL_CLONE_DIR v ++ " ---")
              :: Run (git_clone (SOURCE_REPO_URL_AUTH v) (LOCAL_CLONE_DIR v)) st2 out2
              :: rest').
Proof.
  intros Hrun Hin.
  pose (P := fun ev => match ev with Run (test_d _) _ _ => False | _ => True end).
  assert (HP : forall l : list ShEvent,
             Forall P l -> ~ In (Run (test_d (LOCAL_CLONE_DIR v)) 0 out) l).
  { intros l F Hl. rewrite Forall_forall in F. apply F in Hl. exact Hl. }
  assert (Hrem : emits P (afterPrecheck w v)).
  { apply afterPrecheck_emits; [|intros; exact I].
    intros c st o Hc. destruct c; try exact I. now elim (Hc dir). }
  apply script_run_inv in Hrun as (s & H & ->).
  rewrite script_split in H. fold (afterPrecheck w v) in H. unfold beforeClone in H.
  rewrite bind_assoc in H.
  apply bind_inv in H as [(r & H & ->) | ([] & h2 & H2 & H)]; rewrite validate_run in *.
  { exfalso.
    repeat match type of H with
           | (if ?x then _ else _) = _ => destruct x
           end; try discriminate H; injection H as <- _;
      cbn in Hin; intuition discriminate. }
  assert (h2 = []) as ->.
  { repeat match type of H2 with
           | (if ?x then _ else _) = _ => destruct x
           end; try discriminate H2. now injection H2. }
  clear H2.
  apply bind_inv in H as [(r & H & ->) | ([] & h3 & H3 & H)].
  - (* the removal failed *)
    unfold precheck in H. sh_cases H;
      apply pair_equal_spec in H as [<- H]; try discriminate H; injection H as <-;
      cbn [In] in Hin; decompose [or] Hin; clear Hin; try discriminate; try contradiction.
    match goal with
    | H : Run _ _ _ = Run _ _ _ |- _ => injection H as -> ->
    end.
    do 3 eexists. split; [reflexivity|].
    split; [intros _; split; reflexivity|].
    intros ->. discriminate.
  - destruct (emits_run _ _ _ _ _ Hrem H) as (evs & E & F).
    apply afterPrecheck_starts in H as (st2 & out2 & tail & E').
    rewrite E' in E. apply app_inv_head in E. subst evs.
    unfold precheck in H3. sh_cases H3;
      apply pair_equal_spec in H3 as [<- H3]; try discriminate H3;
      subst h; cbn [app] in Hin |- *;
      cbn [In] in Hin; decompose [or] Hin; clear Hin; try discriminate;
      try (exfalso; eapply HP; [exact F | right; right; eassumption]).
    all: match goal with
         | H : Run _ _ _ = Run _ _ _ |- _ => injection H as -> ->
         end.
    all: try discriminate.
    do 3 eexists. split; [reflexivity|].
    split.
    + intros Hst. exfalso.
      match goal with
      | H : (?n =? 0)%nat = true |- _ => apply Nat.eqb_eq in H; contradiction
      end.
    + intros _. do 3 eexists. reflexivity.
Qed.

Lemma existing_clone_directory_is_removed_first_witness :
  exists (st : nat) (out' : string) (rest : list ShEvent),
    fst (Script.run (script ScriptScenario.existingDirectory Example.vars))
    = Run (test_d (LOCAL_CLONE_DIR Example.vars)) 0 ""
      :: Echo ("Warning: Local clone directory '" ++ LOCAL_CLONE_DIR Example.vars
               ++ "' already exists. Attempting to remove and recreate to avoid conflicts.")
      :: Run (rm_rf (LOCAL_CLONE_DIR Example.vars)) st out' :: rest /\
    (st <> 0 ->
     snd (Script.run (script ScriptScenario.existingDirectory Example.vars)) = 1 /\
     rest = [Echo ("Error: Could not remove existing directory '"
                   ++ LOCAL_CLONE_DIR Example.vars
                   ++ "'. Please remove it manually or specify a different directory name.")]) /\
    (st = 0 ->
     exists st2 out2 rest',
       rest = Echo ("--- Cloning source repository: " ++ SOURCE_REPO_URL Example.vars ++ " to "
                    ++ LOCAL_CLONE_DIR Example.vars ++ " ---")
              :: Run (git_clone (SOURCE_REPO_URL_AUTH Example.vars)
                        (LOCAL_CLONE_DIR Example.vars)) st2 out2
              :: rest').
Proof.
  apply (existing_clone_directory_is_removed_first ScriptScenario.existingDirectory
           Example.vars).
  - apply surjective_pairing.
  - vm_compute. left. reflexivity.
Defined.

Lemma quiet_no_show_ref (l : list ShEvent) (ref : string) (st : nat) (out : string) :
  Forall quiet l -> ~ In (Run (git_show_ref_verify ref) st out) l.
Proof.
  intros F H. rewrite Forall_forall in F. apply F in H as (H & _). discriminate H.
Qed.

Lemma quiet_pushSpecs (l : list ShEvent) : Forall quiet l -> pushSpecs l = [].
Proof.
  induction 1 as [|ev l (_ & Hp & _) _ IH]; [reflexivity|].
  change (ev :: l) with ([ev] ++ l). now rewrite pushSpecs_app, Hp, IH.
Qed.

Lemma quiet_deletes (l : list ShEvent) : Forall quiet l -> deletes l = [].
Proof.
  induction 1 as [|ev l (_ & _ & Hd) _ IH]; [reflexivity|].
  change (ev :: l) with ([ev] ++ l). now rewrite deletes_app, Hd, IH.
Qed.

Lemma beforeClone_quiet (w : ShWorld) (v : Vars) : emits quiet (beforeClone w v).
Proof. sh_emits; repeat split; reflexivity. Qed.

(** The fifth section, event by event: the tag is asked about first, the
    branch only when there is no such tag. *)
Lemma resolveCommit_inv (w : ShWorld) (v : Vars) (h h' : list ShEvent)
      (s : Step nat (string * string)) :
  resolveCommit w v h = (h', s) ->
  exists st o tail,
    h' = h ++ Echo ("--- Resolving Commit ID for reference '" ++ SOURCE_REF v ++ "' ---")
           :: Run (git_show_ref_verify ("refs/tags/" ++ SOURCE_REF v)) st o :: tail /\
    ((st = 0 /\ Forall quiet tail /\
      forall RT C, s = Next (RT, C) -> RT = "tag"%string) \/
     (st <> 0 /\
      exists st2 o2 tail2,
        tail = Run (git_show_ref_verify ("refs/heads/" ++ SOURCE_REF v)) st2 o2 :: tail2 /\
        Forall quiet tail2 /\
        forall RT C, s = Next (RT, C) -> RT = "branch"%string /\ st2 = 0)).
Proof.
  unfold resolveCommit. intros H. sh_cases H;
    apply pair_equal_spec in H as [<- <-];
    do 3 eexists; (split; [reflexivity|]);
    repeat match goal with
           | H : (_ =? 0)%nat = true |- _ => apply Nat.eqb_eq in H
           | H : (_ =? 0)%nat = false |- _ => apply Nat.eqb_neq in H
           end;
    first
      [ left; split; [assumption|]; split;
        [repeat constructor | intros RT C [=]; congruence]
      | right; split; [assumption|]; do 3 eexists; split; [reflexivity|]; split;
        [repeat constructor | intros RT C [=]; split; congruence] ].
Qed.

(** Sections 4 to 7: only section 5 asks about local references. *)
Lemma cloneToRemote_kind (w : ShWorld) (v : Vars) (h h' : list ShEvent)
      (s : Step nat (string * string)) :
  cloneToRemote w v h = (h', s) ->
  exists evs,
    h' = h ++ evs /\
    pushSpecs evs = [] /\ deletes evs = [] /\
    ((forall out, ~ In (Run (git_show_ref_verify ("refs/tags/" ++ SOURCE_REF v)) 0 out) evs) \/
     ((forall st o, ~ In (Run (git_show_ref_verify ("refs/heads/" ++ SOURCE_REF v)) st o) evs) /\
      forall RT secs, s = Next (RT, secs) -> RT = "tag"%string)).
Proof.
  unfold cloneToRemote. intros H.
  assert (E4 : emits quiet (cloneSource w v)) by (sh_emits; repeat split; reflexivity).
  assert (E67 : forall C RT, emits quiet (seconds <- createTempBranch w C ;;
                                          addRemote w v ;;
                                          (ret (RT, seconds) : Sh (string * string))))
    by (intros; sh_emits; repeat split; reflexivity).
  assert (Hq : forall (l : list ShEvent) ref st out,
             Forall quiet l -> ~ In (Run (git_show_ref_verify ref) st out) l)
    by (intros; now apply quiet_no_show_ref).
  assert (Hheads : forall st o out,
             Run (git_show_ref_verify ("refs/heads/" ++ SOURCE_REF v)) st o
             <> Run (git_show_ref_verify ("refs/tags/" ++ SOURCE_REF v)) 0 out)
    by (intros st o out [=]).
  assert (Htags : forall st o st' o',
             Run (git_show_ref_verify ("refs/tags/" ++ SOURCE_REF v)) st o
             <> Run (git_show_ref_verify ("refs/heads/" ++ SOURCE_REF v)) st' o')
    by (intros st o st' o' [=]).
  apply bind_inv in H as [(r & H & ->) | (u4 & h4 & H4 & H)].
  { destruct (emits_run _ _ _ _ _ E4 H) as (evs & -> & F). exists evs.
    split; [reflexivity|]. split; [now apply quiet_pushSpecs|].
    split; [now apply quiet_deletes|]. left. intros out. now apply Hq. }
  destruct (emits_run _ _ _ _ _ E4 H4) as (evs4 & -> & F4).
  assert (Hrest : exists evs5 (s5 : Step nat (string * string)) evs67,
             resolveCommit w v (h ++ evs4) = ((h ++ evs4) ++ evs5, s5) /\
             h' = ((h ++ evs4) ++ evs5) ++ evs67 /\ Forall quiet evs67 /\
             (s5 = s \/ exists RT C, s5 = Next (RT, C) /\
                          (forall RT' secs', s = Next (RT', secs') -> RT' = RT))).
  { apply bind_inv in H as [(r & H & ->) | ([RT C] & h5 & H5 & H)].
    - pose proof H as H'. apply resolveCommit_inv in H' as (st & o & tail & E & _).
      eexists (_ :: _ :: tail), (Return r), [].
      rewrite app_nil_r, <- E. repeat split; auto.
    - pose proof H5 as H'. apply resolveCommit_inv in H' as (st & o & tail & E & _).
      destruct (emits_run _ _ _ _ _ (E67 C RT) H) as (evs67 & -> & F67).
      eexists (_ :: _ :: tail), (Next (RT, C)), evs67. rewrite <- E.
      split; [exact H5|]. split; [reflexivity|]. split; [exact F67|].
      right. exists RT, C. split; [reflexivity|].
      intros RT' secs' ->.
      apply bind_inv in H as [(r & _ & [=]) | (secs & h6 & _ & H)].
      apply bind_inv in H as [(r & _ & [=]) | (u7 & h7 & _ & H)].
      unfold ret in H. now injection H. }
  destruct Hrest as (evs5 & s5 & evs67 & H5 & -> & F67 & Hs).
  clear H.
  apply resolveCommit_inv in H5 as (st & o & tail & E & Hkind).
  apply app_inv_head in E. subst evs5.
  exists (evs4 ++ (Echo ("--- Resolving Commit ID for reference '" ++ SOURCE_REF v ++ "' ---")
                   :: Run (git_show_ref_verify ("refs/tags/" ++ SOURCE_REF v)) st o :: tail)
          ++ evs67).
  split; [now rewrite <- !app_assoc|].
  assert (Hlocal : forall l, Forall quiet l -> pushSpecs l = [] /\ deletes l = [])
    by (intros; split; [now apply quiet_pushSpecs | now apply quiet_deletes]).
  destruct Hkind as [(-> & Ft & Hk) | (Hst & st2 & o2 & tail2 & -> & Ft & Hk)].
  - rewrite !pushSpecs_app, !deletes_app.
    destruct (Hlocal _ F4) as [-> ->]. destruct (Hlocal _ F67) as [-> ->].
    cbn [pushSpecs deletes app]. destruct (Hlocal _ Ft) as [-> ->].
    split; [reflexivity|]. split; [reflexivity|]. right. split.
    + intros st' o' Hin.
      apply in_app_or in Hin as [Hin|Hin]; [exact (Hq _ _ _ _ F4 Hin)|].
      cbn [app] in Hin.
      destruct Hin as [Hin|[Hin|Hin]]; [discriminate Hin | exact (Htags _ _ _ _ Hin)|].
      apply in_app_or in Hin as [Hin|Hin];
        [exact (Hq _ _ _ _ Ft Hin) | exact (Hq _ _ _ _ F67 Hin)].
    + intros RT secs Hsn. destruct Hs as [-> | (RT5 & C5 & -> & Hs)].
      * exact (Hk _ _ Hsn).
      * rewrite (Hs _ _ Hsn). exact (Hk _ _ eq_refl).
  - rewrite !pushSpecs_app, !deletes_app.
    destruct (Hlocal _ F4) as [-> ->]. destruct (Hlocal _ F67) as [-> ->].
    cbn [pushSpecs deletes app]. destruct (Hlocal _ Ft) as [-> ->].
    split; [reflexivity|]. split; [reflexivity|]. left.
    intros out Hin.
    apply in_app_or in Hin as [Hin|Hin]; [exact (Hq _ _ _ _ F4 Hin)|].
    cbn [app] in Hin.
    destruct Hin as [Hin|[Hin|[Hin|Hin]]]; [discriminate Hin | | exact (Hheads _ _ _ Hin)|].
    + injection Hin as -> _. now elim Hst.
    + apply in_app_or in Hin as [Hin|Hin];
        [exact (Hq _ _ _ _ Ft Hin) | exact (Hq _ _ _ _ F67 Hin)].
Qed.

(** Sections 8 and 9: what is pushed, and what section 8 leaves for the
    cleanup. *)
Lemma publish_kind (w : ShWorld) (v : Vars) (RT seconds : string) (h h' : list ShEvent)
      (s : Step nat string) :
  RT = "tag"%string \/ RT = "branch"%string ->
  publish w v RT seconds h = (h', s) ->
  exists evs obj rest,
    h' = h ++ evs /\
    Forall (fun ev => isShowRef ev = false) evs /\
    deletes evs = [] /\
    pushSpecs evs = obj :: rest /\
    (rest = [] \/ rest = [(namespaceOf RT ++ SOURCE_REF v)%string]) /\
    ((obj = (TEMP_LOCAL_BRANCH_NAME seconds ++ ":" ++ REMOTE_TEMP_BRANCH_FOR_OBJECTS seconds)%string
      /\ forall R, s = Next R -> R = REMOTE_TEMP_BRANCH_FOR_OBJECTS seconds) \/
     (obj = (TEMP_LOCAL_BRANCH_NAME seconds ++ ":refs/heads/main")%string
      /\ forall R, s = Next R -> R = ""%string)) /\
    (forall R, s = Next R -> rest = [(namespaceOf RT ++ SOURCE_REF v)%string]).
Proof.
  intros HRT H. unfold publish, pushObjects, pushReference, TARGET_MAIN_BRANCH in H.
  destruct HRT as [-> | ->];
    change ("tag" =? "tag")%string with true in H;
    change ("branch" =? "tag")%string with false in H;
    change ("branch" =? "branch")%string with true in H;
    sh_cases H;
    apply pair_equal_spec in H as [<- <-];
    do 3 eexists;
    (split; [reflexivity|]);
    (split; [repeat constructor|]);
    (split; [reflexivity|]);
    (split; [reflexivity|]).
  all: split; [first [left; reflexivity | right; reflexivity]|].
  all: split; [first [left; split; [reflexivity | intros R [=]; congruence]
                     | right; split; [reflexivity | intros R [=]; congruence]]|].
  all: intros R [=]; reflexivity.
Qed.

(** The last section deletes the remote temporary branch, when there is one. *)
Lemma cleanup_deletes (w : ShWorld) (v : Vars) (seconds R : string) (h h' : list ShEvent)
      (s : Step nat unit) :
  cleanup w v seconds R h = (h', s) ->
  exists evs,
    h' = h ++ evs /\
    Forall (fun ev => isShowRef ev = false) evs /\
    pushSpecs evs = [] /\
    deletes evs = if isEmpty R then [] else [R].
Proof.
  unfold cleanup. intros H. sh_cases H;
    apply pair_equal_spec in H as [<- _];
    eexists; (split; [reflexivity|]);
    (split; [repeat constructor|]);
    (split; [reflexivity|]);
    match goal with
    | H : (R =? "")%string = _ |- _ => unfold isEmpty; rewrite H
    end; reflexivity.
Qed.

(** How far a run of the script got, with the sections that ran. *)
Lemma script_outline (w : ShWorld) (v : Vars) (h : list ShEvent) (code : nat) :
  Script.run (script w v) = (h, code) ->
  (code = 1 /\ Forall quiet h) \/
  exists h0 evs1 s1,
    Forall quiet h0 /\
    cloneToRemote w v h0 = (h0 ++ evs1, s1) /\
    ((code = 1 /\ s1 = Return 1 /\ h = h0 ++ evs1) \/
     exists RT seconds evs2 s2,
       s1 = Next (RT, seconds) /\
       (RT = "tag"%string \/ RT = "branch"%string) /\
       publish w v RT seconds (h0 ++ evs1) = ((h0 ++ evs1) ++ evs2, s2) /\
       ((code = 1 /\ s2 = Return 1 /\ h = (h0 ++ evs1) ++ evs2) \/
        exists R evs3,
          s2 = Next R /\
          cleanup w v seconds R ((h0 ++ evs1) ++ evs2) = (((h0 ++ evs1) ++ evs2) ++ evs3, Next tt) /\
          code = 0 /\ h = ((h0 ++ evs1) ++ evs2) ++ evs3)).
Proof.
  intros H. apply script_run_inv in H as (s & H & ->).
  rewrite script_split in H.
  apply bind_inv in H as [(r & H & ->) | ([] & h0 & H & H1)].
  { left. split; [exact (beforeClone_exits w v _ _ _ H)|].
    destruct (emits_run _ _ _ _ _ (beforeClone_quiet w v) H) as (evs & -> & F). exact F. }
  right.
  destruct (emits_run _ _ _ _ _ (beforeClone_quiet w v) H) as (evs0 & -> & F0).
  cbn [app] in *. exists evs0.
  apply bind_inv in H1 as [(r & H1 & ->) | ([RT seconds] & h1 & H1 & H2)].
  { destruct (emits_run _ _ _ _ _ (cloneToRemote_emits w v) H1) as (evs1 & -> & F1).
    pose proof (cloneToRemote_exits w v _ _ _ H1) as ->.
    exists evs1, (Return 1). split; [exact F0|]. split; [exact H1|]. left. auto. }
  destruct (emits_run _ _ _ _ _ (cloneToRemote_emits w v) H1) as (evs1 & -> & F1).
  exists evs1, (Next (RT, seconds)). split; [exact F0|]. split; [exact H1|]. right.
  exists RT, seconds.
  assert (HRT : RT = "tag"%string \/ RT = "branch"%string)
    by (apply cloneToRemote_value in H1 as (HRT & _); exact HRT).
  apply bind_inv in H2 as [(r & H2 & ->) | (R & h2 & H2 & H3)].
  { destruct (emits_run _ _ _ _ _ (publish_emits w v RT seconds) H2) as (evs2 & -> & F2).
    pose proof (publish_exits w v RT seconds _ _ _ H2) as ->.
    exists evs2, (Return 1). repeat split; try assumption. left. auto. }
  destruct (emits_run _ _ _ _ _ (publish_emits w v RT seconds) H2) as (evs2 & -> & F2).
  exists evs2, (Next R). repeat split; try assumption. right.
  apply bind_inv in H3 as [(r & H3 & _) | ([] & h3 & H3 & H4)].
  { apply cleanup_inv in H3 as ([=] & _). }
  pose proof H3 as H3'.
  apply cleanup_inv in H3' as (_ & evs3 & E3 & _). subst h3.
  unfold exit, return_ in H4. injection H4 as <- <-.
  exists R, evs3. repeat split; assumption.
Qed.

(** X20. When [git show-ref] finds [refs/tags/<ref>], the script never asks
    for [refs/heads/<ref>] and never pushes [refs/heads/<ref>]; a run that
    exits with status 0 has pushed [refs/tags/<ref>]. *)
Theorem script_prefers_the_tag (w : ShWorld) (v : Vars) (h : list ShEvent) (code : nat)
      (out : string) :
  Script.run (script w v) = (h, code) ->
  In (Run (git_show_ref_verify ("refs/tags/" ++ SOURCE_REF v)) 0 out) h ->
  (forall st o, ~ In (Run (git_show_ref_verify ("refs/heads/" ++ SOURCE_REF v)) st o) h) /\
  ~ In ("refs/heads/" ++ SOURCE_REF v)%string (pushSpecs h) /\
  (code = 0 -> In ("refs/tags/" ++ SOURCE_REF v)%string (pushSpecs h)).
Proof.
  intros Hrun Hin.
  assert (Hq : forall (l : list ShEvent) ref st o,
             Forall quiet l -> ~ In (Run (git_show_ref_verify ref) st o) l)
    by (intros; now apply quiet_no_show_ref).
  assert (Hs : forall (l : list ShEvent) ref st o,
             Forall (fun ev => isShowRef ev = false) l ->
             ~ In (Run (git_show_ref_verify ref) st o) l).
  { intros l ref st o F H. rewrite Forall_forall in F. apply F in H. discriminate H. }
  apply script_outline in Hrun
    as [(_ & F) | (h0 & evs1 & s1 & F0 & H1 & Hrest)].
  { exfalso. exact (Hq _ _ _ _ F Hin). }
  apply cloneToRemote_kind in H1 as (evs1' & E1 & Hp1 & Hd1 & Hkind).
  apply app_inv_head in E1. subst evs1'.
  destruct Hrest as [(-> & -> & ->) | (RT & secs & evs2 & s2 & -> & HRT & H2 & Hrest)].
  - apply in_app_or in Hin as [Hin|Hin]; [exfalso; exact (Hq _ _ _ _ F0 Hin)|].
    destruct Hkind as [Hno | (Hno & _)]; [exfalso; exact (Hno _ Hin)|].
    rewrite pushSpecs_app, (quiet_pushSpecs _ F0), Hp1. cbn [app].
    split; [|split; [intros [] | discriminate]].
    intros st o Hh. apply in_app_or in Hh as [Hh|Hh];
      [exact (Hq _ _ _ _ F0 Hh) | exact (Hno _ _ Hh)].
  - assert (Hshape : exists evs3,
              h = ((h0 ++ evs1) ++ evs2) ++ evs3 /\
              Forall (fun ev => isShowRef ev = false) evs3 /\ pushSpecs evs3 = [] /\
              (code = 0 -> exists R, s2 = Next R)).
    { destruct Hrest as [(-> & -> & ->) | (R & evs3 & -> & H3 & -> & ->)].
      - exists []. rewrite app_nil_r. repeat split; [constructor | discriminate].
      - apply cleanup_deletes in H3 as (evs3' & E3 & F3 & Hp3 & _).
        apply app_inv_head in E3. subst evs3'.
        exists evs3. repeat split; try assumption. intros _. now exists R. }
    destruct Hshape as (evs3 & -> & F3 & Hp3 & Hcode). clear Hrest.
    apply (publish_kind _ _ _ _ _ _ _ HRT) in H2
      as (evs2' & obj & rest & E2 & F2 & _ & Hp2 & Hrest & Hobj & Hnext).
    apply app_inv_head in E2. subst evs2'.
    assert (Hin1 : In (Run (git_show_ref_verify ("refs/tags/" ++ SOURCE_REF v)) 0 out) evs1).
    { apply in_app_or in Hin as [Hin|Hin]; [|exfalso; exact (Hs _ _ _ _ F3 Hin)].
      apply in_app_or in Hin as [Hin|Hin]; [|exfalso; exact (Hs _ _ _ _ F2 Hin)].
      apply in_app_or in Hin as [Hin|Hin]; [exfalso; exact (Hq _ _ _ _ F0 Hin) | exact Hin]. }
    destruct Hkind as [Hno | (Hno & Hk)]; [exfalso; exact (Hno _ Hin1)|].
    specialize (Hk _ _ eq_refl). subst RT.
    change (namespaceOf "tag") with "refs/tags/"%string in *.
    rewrite !pushSpecs_app, (quiet_pushSpecs _ F0), Hp1, Hp2, Hp3, app_nil_r. cbn [app].
    split; [|split].
    + intros st o Hh.
      apply in_app_or in Hh as [Hh|Hh]; [|exact (Hs _ _ _ _ F3 Hh)].
      apply in_app_or in Hh as [Hh|Hh]; [|exact (Hs _ _ _ _ F2 Hh)].
      apply in_app_or in Hh as [Hh|Hh]; [exact (Hq _ _ _ _ F0 Hh) | exact (Hno _ _ Hh)].
    + intros [Hh|Hh].
      * destruct Hobj as [(-> & _) | (-> & _)]; discriminate Hh.
      * destruct Hrest as [-> | ->]; [destruct Hh|].
        destruct Hh as [Hh|[]]. discriminate Hh.
    + intros Hc. destruct (Hcode Hc) as (R & ->).
      rewrite (Hnext _ eq_refl). right. now left.
Qed.

Lemma script_prefers_the_tag_witness :
  (forall st o,
     ~ In (Run (git_show_ref_verify ("refs/heads/" ++ SOURCE_REF Example.vars)) st o)
         (fst (Script.run (script (Example.shell [] 0) Example.vars)))) /\
  ~ In ("refs/heads/" ++ SOURCE_REF Example.vars)%string
      (pushSpecs (fst (Script.run (script (Example.shell [] 0) Example.vars)))) /\
  (snd (Script.run (script (Example.shell [] 0) Example.vars)) = 0 ->
   In ("refs/tags/" ++ SOURCE_REF Example.vars)%string
      (pushSpecs (fst (Script.run (script (Example.shell [] 0) Example.vars))))).
Proof.
  apply (script_prefers_the_tag (Example.shell [] 0) Example.vars _ _ "").
  - apply surjective_pairing.
  - vm_compute. repeat (first [left; reflexivity | right]).
Defined.

(** X21. A run that exits with status 0 has made exactly two pushes: the
    temporary local branch, to the temporary remote branch or to
    [refs/heads/main], and then the tag or the branch itself.  It has
    asked for the deletion of the temporary remote branch exactly when it
    had pushed to it. *)
Theorem successful_run_pushes_twice_and_deletes_its_branch (w : ShWorld) (v : Vars)
      (h : list ShEvent) :
  Script.run (script w v) = (h, 0) ->
  exists seconds REF_TYPE : string,
    (REF_TYPE = "tag"%string \/ REF_TYPE = "branch"%string) /\
    ((pushSpecs h =
        [(TEMP_LOCAL_BRANCH_NAME seconds ++ ":" ++ REMOTE_TEMP_BRANCH_FOR_OBJECTS seconds)%string;
         (namespaceOf REF_TYPE ++ SOURCE_REF v)%string] /\
      deletes h = [REMOTE_TEMP_BRANCH_FOR_OBJECTS seconds]) \/
     (pushSpecs h =
        [(TEMP_LOCAL_BRANCH_NAME seconds ++ ":refs/heads/main")%string;
         (namespaceOf REF_TYPE ++ SOURCE_REF v)%string] /\
      deletes h = [])).
Proof.
  intros Hrun.
  apply script_outline in Hrun
    as [([=] & _) | (h0 & evs1 & s1 & F0 & H1 & [([=] & _) | Hrest])].
  destruct Hrest as (RT & secs & evs2 & s2 & -> & HRT & H2 & [([=] & _) | Hrest]).
  destruct Hrest as (R & evs3 & -> & H3 & _ & ->).
  apply cloneToRemote_kind in H1 as (evs1' & E1 & Hp1 & Hd1 & _).
  apply app_inv_head in E1. subst evs1'.
  apply (publish_kind _ _ _ _ _ _ _ HRT) in H2
    as (evs2' & obj & rest & E2 & _ & Hd2 & Hp2 & _ & Hobj & Hnext).
  apply app_inv_head in E2. subst evs2'.
  apply cleanup_deletes in H3 as (evs3' & E3 & _ & Hp3 & Hd3).
  apply app_inv_head in E3. subst evs3'.
  exists secs, RT. split; [exact HRT|].
  rewrite !pushSpecs_app, !deletes_app, (quiet_pushSpecs _ F0), (quiet_deletes _ F0),
    Hp1, Hd1, Hp2, Hd2, Hp3, Hd3, (Hnext _ eq_refl).
  cbn [app].
  destruct Hobj as [(-> & HR) | (-> & HR)]; rewrite (HR _ eq_refl); [left | right];
    split; reflexivity.
Qed.

Lemma successful_run_pushes_twice_and_deletes_its_branch_witness :
  exists seconds REF_TYPE : string,
    (REF_TYPE = "tag"%string \/ REF_TYPE = "branch"%string) /\
    ((pushSpecs (fst (Script.run (script (Example.shell [] 0) Example.vars))) =
        [(TEMP_LOCAL_BRANCH_NAME seconds ++ ":" ++ REMOTE_TEMP_BRANCH_FOR_OBJECTS seconds)%string;
         (namespaceOf REF_TYPE ++ SOURCE_REF Example.vars)%string] /\
      deletes (fst (Script.run (script (Example.shell [] 0) Example.vars)))
      = [REMOTE_TEMP_BRANCH_FOR_OBJECTS seconds]) \/
     (pushSpecs (fst (Script.run (script (Example.shell [] 0) Example.vars))) =
        [(TEMP_LOCAL_BRANCH_NAME seconds ++ ":refs/heads/main")%string;
         (namespaceOf REF_TYPE ++ SOURCE_REF Example.vars)%string] /\
      deletes (fst (Script.run (script (Example.shell [] 0) Example.vars))) = [])).
Proof.
  apply (successful_run_pushes_twice_and_deletes_its_branch (Example.shell [] 0) Example.vars).
  vm_compute. reflexivity.
Defined.

End ScriptStages.

(** ** The [fork] command *)

Module ForkProofs.
Import fork.

Ltac fork_red :=
  cbv beta iota zeta delta
    [call bind ret return_ emit ask when log_Printf log_Fatal notNil fst snd negb].

Section Functions.
Variable o : Outside.
Context {R : Type}.

Lemma GetKubeConfig_run (h : Trace) :
  call (R := R) (GetKubeConfig o) h =
  let h0 := h ++ [Log "ℹ️ 尝试获取 Kubernetes 配置..."] in
  match o_InClusterConfig o h0 with
  | Ok config =>
      (h0 ++ [InClusterConfig (Ok config); Log "✅ 成功加载集群内部配置。"], Next (Ok config))
  | Err err =>
      let h1 := h0 ++ [InClusterConfig (Err err);
                       Log ("ℹ️ 无法加载集群内部配置 (" ++ Error err
                            ++ ")，尝试从默认 kubeconfig 路径加载...")] in
      match o_ClientConfig o h1 with
      | Ok config =>
          (h1 ++ [ClientConfig (Ok config); Log "✅ 成功从默认 kubeconfig 或默认路径加载配置。"],
           Next (Ok config))
      | Err err' =>
          (h1 ++ [ClientConfig (Err err')],
           Next (Err (fmt.Errorf_w
             "❌ 无法加载 Kubernetes 配置 (既不在集群内，也未从默认 ~/.kube/config 路径加载): "
             (Some err'))))
      end
  end.
Proof.
  unfold GetKubeConfig. fork_red. norm_app.
  destruct (o_InClusterConfig o _) as [config|err]; fork_red; norm_app; [reflexivity|].
  destruct (o_ClientConfig o _) as [config|err']; fork_red; norm_app; reflexivity.
Qed.

Lemma CheckK8sNamespaceExists_run (config : k8s.Config) (namespace : string) (h : Trace) :
  call (R := R) (CheckK8sNamespaceExists o config namespace) h =
  match o_NewForConfig o h config with
  | Some e =>
      (h ++ [NewForConfig config (Some e)],
       Next (false, Some (fmt.Errorf_w "创建 Kubernetes 客户端失败: " (Some e))))
  | None =>
      let h0 := h ++ [NewForConfig config None;
                      Log ("ℹ️ 正在检查 Kubernetes 命名空间 '" ++ namespace ++ "' 是否存在...")] in
      match o_NamespacesGet o h0 config namespace with
      | None =>
          (h0 ++ [NamespacesGet config namespace None;
                  Log ("✅ Kubernetes 命名空间 '" ++ namespace ++ "' 已存在。")],
           Next (true, None))
      | Some e =>
          if k8s.IsNotFound e then
            (h0 ++ [NamespacesGet config namespace (Some e);
                    Log ("ℹ️ Kubernetes 命名空间 '" ++ namespace ++ "' 不存在。")],
             Next (false, None))
          else
            (h0 ++ [NamespacesGet config namespace (Some e)],
             Next (false,
                   Some (fmt.Errorf_w ("检查 Kubernetes 命名空间 '" ++ namespace ++ "' 失败: ")
                           (Some (k8s.asError e)))))
      end
  end.
Proof.
  unfold CheckK8sNamespaceExists. fork_red. norm_app.
  destruct (o_NewForConfig o h config) as [e|]; fork_red; norm_app; [reflexivity|].
  destruct (o_NamespacesGet o _ config namespace) as [e|];
    fork_red; norm_app; [|reflexivity].
  destruct (k8s.IsNotFound e); fork_red; norm_app; reflexivity.
Qed.

Lemma GetSecretValue_run (config : k8s.Config) (namespace secretName key : string)
      (h : Trace) :
  call (R := R) (GetSecretValue o config namespace secretName key) h =
  match o_NewForConfig o h config with
  | Some e =>
      (h ++ [NewForConfig config (Some e)],
       Next (""%string, Some (fmt.Errorf_w "创建 Kubernetes 客户端失败: " (Some e))))
  | None =>
      let h0 := h ++ [NewForConfig config None;
                      Log ("ℹ️ 正在从 Kubernetes Secret 中获取令牌。命名空间: " ++ namespace
                           ++ ", Secret名称: " ++ secretName ++ ", Key: " ++ key)] in
      match o_SecretsGet o h0 config namespace secretName with
      | Err e =>
          (h0 ++ [SecretsGet config namespace secretName (Err e)],
           Next (""%string,
                 Some (fmt.Errorf_w
                   ("无法在命名空间 '" ++ namespace ++ "' 中获取 Secret '" ++ secretName ++ "': ")
                   (Some e))))
      | Ok secret =>
          match k8s.Data secret key with
          | None =>
              (h0 ++ [SecretsGet config namespace secretName (Ok secret)],
               Next (""%string,
                     Some (fmt.Errorf
                       ("Secret '" ++ secretName ++ "' 中不存在 key '" ++ key ++ "'"))))
          | Some tokenBytes =>
              (h0 ++ [SecretsGet config namespace secretName (Ok secret);
                      Log ("✅ 成功从 Kubernetes Secret 获取令牌。命名空间: " ++ namespace
                           ++ ", Secret名称: " ++ secretName)],
               Next (tokenBytes, None))
          end
      end
  end.
Proof.
  unfold GetSecretValue. fork_red. norm_app.
  destruct (o_NewForConfig o h config) as [e|]; fork_red; norm_app; [reflexivity|].
  destruct (o_SecretsGet o _ config namespace secretName) as [secret|e];
    fork_red; norm_app; [|reflexivity].
  destruct (k8s.Data secret key); fork_red; norm_app; reflexivity.
Qed.

Lemma newGitLabClient_run (token baseURL : string) (insecure : bool) (h : Trace) :
  call (R := R) (newGitLabClient o token baseURL insecure) h =
  let client := {| gitlab.token := token; gitlab.baseURL := baseURL;
                   gitlab.insecureSkipVerify := insecure |} in
  match o_NewClient o h client with
  | Some e =>
      (h ++ [NewClient client (Some e)],
       Next (Err (fmt.Errorf_w "创建 GitLab 客户端失败: " (Some e))))
  | None => (h ++ [NewClient client None], Next (Ok client))
  end.
Proof.
  unfold newGitLabClient. fork_red.
  destruct (o_NewClient o h _) as [e|]; reflexivity.
Qed.

(** The first project of a page with a given name. *)
Lemma scan_run (groupID projectName : string) (projects : list gitlab.Project) (h : Trace) :
  scan groupID projectName projects h =
  match find (fun p => gitlab.Name p =? projectName)%string projects with
  | Some p =>
      (h ++ [Printf ("✅ 找到源项目: " ++ gitlab.NameWithNamespace p ++ " (ID: "
                     ++ strconv.Itoa (gitlab.ID p) ++ ") 在组 '" ++ groupID ++ "'"
                     ++ newline)],
       Return (Some (gitlab.ID p, None)))
  | None => (h, Next tt)
  end.
Proof.
  induction projects as [|p projects IH]; [reflexivity|].
  cbn [scan find]. destruct (gitlab.Name p =? projectName)%string; [reflexivity | exact IH].
Qed.

Lemma findProjectInGroup_run (fuel : nat) (client : gitlab.Client)
      (groupID projectName : string) (h : Trace) :
  call (R := R) (findProjectInGroup o (S fuel) client groupID projectName) h =
  match o_ListGroupProjects o h client groupID firstPage with
  | Err err =>
      (h ++ [ListGroupProjects client groupID firstPage (Err err)],
       Next (Some (-1, Some (fmt.Errorf_w ("列出组 '" ++ groupID ++ "' 的项目失败: ")
                               (Some err))))%Z)
  | Ok (projects, resp) =>
      let h1 := h ++ [ListGroupProjects client groupID firstPage (Ok (projects, resp))] in
      if (gitlab.StatusCode resp =? 200)%Z then
        match find (fun p => gitlab.Name p =? projectName)%string projects with
        | Some p =>
            (h1 ++ [Printf ("✅ 找到源项目: " ++ gitlab.NameWithNamespace p ++ " (ID: "
                            ++ strconv.Itoa (gitlab.ID p) ++ ") 在组 '" ++ groupID ++ "'"
                            ++ newline)],
             Next (Some (gitlab.ID p, None)))
        | None =>
            (h1, Next (Some (-1, Some (fmt.Errorf
                   ("在组 '" ++ groupID ++ "' 中未找到项目 '" ++ projectName ++ "'"))))%Z)
        end
      else
        (h1, Next (Some (-1, Some (fmt.Errorf
               ("列出组 '" ++ groupID ++ "' 的项目失败，HTTP 状态码: "
                ++ strconv.Itoa (gitlab.StatusCode resp)))))%Z)
  end.
Proof.
  unfold findProjectInGroup, call, bind at 1. cbn [pages]. fold firstPage.
  unfold bind at 1, ask.
  destruct (o_ListGroupProjects o h client groupID firstPage) as [[projects resp]|err];
    [|reflexivity].
  cbv zeta. unfold http.StatusOK.
  destruct (gitlab.StatusCode resp =? 200)%Z; [|reflexivity].
  cbn [negb when]. rewrite bind_ret_l. unfold bind at 1. rewrite scan_run.
  destruct (find _ projects) as [p|]; reflexivity.
Qed.

(** *** What a called function appends *)

Lemma emits_call {A} (P : ForkEvent -> Prop) (body : Prog ForkEvent A A) :
  emits P body -> emits P (call (R := R) body).
Proof.
  intros Hb h. destruct (Hb h) as (evs & E1 & F). exists evs. unfold call.
  destruct (body h) as [h' [r|r]]; now split.
Qed.

Lemma emits_scan (P : ForkEvent -> Prop) (groupID projectName : string)
      (projects : list gitlab.Project) :
  (forall msg, P (Printf msg)) -> emits P (scan groupID projectName projects).
Proof.
  intros HP. induction projects as [|p projects IH]; cbn [scan]; [apply emits_ret|].
  destruct (gitlab.Name p =? projectName)%string; [|exact IH].
  repeat emits_step. apply HP.
Qed.

Lemma emits_pages (P : ForkEvent -> Prop) (fuel : nat) (client : gitlab.Client)
      (groupID projectName : string) (listOptions : gitlab.ListGroupProjectsOptions) :
  (forall msg, P (Printf msg)) ->
  (forall c g lo r, P (ListGroupProjects c g lo r)) ->
  emits P (pages o fuel client groupID projectName listOptions).
Proof.
  intros HP HL. revert listOptions.
  induction fuel as [|fuel IH]; intros listOptions; cbn [pages]; [apply emits_return_|].
  apply emits_bind; [apply emits_ask; intros; apply HL|].
  intros [[projects resp]|err]; [|apply emits_return_].
  apply emits_bind; [apply emits_when, emits_return_|]. intros _.
  apply emits_bind; [now apply emits_scan|]. intros _.
  destruct (_ || _); [apply emits_ret | apply IH].
Qed.

End Functions.

(** One step of a proof that a step of the command appends only events
    of one kind. *)
Ltac fork_emits :=
  repeat first
    [ apply emits_call
    | apply emits_scan
    | apply emits_pages
    | emits_step ];
  try (intros; first [reflexivity | exact I | easy]).

Section Steps.
Variable o : Outside.
Variable P : ForkEvent -> Prop.
Hypothesis P_Log : forall msg, P (Log msg).

Lemma getConfiguration_emits (f : Flags) :
  (forall r, P (InClusterConfig r)) -> (forall r, P (ClientConfig r)) ->
  emits P (getConfiguration o f).
Proof.
  intros H1 H2. unfold getConfiguration, GetKubeConfig, log_Printf, log_Fatal.
  fork_emits; auto.
Qed.

Lemma CheckK8sNamespaceExists_emits R (config : k8s.Config) (ns : string) :
  (forall c r, P (NewForConfig c r)) -> (forall c n r, P (NamespacesGet c n r)) ->
  emits P (call (R := R) (CheckK8sNamespaceExists o config ns)).
Proof.
  intros H1 H2. unfold CheckK8sNamespaceExists, log_Printf.
  fork_emits; auto.
Qed.

Lemma checkSourceNamespace_emits (config : k8s.Config) (f : Flags) :
  (forall c r, P (NewForConfig c r)) -> (forall c n r, P (NamespacesGet c n r)) ->
  emits P (checkSourceNamespace o config f).
Proof.
  intros H1 H2. unfold checkSourceNamespace, log_Printf, log_Fatal.
  apply emits_bind; [now apply emits_emit|]. intros _.
  apply emits_bind; [now apply CheckK8sNamespaceExists_emits|].
  intros; fork_emits; auto.
Qed.

Lemma checkTargetNamespace_emits (config : k8s.Config) (f : Flags) :
  (forall c r, P (NewForConfig c r)) -> (forall c n r, P (NamespacesGet c n r)) ->
  emits P (checkTargetNamespace o config f).
Proof.
  intros H1 H2. unfold checkTargetNamespace, log_Printf, log_Fatal.
  apply emits_bind; [now apply emits_emit|]. intros _.
  apply emits_bind; [now apply CheckK8sNamespaceExists_emits|].
  intros; fork_emits; auto.
Qed.

Lemma GetSecretValue_emits R (config : k8s.Config) (ns name key : string) :
  (forall c r, P (NewForConfig c r)) -> (forall c n m r, P (SecretsGet c n m r)) ->
  emits P (call (R := R) (GetSecretValue o config ns name key)).
Proof.
  intros H1 H2. unfold GetSecretValue, log_Printf.
  fork_emits; auto.
Qed.

Lemma getDevToken_emits (config : k8s.Config) (f : Flags) :
  (forall c r, P (NewForConfig c r)) -> (forall c n m r, P (SecretsGet c n m r)) ->
  emits P (getDevToken o config f).
Proof.
  intros H1 H2. unfold getDevToken, log_Printf, log_Fatal.
  apply emits_bind; [now apply emits_emit|]. intros _.
  apply emits_bind; [now apply GetSecretValue_emits|].
  intros; fork_emits; auto.
Qed.

Lemma getProdToken_emits (config : k8s.Config) (f : Flags) :
  (forall c r, P (NewForConfig c r)) -> (forall c n m r, P (SecretsGet c n m r)) ->
  emits P (getProdToken o config f).
Proof.
  intros H1 H2. unfold getProdToken, log_Printf, log_Fatal.
  apply emits_bind; [now apply emits_emit|]. intros _.
  apply emits_bind; [now apply GetSecretValue_emits|].
  intros; fork_emits; auto.
Qed.

Lemma newGitLabClient_emits R (token url : string) (insecure : bool) :
  (forall c r, P (NewClient c r)) ->
  emits P (call (R := R) (newGitLabClient o token url insecure)).
Proof. intros H1. unfold newGitLabClient. fork_emits; auto. Qed.

Lemma newDevClient_emits (f : Flags) (devToken : string) :
  (forall c r, P (NewClient c r)) -> emits P (newDevClient o f devToken).
Proof.
  intros H1. unfold newDevClient, log_Printf, log_Fatal.
  apply emits_bind; [now apply emits_emit|]. intros _.
  apply emits_bind; [now apply newGitLabClient_emits|].
  intros; fork_emits; auto.
Qed.

Lemma newProdClient_emits (f : Flags) (prodToken : string) :
  (forall c r, P (NewClient c r)) -> emits P (newProdClient o f prodToken).
Proof.
  intros H1. unfold newProdClient, log_Printf, log_Fatal.
  apply emits_bind; [now apply emits_emit|]. intros _.
  apply emits_bind; [now apply newGitLabClient_emits|].
  intros; fork_emits; auto.
Qed.

Lemma findProjectInGroup_emits R (fuel : nat) (client : gitlab.Client)
      (groupID projectName : string) :
  (forall msg, P (Printf msg)) -> (forall c g lo r, P (ListGroupProjects c g lo r)) ->
  emits P (call (R := R) (findProjectInGroup o fuel client groupID projectName)).
Proof.
  intros H1 H2. unfold findProjectInGroup.
  apply emits_call, emits_bind; [now apply emits_pages|]. intros _. apply emits_ret.
Qed.

Lemma findSourceProject_emits (fuel : nat) (f : Flags) (devGit : gitlab.Client) :
  (forall msg, P (Printf msg)) -> (forall c g lo r, P (ListGroupProjects c g lo r)) ->
  emits P (findSourceProject o fuel f devGit).
Proof.
  intros H1 H2. unfold findSourceProject, log_Printf, log_Fatal.
  apply emits_bind; [now apply emits_emit|]. intros _.
  apply emits_bind; [now apply findProjectInGroup_emits|].
  intros; fork_emits; auto.
Qed.

Lemma checkTargetProject_emits (fuel : nat) (f : Flags) (prodGit : gitlab.Client) :
  (forall msg, P (Printf msg)) -> (forall c g lo r, P (ListGroupProjects c g lo r)) ->
  emits P (checkTargetProject o fuel f prodGit).
Proof.
  intros H1 H2. unfold checkTargetProject, log_Printf, log_Fatal.
  apply emits_bind; [now apply emits_emit|]. intros _.
  apply emits_bind; [now apply findProjectInGroup_emits|].
  intros; fork_emits; auto.
Qed.

Lemma forkProject_emits (config : k8s.Config) (f : Flags) (pid : Z) :
  (forall c r, P (NewForConfig c r)) -> (forall c n m r, P (SecretsGet c n m r)) ->
  (forall c r, P (NewClient c r)) -> (forall c p n r, P (ForkProject c p n r)) ->
  emits P (forkProject o config f pid).
Proof.
  intros H1 H2 H3 H4. unfold forkProject, log_Printf, log_Fatal.
  apply emits_bind; [now apply GetSecretValue_emits|]. intros [adminToken err].
  apply emits_bind; [fork_emits; auto|]. intros _.
  apply emits_bind; [now apply emits_emit|]. intros _.
  apply emits_bind; [now apply newGitLabClient_emits|]. intros r. fork_emits; auto.
Qed.

Lemma printProject_emits (p : gitlab.Project) : emits P (printProject p).
Proof. unfold printProject, log_Printf. fork_emits; auto. Qed.

End Steps.

Section Steps.
Variable o : Outside.

(** *** The steps of the command, one by one *)

Ltac step_start := unfold log_Printf; unfold bind at 1, emit; unfold bind at 1.
Ltac step_end :=
  fork_red; norm_app; intros [= <- <-]; cbv beta iota;
  repeat first [ reflexivity | eassumption | eexists | split ].

Lemma getConfiguration_inv (f : Flags) (h h' : Trace) (s : Step Outcome k8s.Config) :
  getConfiguration o f h = (h', s) ->
  match s with
  | Next config =>
      (sourceGroup f <> "" /\ sourceProject f <> "" /\ targetGroup f <> "" /\ baseURL f <> "")
      /\ ((exists m1 m2 m3, h' = h ++ [Log m1; Log m2; InClusterConfig (Ok config); Log m3])
          \/ (exists e m1 m2 m3 m4,
                h' = h ++ [Log m1; Log m2; InClusterConfig (Err e); Log m3;
                           ClientConfig (Ok config); Log m4]))
  | Return r => r = Exit 1
  end.
Proof.
  unfold getConfiguration.
  destruct (sourceGroup f =? "") eqn:E1; [cbn [orb when]; step_end|].
  destruct (sourceProject f =? "") eqn:E2; [cbn [orb when]; step_end|].
  destruct (targetGroup f =? "") eqn:E3; [cbn [orb when]; step_end|].
  destruct (baseURL f =? "") eqn:E4; [cbn [orb when]; step_end|].
  cbn [orb when]. rewrite bind_ret_l. step_start. rewrite GetKubeConfig_run. cbv zeta.
  apply String.eqb_neq in E1, E2, E3, E4.
  destruct (o_InClusterConfig o _) as [config|err].
  - fork_red. norm_app. intros [= <- <-]. split; [tauto|]. left. now do 3 eexists.
  - destruct (o_ClientConfig o _) as [config|err']; [|step_end].
    fork_red. norm_app. intros [= <- <-]. split; [tauto|]. right. now do 5 eexists.
Qed.

Lemma checkSourceNamespace_inv (config : k8s.Config) (f : Flags) (h h' : Trace)
      (s : Step Outcome unit) :
  checkSourceNamespace o config f h = (h', s) ->
  match s with
  | Next _ =>
      exists m1 m2 m3,
        h' = h ++ [Log m1; NewForConfig config None; Log m2;
                   NamespacesGet config (sourceGroup f) None; Log m3]
  | Return r => r = Exit 1
  end.
Proof.
  unfold checkSourceNamespace. step_start. rewrite CheckK8sNamespaceExists_run.
  destruct (o_NewForConfig o _ config) as [e|]; [step_end|]. cbv zeta.
  destruct (o_NamespacesGet o _ config _) as [e|]; [|step_end].
  destruct (k8s.IsNotFound e); step_end.
Qed.

Lemma checkTargetNamespace_inv (config : k8s.Config) (f : Flags) (h h' : Trace)
      (s : Step Outcome unit) :
  checkTargetNamespace o config f h = (h', s) ->
  match s with
  | Next _ =>
      exists m1 m2 m3,
        h' = h ++ [Log m1; NewForConfig config None; Log m2;
                   NamespacesGet config (targetGroup f) None; Log m3]
  | Return r => r = Exit 1
  end.
Proof.
  unfold checkTargetNamespace. step_start. rewrite CheckK8sNamespaceExists_run.
  destruct (o_NewForConfig o _ config) as [e|]; [step_end|]. cbv zeta.
  destruct (o_NamespacesGet o _ config _) as [e|]; [|step_end].
  destruct (k8s.IsNotFound e); step_end.
Qed.

Lemma getDevToken_inv (config : k8s.Config) (f : Flags) (h h' : Trace)
      (s : Step Outcome string) :
  getDevToken o config f h = (h', s) ->
  match s with
  | Next devToken =>
      exists secret m1 m2 m3 m4,
        h' = h ++ [Log m1; NewForConfig config None; Log m2;
                   SecretsGet config (sourceGroup f) GitlabSecretName (Ok secret);
                   Log m3; Log m4]
        /\ k8s.Data secret GitlabTokenKey = Some devToken
  | Return r => r = Exit 1
  end.
Proof.
  unfold getDevToken. step_start. rewrite GetSecretValue_run.
  destruct (o_NewForConfig o _ config) as [e|]; [step_end|]. cbv zeta.
  destruct (o_SecretsGet o _ config _ _) as [secret|e]; [|step_end].
  destruct (k8s.Data secret GitlabTokenKey) as [tokenBytes|] eqn:Ek; step_end.
Qed.

Lemma getProdToken_inv (config : k8s.Config) (f : Flags) (h h' : Trace)
      (s : Step Outcome string) :
  getProdToken o config f h = (h', s) ->
  match s with
  | Next prodToken =>
      exists secret m1 m2 m3 m4,
        h' = h ++ [Log m1; NewForConfig config None; Log m2;
                   SecretsGet config (targetGroup f) GitlabSecretName (Ok secret);
                   Log m3; Log m4]
        /\ k8s.Data secret GitlabTokenKey = Some prodToken
  | Return r => r = Exit 1
  end.
Proof.
  unfold getProdToken. step_start. rewrite GetSecretValue_run.
  destruct (o_NewForConfig o _ config) as [e|]; [step_end|]. cbv zeta.
  destruct (o_SecretsGet o _ config _ _) as [secret|e]; [|step_end].
  destruct (k8s.Data secret GitlabTokenKey) as [tokenBytes|] eqn:Ek; step_end.
Qed.

Lemma newDevClient_inv (f : Flags) (devToken : string) (h h' : Trace)
      (s : Step Outcome gitlab.Client) :
  newDevClient o f devToken h = (h', s) ->
  match s with
  | Next devGit =>
      devGit = clientWith devToken f /\ exists m1, h' = h ++ [Log m1; NewClient devGit None]
  | Return r => r = Exit 1
  end.
Proof.
  unfold newDevClient. step_start. rewrite newGitLabClient_run. cbv zeta.
  destruct (o_NewClient o _ _) as [e|]; step_end.
Qed.

Lemma newProdClient_inv (f : Flags) (prodToken : string) (h h' : Trace)
      (s : Step Outcome gitlab.Client) :
  newProdClient o f prodToken h = (h', s) ->
  match s with
  | Next prodGit =>
      prodGit = clientWith prodToken f /\ exists m1, h' = h ++ [Log m1; NewClient prodGit None]
  | Return r => r = Exit 1
  end.
Proof.
  unfold newProdClient. step_start. rewrite newGitLabClient_run. cbv zeta.
  destruct (o_NewClient o _ _) as [e|]; step_end.
Qed.

Lemma findSourceProject_inv (fuel : nat) (f : Flags) (devGit : gitlab.Client)
      (h h' : Trace) (s : Step Outcome Z) :
  findSourceProject o (S fuel) f devGit h = (h', s) ->
  match s with
  | Next sourceProjectID =>
      exists projects resp p m1 m2 m3,
        h' = h ++ [Log m1;
                   ListGroupProjects devGit (sourceGroup f) firstPage (Ok (projects, resp));
                   Printf m2; Log m3]
        /\ gitlab.StatusCode resp = 200%Z
        /\ find (fun p => gitlab.Name p =? sourceProject f)%string projects = Some p
        /\ sourceProjectID = gitlab.ID p
  | Return r =>
      r = Exit 1 /\
      exists res m1 m2,
        h' = h ++ [Log m1; ListGroupProjects devGit (sourceGroup f) firstPage res; Log m2]
  end.
Proof.
  unfold findSourceProject. step_start. rewrite findProjectInGroup_run.
  destruct (o_ListGroupProjects o _ devGit _ _) as [[projects resp]|e]; [|step_end].
  cbv zeta. destruct (Z.eqb_spec (gitlab.StatusCode resp) 200) as [E200|_]; [|step_end].
  destruct (find _ projects) as [p|] eqn:Ef; step_end.
Qed.

(** The error of a search that found nothing carries the words the
    command looks for. *)
Lemma notFound_message (groupID projectName : string) :
  strings.Contains ("在组 '" ++ groupID ++ "' 中未找到项目 '" ++ projectName ++ "'")
    "未找到项目" = true.
Proof.
  do 2 apply Contains_app_r.
  apply (Contains_app_r "' 中" ("未找到项目" ++ " '" ++ projectName ++ "'")).
  apply Contains_app_l.
Qed.

(** The answer of a listing that the pre-check of the target group takes
    for the absence of the project. *)
Lemma checkTargetProject_inv (fuel : nat) (f : Flags) (prodGit : gitlab.Client)
      (h h' : Trace) (s : Step Outcome unit) :
  checkTargetProject o (S fuel) f prodGit h = (h', s) ->
  exists res m1 logs,
    h' = h ++ Log m1
           :: ListGroupProjects prodGit (getModelGroupByNs (targetGroup f)) firstPage res
           :: logs
    /\ Forall (fun ev => isOutput ev = true) logs
    /\ match s with
       | Next _ => True
       | Return r => r = Exit 1
       end
    /\ ((exists u, s = Next u) <-> passesPrecheck f res).
Proof.
  unfold checkTargetProject. step_start. rewrite findProjectInGroup_run.
  destruct (o_ListGroupProjects o _ prodGit _ _) as [[projects resp]|e].
  - cbv zeta. destruct (gitlab.StatusCode resp =? 200)%Z eqn:E200.
    + destruct (find _ projects) as [p|] eqn:Ef.
      * fork_red. norm_app. intros [= <- <-]. do 3 eexists.
        split; [reflexivity|]. split; [repeat constructor|]. split; [reflexivity|].
        unfold passesPrecheck. rewrite E200, Ef. split; [intros [u [=]] | intros [=]].
      * fork_red. norm_app. unfold fmt.Errorf. cbn [Error].
        rewrite notFound_message.
        fork_red. norm_app. intros [= <- <-]. do 3 eexists.
        split; [reflexivity|]. split; [repeat constructor|]. split; [exact I|].
        unfold passesPrecheck. rewrite E200, Ef. split; [reflexivity | now exists tt].
    + fork_red. norm_app. unfold fmt.Errorf. cbn [Error].
      destruct (strings.Contains _ _) eqn:Ec; fork_red; norm_app; intros [= <- <-];
        do 3 eexists; (split; [reflexivity|]); (split; [repeat constructor|]);
        unfold passesPrecheck; rewrite E200, Ec.
      * split; [exact I|]. split; [reflexivity | now exists tt].
      * split; [reflexivity|]. split; [intros [u [=]] | intros [=]].
  - fork_red. norm_app.
    destruct (strings.Contains _ _) eqn:Ec; fork_red; norm_app; intros [= <- <-];
      do 3 eexists; (split; [reflexivity|]); (split; [repeat constructor|]);
      unfold passesPrecheck; rewrite Ec.
    + split; [exact I|]. split; [reflexivity | now exists tt].
    + split; [reflexivity|]. split; [intros [u [=]] | intros [=]].
Qed.

Lemma forkProject_inv (config : k8s.Config) (f : Flags) (sourceProjectID : Z)
      (h h' : Trace) (s : Step Outcome gitlab.Project) :
  forkProject o config f sourceProjectID h = (h', s) ->
  (s = Return (Exit 1) /\
   exists evs, h' = h ++ evs /\ Forall (fun ev => isForkProject ev = false) evs) \/
  (exists secret adminToken res m1 m2 m3 m4 logs,
     h' = h ++ [NewForConfig config None; Log m1;
                SecretsGet config "kubeflow" GitlabSecretName (Ok secret); Log m2; Log m3;
                NewClient (clientWith adminToken f) None; Log m4;
                ForkProject (clientWith adminToken f) sourceProjectID
                  (getModelGroupByNs (targetGroup f)) res] ++ logs
     /\ k8s.Data secret GitlabTokenKey = Some adminToken
     /\ Forall (fun ev => isOutput ev = true) logs
     /\ match s with
        | Next newProject =>
            exists resp, res = gitlab.Forked newProject resp /\ gitlab.StatusCode resp = 201%Z
        | Return r =>
            r = Exit 1 /\
            forall newProject resp,
              res = gitlab.Forked newProject resp -> gitlab.StatusCode resp <> 201%Z
        end).
Proof.
  unfold forkProject. unfold bind at 1. rewrite GetSecretValue_run.
  destruct (o_NewForConfig o _ config) as [e|].
  { fork_red. norm_app. intros [= <- <-]. left. split; [reflexivity|].
    eexists. split; [reflexivity | repeat constructor]. }
  cbv zeta. destruct (o_SecretsGet o _ config _ _) as [secret|e].
  2:{ fork_red. norm_app. intros [= <- <-]. left. split; [reflexivity|].
      eexists. split; [reflexivity | repeat constructor]. }
  destruct (k8s.Data secret GitlabTokenKey) as [adminToken|] eqn:Ek.
  2:{ fork_red. norm_app. intros [= <- <-]. left. split; [reflexivity|].
      eexists. split; [reflexivity | repeat constructor]. }
  cbv beta iota. rewrite bind_ret_l. unfold log_Printf at 1. unfold bind at 1, emit at 1.
  unfold bind at 1. rewrite newGitLabClient_run. cbv zeta. fold (clientWith adminToken f).
  destruct (o_NewClient o _ _) as [e|].
  { fork_red. norm_app. intros [= <- <-]. left. split; [reflexivity|].
    eexists. split; [reflexivity | repeat constructor]. }
  fork_red. norm_app.
  destruct (o_ForkProject o _ _ _ _) as [newProject resp|[resp|] err] eqn:Efork.
  - unfold http.StatusCreated.
    destruct (Z.eqb_spec (gitlab.StatusCode resp) 201) as [E201|N201];
      fork_red; norm_app; intros [= <- <-]; right; do 8 eexists;
      (split; [norm_app; reflexivity|]); (split; [exact Ek|]).
    + split; [constructor|]. now exists resp.
    + split; [repeat constructor|]. split; [reflexivity|].
      intros p' resp' [= _ <-]. exact N201.
  - destruct (gitlab.StatusCode resp =? http.StatusNotFound)%Z;
      [|destruct (gitlab.StatusCode resp =? http.StatusForbidden)%Z;
        [|destruct (gitlab.StatusCode resp =? http.StatusConflict)%Z]];
      fork_red; norm_app; intros [= <- <-]; right; do 8 eexists;
      (split; [norm_app; reflexivity|]); (split; [exact Ek|]);
      (split; [repeat constructor|]); (split; [reflexivity|]); intros p' resp' [=].
  - fork_red. norm_app. intros [= <- <-]. right. do 8 eexists.
    split; [norm_app; reflexivity|]. split; [exact Ek|].
    split; [repeat constructor|]. split; [reflexivity|]. intros p' resp' [=].
Qed.

Lemma printProject_inv (newProject : gitlab.Project) (h h' : Trace)
      (s : Step Outcome unit) :
  printProject newProject h = (h', s) ->
  s = Next tt /\ exists logs, h' = h ++ logs /\ Forall (fun ev => isOutput ev = true) logs.
Proof.
  unfold printProject.
  destruct (gitlab.ForkedFromProject newProject) as [parent|];
    fork_red; norm_app; intros [= <- <-]; (split; [reflexivity|]);
    eexists; (split; [reflexivity | repeat constructor]).
Qed.

(** *** The whole command *)

Lemma Forall_output_notFork (logs : Trace) :
  Forall (fun ev => isOutput ev = true) logs -> Forall (fun ev => isForkProject ev = false) logs.
Proof. apply Forall_impl. now intros []. Qed.

Lemma filter_output (logs : Trace) :
  Forall (fun ev => isOutput ev = true) logs -> filter isCall logs = [].
Proof.
  induction 1 as [|ev logs Hev _ IH]; [reflexivity|].
  cbn [filter]. unfold isCall at 1. now rewrite Hev.
Qed.

Ltac stops H inv_lemma emits_lemma F :=
  let evs := fresh "evs" in
  let Fe := fresh "Fe" in
  let E := fresh "E" in
  pose proof H as E; apply inv_lemma in E; cbv beta iota in E;
  apply (emits_run (fun ev => isForkProject ev = false)) in H as (evs & -> & Fe);
  [ intros [= <- <-]; left; split;
    [ first [exact E | exact (proj1 E)]
    | first [apply Forall_app; split; [exact F | exact Fe] | exact Fe] ]
  | apply emits_lemma; intros; reflexivity ].

(** After a step that went on: what is known of the trace so far. *)
Ltac passes Eh F C Fnew Cnew :=
  pose proof (f_equal (filter isCall) Eh) as Cnew;
  rewrite filter_app, C in Cnew;
  cbn [filter isCall isOutput negb] in Cnew;
  rewrite <- app_assoc in Cnew; cbn [app] in Cnew;
  match type of Eh with
  | ?hn = _ =>
      assert (Fnew : Forall (fun ev => isForkProject ev = false) hn)
        by (rewrite Eh; apply Forall_app; split; [exact F | repeat constructor])
  end;
  clear Eh.

Lemma fork_Run_cases (fuel : nat) (f : Flags) (h : Trace) (out : Outcome) :
  main (Run o (S fuel) f) = (h, out) ->
  (out = Exit 1 /\ Forall (fun ev => isForkProject ev = false) h) \/
  (exists config pre devSecret devToken projects resp p prodSecret prodToken target
          adminSecret adminToken res,
     filter isCall h =
       pre ++ [NewForConfig config None;
               NamespacesGet config (sourceGroup f) None;
               NewForConfig config None;
               NamespacesGet config (targetGroup f) None;
               NewForConfig config None;
               SecretsGet config (sourceGroup f) GitlabSecretName (Ok devSecret);
               NewClient (clientWith devToken f) None;
               ListGroupProjects (clientWith devToken f) (sourceGroup f) firstPage
                 (Ok (projects, resp));
               NewForConfig config None;
               SecretsGet config (targetGroup f) GitlabSecretName (Ok prodSecret);
               NewClient (clientWith prodToken f) None;
               ListGroupProjects (clientWith prodToken f) (getModelGroupByNs (targetGroup f))
                 firstPage target;
               NewForConfig config None;
               SecretsGet config "kubeflow" GitlabSecretName (Ok adminSecret);
               NewClient (clientWith adminToken f) None;
               ForkProject (clientWith adminToken f) (gitlab.ID p)
                 (getModelGroupByNs (targetGroup f)) res]
     /\ (pre = [InClusterConfig (Ok config)]
         \/ exists e, pre = [InClusterConfig (Err e); ClientConfig (Ok config)])
     /\ k8s.Data devSecret GitlabTokenKey = Some devToken
     /\ gitlab.StatusCode resp = 200%Z
     /\ find (fun q => gitlab.Name q =? sourceProject f)%string projects = Some p
     /\ k8s.Data prodSecret GitlabTokenKey = Some prodToken
     /\ passesPrecheck f target
     /\ k8s.Data adminSecret GitlabTokenKey = Some adminToken
     /\ (out = Exit 0 \/ out = Exit 1)
     /\ (out = Exit 0 <->
         exists newProject resp',
           res = gitlab.Forked newProject resp' /\ gitlab.StatusCode resp' = 201%Z)).
Proof.
  unfold main. destruct (Run o (S fuel) f []) as [hh st] eqn:ERun. unfold Run in ERun.
  assert (F0 : Forall (fun ev => isForkProject ev = false) ([] : Trace)) by constructor.
(* 1 *)
  apply bind_inv in ERun as [(r & H & ->) | (config & h1 & H1 & ERun)].
  { stops H getConfiguration_inv getConfiguration_emits F0. }
  apply getConfiguration_inv in H1. cbv beta iota in H1. destruct H1 as (_ & H1).
  assert (exists pre,
            (filter isCall h1 = pre ++ [] /\ Forall (fun ev => isForkProject ev = false) h1)
            /\ (pre = [InClusterConfig (Ok config)]
                \/ exists e, pre = [InClusterConfig (Err e); ClientConfig (Ok config)]))
    as (pre & (C1 & F1) & Hpre).
  { destruct H1 as [(m1 & m2 & m3 & ->) | (e & m1 & m2 & m3 & m4 & ->)].
    - exists [InClusterConfig (Ok config)].
      split; [split; [reflexivity | repeat constructor] | now left].
    - exists [InClusterConfig (Err e); ClientConfig (Ok config)].
      split; [split; [reflexivity | repeat constructor] | right; now exists e]. }
  clear H1 F0.
(* 2 *)
  apply bind_inv in ERun as [(r & H & ->) | ([] & h2 & H2 & ERun)].
  { stops H checkSourceNamespace_inv checkSourceNamespace_emits F1. }
  apply checkSourceNamespace_inv in H2. cbv beta iota in H2.
  destruct H2 as (m1 & m2 & m3 & Eh). passes Eh F1 C1 F2 C2. clear m1 m2 m3 F1 C1.
(* 3 *)
  apply bind_inv in ERun as [(r & H & ->) | ([] & h3 & H3 & ERun)].
  { stops H checkTargetNamespace_inv checkTargetNamespace_emits F2. }
  apply checkTargetNamespace_inv in H3. cbv beta iota in H3.
  destruct H3 as (m1 & m2 & m3 & Eh). passes Eh F2 C2 F3 C3. clear m1 m2 m3 F2 C2.
(* 4 *)
  apply bind_inv in ERun as [(r & H & ->) | (devToken & h4 & H4 & ERun)].
  { stops H getDevToken_inv getDevToken_emits F3. }
  apply getDevToken_inv in H4. cbv beta iota in H4.
  destruct H4 as (devSecret & m1 & m2 & m3 & m4 & Eh & Kdev).
  passes Eh F3 C3 F4 C4. clear m1 m2 m3 m4 F3 C3.
(* 5 *)
  apply bind_inv in ERun as [(r & H & ->) | (devGit & h5 & H5 & ERun)].
  { stops H newDevClient_inv newDevClient_emits F4. }
  apply newDevClient_inv in H5. cbv beta iota in H5.
  destruct H5 as (-> & m1 & Eh). passes Eh F4 C4 F5 C5. clear m1 F4 C4.
(* 6 *)
  apply bind_inv in ERun as [(r & H & ->) | (sourceProjectID & h6 & H6 & ERun)].
  { stops H findSourceProject_inv findSourceProject_emits F5. }
  apply findSourceProject_inv in H6. cbv beta iota in H6.
  destruct H6 as (projects & resp & p & m1 & m2 & m3 & Eh & E200 & Efind & ->).
  passes Eh F5 C5 F6 C6. clear m1 m2 m3 F5 C5.
(* 7 *)
  apply bind_inv in ERun as [(r & H & ->) | (prodToken & h7 & H7 & ERun)].
  { stops H getProdToken_inv getProdToken_emits F6. }
  apply getProdToken_inv in H7. cbv beta iota in H7.
  destruct H7 as (prodSecret & m1 & m2 & m3 & m4 & Eh & Kprod).
  passes Eh F6 C6 F7 C7. clear m1 m2 m3 m4 F6 C6.
(* 8 *)
  apply bind_inv in ERun as [(r & H & ->) | (prodGit & h8 & H8 & ERun)].
  { stops H newProdClient_inv newProdClient_emits F7. }
  apply newProdClient_inv in H8. cbv beta iota in H8.
  destruct H8 as (-> & m1 & Eh). passes Eh F7 C7 F8 C8. clear m1 F7 C7.
(* 9 *)
  apply bind_inv in ERun as [(r & H & ->) | ([] & h9 & H9 & ERun)].
  { pose proof H as E. apply checkTargetProject_inv in E.
    destruct E as (res & m1 & logs & _ & _ & E & _). cbv beta iota in E.
    apply (emits_run (fun ev => isForkProject ev = false)) in H as (evs & -> & Fe);
      [| apply checkTargetProject_emits; intros; reflexivity].
    intros [= <- <-]. left. split; [exact E|]. apply Forall_app. now split. }
  apply checkTargetProject_inv in H9.
  destruct H9 as (target & m1 & logs & Eh & Flogs & _ & Hpass).
  assert (Ptarget : passesPrecheck f target) by (apply Hpass; now exists tt).
  clear Hpass.
  assert (C9 : filter isCall h9 = filter isCall h8
                 ++ [ListGroupProjects (clientWith prodToken f)
                       (getModelGroupByNs (targetGroup f)) firstPage target]).
  { rewrite Eh, filter_app. cbn [filter isCall isOutput negb].
    now rewrite (filter_output logs Flogs). }
  rewrite C8, <- app_assoc in C9. cbn [app] in C9.
  assert (F9 : Forall (fun ev => isForkProject ev = false) h9).
  { rewrite Eh. apply Forall_app. split; [exact F8|].
    constructor; [reflexivity|]. constructor; [reflexivity|].
    now apply Forall_output_notFork. }
  clear Eh Flogs m1 logs F8 C8.
(* 10 *)
  apply bind_inv in ERun as [(r & H & ->) | (newProject & h10 & H10 & ERun)].
  { apply forkProject_inv in H as [([= ->] & evs & -> & Fe) | H].
    - intros [= <- <-]. left. split; [reflexivity|]. apply Forall_app. now split.
    - destruct H as (adminSecret & adminToken & res & m1 & m2 & m3 & m4 & logs
                     & Eh & Kadmin & Flogs & -> & Hres).
      intros [= <- <-]. right.
      exists config, pre, devSecret, devToken, projects, resp, p, prodSecret, prodToken,
        target, adminSecret, adminToken, res.
      split.
      { rewrite Eh, !filter_app, C9. cbn [filter isCall isOutput negb].
        rewrite (filter_output logs Flogs), app_nil_r, <- app_assoc. reflexivity. }
      do 7 (split; [assumption|]). split; [now right|].
      split; [intros [=] | intros (np & resp' & Eres & E201)].
      now elim (Hres np resp' Eres). }
  apply forkProject_inv in H10 as [([=] & _) | H10].
  destruct H10 as (adminSecret & adminToken & res & m1 & m2 & m3 & m4 & logs
                   & Eh & Kadmin & Flogs & resp' & Eres & E201).
(* 11 *)
  apply printProject_inv in ERun as (-> & logs' & -> & Flogs').
  intros [= <- <-]. right.
  exists config, pre, devSecret, devToken, projects, resp, p, prodSecret, prodToken,
    target, adminSecret, adminToken, res.
  split.
  { rewrite Eh, !filter_app, C9. cbn [filter isCall isOutput negb].
    rewrite (filter_output logs Flogs), (filter_output logs' Flogs'), !app_nil_r,
      <- app_assoc. reflexivity. }
  do 7 (split; [assumption|]). split; [now left|].
  split; [intros _; now exists newProject, resp' | reflexivity].
Qed.

End Steps.

Lemma In_filter_calls (ev : ForkEvent) (h : Trace) :
  In ev h -> isCall ev = true -> In ev (filter isCall h).
Proof. intros Hin Hc. apply filter_In. now split. Qed.

Lemma existsb_Forall_false (P : ForkEvent -> bool) (h : Trace) :
  Forall (fun ev => P ev = false) h -> existsb P h = false.
Proof.
  induction 1 as [|ev h Hev _ IH]; [reflexivity|]. cbn [existsb]. now rewrite Hev, IH.
Qed.

Lemma find_first {A : Type} (test : A -> bool) (l : list A) (x : A) :
  find test l = Some x ->
  exists before after,
    l = before ++ x :: after /\ test x = true /\ forall y, In y before -> test y = false.
Proof.
  induction l as [|a l IH]; [discriminate|]. cbn [find].
  destruct (test a) eqn:Ea.
  - intros [= ->]. exists [], l. repeat split; [exact Ea | intros y []].
  - intros H. destruct (IH H) as (before & after & -> & Hx & Hb).
    exists (a :: before), after. repeat split; [exact Hx|].
    intros y [<- | Hy]; [exact Ea | now apply Hb].
Qed.

(** X23. [findProjectInGroup] returns after exactly one call of
    [ListGroupProjects], with page 0, 100 projects a page and the
    subgroups included, whatever the answer, as soon as there is fuel for
    one page: the loop breaks after the first page because
    [listOptions.Page] is still 0, so [NextPage] is never followed. *)
Theorem search_reads_only_the_first_page (o : Outside) (fuel : nat)
      (client : gitlab.Client) (groupID projectName : string) (h : Trace) :
  exists logs r,
    call (R := Outcome) (findProjectInGroup o (S fuel) client groupID projectName) h
    = (h ++ ListGroupProjects client groupID firstPage
              (o_ListGroupProjects o h client groupID firstPage) :: logs,
       Next (Some r))
    /\ Forall (fun ev => isOutput ev = true) logs.
Proof.
  rewrite findProjectInGroup_run.
  destruct (o_ListGroupProjects o h client groupID firstPage) as [[projects resp]|e].
  - cbv zeta. destruct (gitlab.StatusCode resp =? 200)%Z.
    + destruct (find _ projects) as [p|].
      * do 2 eexists. split; [norm_app; reflexivity | repeat constructor].
      * exists []. eexists. split; [reflexivity | constructor].
    + exists []. eexists. split; [reflexivity | constructor].
  - exists []. eexists. split; [reflexivity | constructor].
Qed.

(** X24. With a nil error, the result of [findProjectInGroup] is the ID of
    the first project of the page whose name is the one sought, from an
    answer of status 200.  With an error the ID is -1; and when the page
    was one of status 200 without a project of that name, the message of
    the error holds the words the [fork] command looks for. *)
Theorem search_returns_first_project_of_that_name (o : Outside) (fuel : nat)
      (client : gitlab.Client) (groupID projectName : string) (h h' : Trace)
      (id : Z) (err : option error) :
  call (R := Outcome) (findProjectInGroup o (S fuel) client groupID projectName) h
    = (h', Next (Some (id, err))) ->
  match err with
  | None =>
      exists projects resp before p after,
        o_ListGroupProjects o h client groupID firstPage = Ok (projects, resp)
        /\ gitlab.StatusCode resp = 200%Z
        /\ projects = before ++ p :: after
        /\ gitlab.Name p = projectName
        /\ (forall q, In q before -> gitlab.Name q <> projectName)
        /\ id = gitlab.ID p
  | Some e =>
      id = (-1)%Z /\
      forall projects resp,
        o_ListGroupProjects o h client groupID firstPage = Ok (projects, resp) ->
        gitlab.StatusCode resp = 200%Z ->
        (forall q, In q projects -> gitlab.Name q <> projectName)
        /\ strings.Contains (Error e) "未找到项目" = true
  end.
Proof.
  rewrite findProjectInGroup_run.
  destruct (o_ListGroupProjects o h client groupID firstPage) as [[projects resp]|e].
  - cbv zeta. destruct (Z.eqb_spec (gitlab.StatusCode resp) 200) as [E200|N200].
    + destruct (find _ projects) as [p|] eqn:Ef.
      * intros [= <- <- <-].
        apply find_first in Ef as (before & after & -> & Hp & Hb).
        exists (before ++ p :: after), resp, before, p, after.
        apply String.eqb_eq in Hp.
        repeat split; try assumption; try reflexivity.
        intros q Hq. apply String.eqb_neq. now apply Hb.
      * intros [= <- <- <-]. split; [reflexivity|].
        intros projects' resp' [= <- <-] _. split.
        -- intros q Hq. apply String.eqb_neq. exact (find_none _ _ Ef q Hq).
        -- apply notFound_message.
    + intros [= <- <- <-]. split; [reflexivity|].
      intros projects' resp' [= <- <-] E200. now elim N200.
  - intros [= <- <- <-]. split; [reflexivity|]. intros projects resp [=].
Qed.

Lemma search_returns_first_project_of_that_name_witness :
  exists projects resp before p after,
    o_ListGroupProjects ForkExample.cluster []
      (clientWith "token-of-fy-dev" ForkExample.flags) "fy-dev" firstPage
    = Ok (projects, resp)
    /\ gitlab.StatusCode resp = 200%Z
    /\ projects = before ++ p :: after
    /\ gitlab.Name p = "iris"
    /\ (forall q, In q before -> gitlab.Name q <> "iris")
    /\ 7%Z = gitlab.ID p.
Proof.
  apply (search_returns_first_project_of_that_name ForkExample.cluster 0
           (clientWith "token-of-fy-dev" ForkExample.flags) "fy-dev" "iris" []
           (fst (call (R := Outcome)
                   (findProjectInGroup ForkExample.cluster 1
                      (clientWith "token-of-fy-dev" ForkExample.flags) "fy-dev" "iris") []))
           7%Z None).
  vm_compute. reflexivity.
Defined.

(** X25. [GetKubeConfig] always returns.  It returns the configuration of
    the cluster it runs in when that loads, and asks for the default
    kubeconfig only otherwise.  It fails only when both fail, with an
    error that wraps the second failure; the first is only logged. *)
Theorem in_cluster_configuration_is_preferred (o : Outside) (h : Trace) :
  exists evs r,
    call (R := Outcome) (GetKubeConfig o) h = (h ++ evs, Next r)
    /\ match r with
       | Ok config =>
           filter isCall evs = [InClusterConfig (Ok config)]
           \/ exists e, filter isCall evs = [InClusterConfig (Err e); ClientConfig (Ok config)]
       | Err err =>
           exists e1 e2,
             filter isCall evs = [InClusterConfig (Err e1); ClientConfig (Err e2)]
             /\ chain err = chain e2
             /\ Error err
                = ("❌ 无法加载 Kubernetes 配置 (既不在集群内，也未从默认 ~/.kube/config 路径加载): "
                   ++ Error e2)%string
       end.
Proof.
  rewrite GetKubeConfig_run. cbv zeta.
  destruct (o_InClusterConfig o _) as [config|e1].
  - do 2 eexists. split; [norm_app; reflexivity|]. now left.
  - destruct (o_ClientConfig o _) as [config|e2].
    + do 2 eexists. split; [norm_app; reflexivity|]. right. now exists e1.
    + do 2 eexists. split; [norm_app; reflexivity|]. exists e1, e2. now repeat split.
Qed.

(** X26. [GetSecretValue] returns a nil error only with the value stored
    under the key in the secret it has read, after one client and one
    [Get].  With any error the string it returns is empty, and a secret
    that was read but lacks the key gives the error that names the
    secret and the key. *)
Theorem secret_without_the_key_is_an_error (o : Outside) (config : k8s.Config)
      (namespace secretName key : string) (h h' : Trace) (token : string)
      (err : option error) :
  call (R := Outcome) (GetSecretValue o config namespace secretName key) h
    = (h', Next (token, err)) ->
  match err with
  | None =>
      exists secret,
        filter isCall (skipn (length h) h')
        = [NewForConfig config None; SecretsGet config namespace secretName (Ok secret)]
        /\ k8s.Data secret key = Some token
  | Some e =>
      token = ""
      /\ forall secret,
           In (SecretsGet config namespace secretName (Ok secret)) (skipn (length h) h') ->
           k8s.Data secret key = None
           /\ e = fmt.Errorf ("Secret '" ++ secretName ++ "' 中不存在 key '" ++ key ++ "'")%string
  end.
Proof.
  rewrite GetSecretValue_run.
  assert (Hskip : forall evs : Trace, skipn (length h) (h ++ evs) = evs).
  { intros evs. rewrite skipn_app, skipn_all, Nat.sub_diag. reflexivity. }
  destruct (o_NewForConfig o h config) as [e|].
  { intros [= <- <- <-]. split; [reflexivity|]. intros secret. rewrite Hskip.
    cbn [In]. intros [[=]|[]]. }
  cbv zeta. destruct (o_SecretsGet o _ config namespace secretName) as [secret|e].
  - destruct (k8s.Data secret key) as [tokenBytes|] eqn:Ek.
    + intros [= <- <- <-]. exists secret. rewrite <- app_assoc, Hskip. now split.
    + intros [= <- <- <-]. split; [reflexivity|]. intros secret'.
      rewrite <- app_assoc, Hskip. cbn [In app].
      intros [[=]|[[=]|[[= <-]|[]]]]. now split.
  - intros [= <- <- <-]. split; [reflexivity|]. intros secret.
    rewrite <- app_assoc, Hskip. cbn [In app]. intros [[=]|[[=]|[[=]|[]]]].
Qed.

Lemma secret_without_the_key_is_an_error_witness :
  "" = "" /\
  forall secret,
    In (SecretsGet "in-cluster" "fy-dev" "aml-image-builder-secret" (Ok secret))
       (skipn (length ([] : Trace))
          (fst (call (R := Outcome)
                  (GetSecretValue ForkExample.cluster "in-cluster" "fy-dev"
                     "aml-image-builder-secret" "TOKEN") []))) ->
    k8s.Data secret "TOKEN" = None
    /\ fmt.Errorf "Secret 'aml-image-builder-secret' 中不存在 key 'TOKEN'"
       = fmt.Errorf ("Secret '" ++ "aml-image-builder-secret" ++ "' 中不存在 key '" ++ "TOKEN"
                     ++ "'")%string.
Proof.
  apply (secret_without_the_key_is_an_error ForkExample.cluster "in-cluster" "fy-dev"
           "aml-image-builder-secret" "TOKEN" []
           (fst (call (R := Outcome)
                   (GetSecretValue ForkExample.cluster "in-cluster" "fy-dev"
                      "aml-image-builder-secret" "TOKEN") []))
           "" (Some (fmt.Errorf "Secret 'aml-image-builder-secret' 中不存在 key 'TOKEN'"))).
  vm_compute. reflexivity.
Defined.

(** X27. When a [Get] of a namespace fails during the [fork] command,
    because the namespace is missing or for any other reason, the command
    exits with status 1, and it has read no secret and made no call to
    GitLab. *)
Theorem namespace_failure_ends_before_any_secret (o : Outside) (fuel : nat) (f : Flags)
      (h : Trace) (out : Outcome) (config : k8s.Config) (namespace : string)
      (e : k8s.GetError) :
  main (Run o fuel f) = (h, out) ->
  In (NamespacesGet config namespace (Some e)) h ->
  out = Exit 1 /\ Forall (fun ev => isSecretsGet ev = false /\ isGitLab ev = false) h.
Proof.
  set (P := fun ev => isSecretsGet ev = false /\ isGitLab ev = false).
  set (Q := fun ev => isFailedGet ev = false).
  unfold main. destruct (Run o fuel f []) as [hh st] eqn:ERun. unfold Run in ERun.
  intros Hmain Hin.
  assert (Hno : Forall Q hh -> False).
  { intros F. assert (E : h = hh) by (destruct st; now injection Hmain).
    subst hh. rewrite Forall_forall in F. now apply F in Hin. }
(* 1 *)
  apply bind_inv in ERun as [(r & H & ->) | (cfg & h1 & H1 & ERun)].
  { elim Hno.
    apply (emits_run Q) in H as (evs & -> & Fe); [exact Fe|].
    apply getConfiguration_emits; intros; reflexivity. }
  assert (FP1 : Forall P h1).
  { apply (emits_run P) in H1 as (evs & -> & Fe); [exact Fe|].
    apply getConfiguration_emits; intros; split; reflexivity. }
  assert (FQ1 : Forall Q h1).
  { apply (emits_run Q) in H1 as (evs & -> & Fe); [exact Fe|].
    apply getConfiguration_emits; intros; reflexivity. }
  clear H1.
(* 2 *)
  apply bind_inv in ERun as [(r & H & ->) | ([] & h2 & H2 & ERun)].
  { pose proof H as E. apply checkSourceNamespace_inv in E. cbv beta iota in E. subst r.
    apply (emits_run P) in H as (evs & -> & Fe);
      [| apply checkSourceNamespace_emits; intros; split; reflexivity].
    injection Hmain as <- <-. split; [reflexivity|]. apply Forall_app. now split. }
  assert (FP2 : Forall P h2).
  { apply (emits_run P) in H2 as (evs & -> & Fe);
      [| apply checkSourceNamespace_emits; intros; split; reflexivity].
    apply Forall_app. now split. }
  assert (FQ2 : Forall Q h2).
  { apply checkSourceNamespace_inv in H2. cbv beta iota in H2.
    destruct H2 as (m1 & m2 & m3 & ->). apply Forall_app. split; [exact FQ1|].
    repeat constructor. }
  clear H2 FP1 FQ1.
(* 3 *)
  apply bind_inv in ERun as [(r & H & ->) | ([] & h3 & H3 & ERun)].
  { pose proof H as E. apply checkTargetNamespace_inv in E. cbv beta iota in E. subst r.
    apply (emits_run P) in H as (evs & -> & Fe);
      [| apply checkTargetNamespace_emits; intros; split; reflexivity].
    injection Hmain as <- <-. split; [reflexivity|]. apply Forall_app. now split. }
  assert (FQ3 : Forall Q h3).
  { apply checkTargetNamespace_inv in H3. cbv beta iota in H3.
    destruct H3 as (m1 & m2 & m3 & ->). apply Forall_app. split; [exact FQ2|].
    repeat constructor. }
  clear H3 FP2 FQ2.
(* 4 to 11 *)
  elim Hno.
  apply (emits_run Q) in ERun as (evs & -> & Fe); [apply Forall_app; now split|].
  apply emits_bind; [apply getDevToken_emits; intros; reflexivity | intros devToken].
  apply emits_bind; [apply newDevClient_emits; intros; reflexivity | intros devGit].
  apply emits_bind; [apply findSourceProject_emits; intros; reflexivity | intros pid].
  apply emits_bind; [apply getProdToken_emits; intros; reflexivity | intros prodToken].
  apply emits_bind; [apply newProdClient_emits; intros; reflexivity | intros prodGit].
  apply emits_bind; [apply checkTargetProject_emits; intros; reflexivity | intros _].
  apply emits_bind; [apply forkProject_emits; intros; reflexivity | intros newProject].
  apply printProject_emits; intros; reflexivity.
Qed.

Lemma namespace_failure_ends_before_any_secret_witness :
  snd (main (Run ForkExample.missingNamespace 1 ForkExample.flags)) = Exit 1 /\
  Forall (fun ev => isSecretsGet ev = false /\ isGitLab ev = false)
    (fst (main (Run ForkExample.missingNamespace 1 ForkExample.flags))).
Proof.
  apply (namespace_failure_ends_before_any_secret ForkExample.missingNamespace 1
           ForkExample.flags _ _ "in-cluster" "fy-prod"
           (k8s.StatusError 404 "namespaces fy-prod not found")).
  - apply surjective_pairing.
  - vm_compute. repeat (first [left; reflexivity | right]).
Defined.

(** X28. The pre-check of the target group makes one listing, of
    [<targetGroup>/amlmodels], and the command goes on exactly when the
    search failed with a message that holds the words looked for: a first
    page of status 200 without a project of that name, or a failed
    listing whose text holds these words.  Otherwise the command exits
    with status 1. *)
Theorem precheck_goes_on_iff_project_absent (o : Outside) (fuel : nat) (f : Flags)
      (prodGit : gitlab.Client) (h h' : Trace) (s : Step Outcome unit) :
  checkTargetProject o (S fuel) f prodGit h = (h', s) ->
  exists target evs,
    h' = h ++ evs
    /\ filter isCall evs
       = [ListGroupProjects prodGit (targetGroup f ++ "/amlmodels") firstPage target]
    /\ (s = Next tt \/ s = Return (Exit 1))
    /\ (s = Next tt <-> passesPrecheck f target).
Proof.
  intros H. apply checkTargetProject_inv in H.
  destruct H as (target & m1 & logs & -> & Flogs & Hs & Hiff).
  exists target. eexists. split; [reflexivity|]. split.
  { cbn [filter isCall isOutput negb]. now rewrite (filter_output logs Flogs). }
  split.
  - destruct s as [[]|r]; [now left | right; now subst r].
  - rewrite <- Hiff. split; [intros ->; now exists tt | intros [[] ->]; reflexivity].
Qed.

Lemma precheck_goes_on_iff_project_absent_witness :
  exists target evs,
    fst (checkTargetProject ForkExample.taken 1 ForkExample.flags
           (clientWith "token-of-fy-prod" ForkExample.flags) []) = [] ++ evs
    /\ filter isCall evs
       = [ListGroupProjects (clientWith "token-of-fy-prod" ForkExample.flags)
            (targetGroup ForkExample.flags ++ "/amlmodels") firstPage target]
    /\ (snd (checkTargetProject ForkExample.taken 1 ForkExample.flags
               (clientWith "token-of-fy-prod" ForkExample.flags) []) = Next tt
        \/ snd (checkTargetProject ForkExample.taken 1 ForkExample.flags
                  (clientWith "token-of-fy-prod" ForkExample.flags) []) = Return (Exit 1))
    /\ (snd (checkTargetProject ForkExample.taken 1 ForkExample.flags
               (clientWith "token-of-fy-prod" ForkExample.flags) []) = Next tt
        <-> passesPrecheck ForkExample.flags target).
Proof.
  apply (precheck_goes_on_iff_project_absent ForkExample.taken 0 ForkExample.flags
           (clientWith "token-of-fy-prod" ForkExample.flags) []).
  apply surjective_pairing.
Defined.

(** X29. A run of the [fork] command that asks for the fork has made these
    calls, in this order: the configuration; the checks of the namespaces
    of the source and of the target group, both found; the read of the
    secret of the source namespace and, with its token, a listing of the
    first page of the source group that holds the project; the read of
    the secret of the target namespace and, with its token, a listing of
    [<targetGroup>/amlmodels] that passed the pre-check; the read of the
    secret of the namespace [kubeflow]; and the request itself, made with
    the token of [kubeflow] for the ID found, into
    [<targetGroup>/amlmodels]. *)
Theorem fork_request_follows_all_checks (o : Outside) (fuel : nat) (f : Flags)
      (h : Trace) (out : Outcome) :
  main (Run o (S fuel) f) = (h, out) ->
  existsb isForkProject h = true ->
  exists config pre devSecret devToken projects resp p prodSecret prodToken target
         adminSecret adminToken res,
    filter isCall h =
      pre ++ [NewForConfig config None;
              NamespacesGet config (sourceGroup f) None;
              NewForConfig config None;
              NamespacesGet config (targetGroup f) None;
              NewForConfig config None;
              SecretsGet config (sourceGroup f) "aml-image-builder-secret" (Ok devSecret);
              NewClient (clientWith devToken f) None;
              ListGroupProjects (clientWith devToken f) (sourceGroup f) firstPage
                (Ok (projects, resp));
              NewForConfig config None;
              SecretsGet config (targetGroup f) "aml-image-builder-secret" (Ok prodSecret);
              NewClient (clientWith prodToken f) None;
              ListGroupProjects (clientWith prodToken f) (targetGroup f ++ "/amlmodels")
                firstPage target;
              NewForConfig config None;
              SecretsGet config "kubeflow" "aml-image-builder-secret" (Ok adminSecret);
              NewClient (clientWith adminToken f) None;
              ForkProject (clientWith adminToken f) (gitlab.ID p)
                (targetGroup f ++ "/amlmodels") res]
    /\ (pre = [InClusterConfig (Ok config)]
        \/ exists e, pre = [InClusterConfig (Err e); ClientConfig (Ok config)])
    /\ k8s.Data devSecret "MODEL_REPO_GIT_TOKEN" = Some devToken
    /\ k8s.Data prodSecret "MODEL_REPO_GIT_TOKEN" = Some prodToken
    /\ k8s.Data adminSecret "MODEL_REPO_GIT_TOKEN" = Some adminToken
    /\ gitlab.StatusCode resp = 200%Z
    /\ find (fun q => gitlab.Name q =? sourceProject f)%string projects = Some p
    /\ passesPrecheck f target.
Proof.
  intros Hrun Hfork.
  apply fork_Run_cases in Hrun as [(_ & F) | H].
  { apply existsb_Forall_false in F. congruence. }
  destruct H as (config & pre & devSecret & devToken & projects & resp & p & prodSecret
                 & prodToken & target & adminSecret & adminToken & res
                 & C & Hpre & Kd & E200 & Ef & Kp & Hpass & Ka & _).
  exists config, pre, devSecret, devToken, projects, resp, p, prodSecret, prodToken, target,
    adminSecret, adminToken, res.
  repeat split; assumption.
Qed.

Lemma fork_request_follows_all_checks_witness :
  exists config pre devSecret devToken projects resp p prodSecret prodToken target
         adminSecret adminToken res,
    filter isCall (fst (main (Run ForkExample.cluster 1 ForkExample.flags))) =
      pre ++ [NewForConfig config None;
              NamespacesGet config (sourceGroup ForkExample.flags) None;
              NewForConfig config None;
              NamespacesGet config (targetGroup ForkExample.flags) None;
              NewForConfig config None;
              SecretsGet config (sourceGroup ForkExample.flags) "aml-image-builder-secret"
                (Ok devSecret);
              NewClient (clientWith devToken ForkExample.flags) None;
              ListGroupProjects (clientWith devToken ForkExample.flags)
                (sourceGroup ForkExample.flags) firstPage (Ok (projects, resp));
              NewForConfig config None;
              SecretsGet config (targetGroup ForkExample.flags) "aml-image-builder-secret"
                (Ok prodSecret);
              NewClient (clientWith prodToken ForkExample.flags) None;
              ListGroupProjects (clientWith prodToken ForkExample.flags)
                (targetGroup ForkExample.flags ++ "/amlmodels") firstPage target;
              NewForConfig config None;
              SecretsGet config "kubeflow" "aml-image-builder-secret" (Ok adminSecret);
              NewClient (clientWith adminToken ForkExample.flags) None;
              ForkProject (clientWith adminToken ForkExample.flags) (gitlab.ID p)
                (targetGroup ForkExample.flags ++ "/amlmodels") res]
    /\ (pre = [InClusterConfig (Ok config)]
        \/ exists e, pre = [InClusterConfig (Err e); ClientConfig (Ok config)])
    /\ k8s.Data devSecret "MODEL_REPO_GIT_TOKEN" = Some devToken
    /\ k8s.Data prodSecret "MODEL_REPO_GIT_TOKEN" = Some prodToken
    /\ k8s.Data adminSecret "MODEL_REPO_GIT_TOKEN" = Some adminToken
    /\ gitlab.StatusCode resp = 200%Z
    /\ find (fun q => gitlab.Name q =? sourceProject ForkExample.flags)%string projects = Some p
    /\ passesPrecheck ForkExample.flags target.
Proof.
  apply (fork_request_follows_all_checks ForkExample.cluster 0 ForkExample.flags
           (fst (main (Run ForkExample.cluster 1 ForkExample.flags)))
           (snd (main (Run ForkExample.cluster 1 ForkExample.flags)))).
  - apply surjective_pairing.
  - vm_compute. reflexivity.
Defined.

(** X30. The [fork] command ends with status 0 or 1, and with status 0
    exactly when [ForkProject] answered with a project and the HTTP
    status 201. *)
Theorem exit_status_zero_iff_created (o : Outside) (fuel : nat) (f : Flags)
      (h : Trace) (out : Outcome) :
  main (Run o (S fuel) f) = (h, out) ->
  (out = Exit 0 \/ out = Exit 1) /\
  (out = Exit 0 <->
   exists client pid namespace newProject resp,
     In (ForkProject client pid namespace (gitlab.Forked newProject resp)) h
     /\ gitlab.StatusCode resp = 201%Z).
Proof.
  intros Hrun.
  apply fork_Run_cases in Hrun as [(-> & F) | H].
  { split; [now right|]. split; [intros [=]|].
    intros (client & pid & ns & np & resp & Hin & _).
    rewrite Forall_forall in F. now apply F in Hin. }
  destruct H as (config & pre & devSecret & devToken & projects & resp & p & prodSecret
                 & prodToken & target & adminSecret & adminToken & res
                 & C & Hpre & _ & _ & _ & _ & _ & _ & Hout & Hiff).
  split; [exact Hout|]. rewrite Hiff. split.
  - intros (np & resp' & -> & E201).
    exists (clientWith adminToken f), (gitlab.ID p), (getModelGroupByNs (targetGroup f)),
      np, resp'.
    split; [|exact E201].
    assert (Hin : In (ForkProject (clientWith adminToken f) (gitlab.ID p)
                        (getModelGroupByNs (targetGroup f)) (gitlab.Forked np resp'))
                     (filter isCall h)).
    { rewrite C. apply in_or_app. right. cbn [In]. tauto. }
    now apply filter_In in Hin.
  - intros (client & pid & ns & np & resp' & Hin & E201).
    apply In_filter_calls in Hin; [|reflexivity].
    rewrite C in Hin. apply in_app_or in Hin as [Hin | Hin].
    + destruct Hpre as [-> | (e & ->)]; cbn [In] in Hin;
        repeat (destruct Hin as [[=] | Hin]); now elim Hin.
    + cbn [In] in Hin. repeat (destruct Hin as [Hin | Hin]; try discriminate Hin).
      * injection Hin as _ _ _ ->. now exists np, resp'.
      * now elim Hin.
Qed.

Lemma exit_status_zero_iff_created_witness :
  (snd (main (Run ForkExample.cluster 1 ForkExample.flags)) = Exit 0
   \/ snd (main (Run ForkExample.cluster 1 ForkExample.flags)) = Exit 1) /\
  (snd (main (Run ForkExample.cluster 1 ForkExample.flags)) = Exit 0 <->
   exists client pid namespace newProject resp,
     In (ForkProject client pid namespace (gitlab.Forked newProject resp))
        (fst (main (Run ForkExample.cluster 1 ForkExample.flags)))
     /\ gitlab.StatusCode resp = 201%Z).
Proof.
  apply (exit_status_zero_iff_created ForkExample.cluster 0 ForkExample.flags).
  apply surjective_pairing.
Defined.

End ForkProofs.
